(** * E-commerce analytics ETL pipeline: a shallow embedding

    The development follows [src/etl_pipeline.py] ([EcommerceETL]).
    Data frames are lists of records, one record per row, in frame order.
    The warehouse is a set of tables behind a connection with a
    transaction: statements change the working copy, [commit] publishes
    it and [rollback] discards it.  Exceptions are explicit: every method
    is a state transformer that returns a value or raises, and the
    [try]/[except] blocks of the source are [try_except].

    Conventions.
    - A missing value (pandas NaN / NaT) is [None].
    - Prices and amounts are rationals: binary rounding of the source's
      floating-point numbers is outside the model.
    - Strings are ASCII. *)

From Stdlib Require Import ZArith QArith List String Ascii Bool Lia.
From Stdlib Require Import Permutation.
Import ListNotations.
Local Open Scope string_scope.
Local Open Scope list_scope.
Local Open Scope Z_scope.

Set Implicit Arguments.

(* ================================================================== *)
(** ** Python strings *)
(* ================================================================== *)

Module PyStr.

(** [str.startswith] *)
Definition startswith (s p : string) : bool := String.prefix p s.

(** Characters for which [str.isspace] holds (ASCII). *)
Definition isspace (c : ascii) : bool :=
  let n := Z.of_nat (nat_of_ascii c) in
  ((9 <=? n) && (n <=? 13)) || ((28 <=? n) && (n <=? 32)).

Fixpoint lstrip (s : string) : string :=
  match s with
  | EmptyString => EmptyString
  | String c r => if isspace c then lstrip r else s
  end.

Fixpoint rstrip (s : string) : string :=
  match s with
  | EmptyString => EmptyString
  | String c r =>
      match rstrip r with
      | EmptyString => if isspace c then EmptyString else String c EmptyString
      | r' => String c r'
      end
  end.

(** [str.strip()] *)
Definition strip (s : string) : string := rstrip (lstrip s).

Definition upper_char (c : ascii) : ascii :=
  let n := nat_of_ascii c in
  if ((97 <=? n) && (n <=? 122))%nat then ascii_of_nat (n - 32) else c.

(** [str.upper()] *)
Fixpoint upper (s : string) : string :=
  match s with
  | EmptyString => EmptyString
  | String c r => String (upper_char c) (upper r)
  end.

Definition digit_val (c : ascii) : option Z :=
  let n := Z.of_nat (nat_of_ascii c) in
  if (48 <=? n) && (n <=? 57) then Some (n - 48) else None.

(** Digits of an integer literal; single underscores may separate
    digits.  [acc] is the value read so far, [after_digit] tells whether
    the previous character was a digit. *)
Fixpoint digits (acc : Z) (after_digit : bool) (s : string) : option Z :=
  match s with
  | EmptyString => if after_digit then Some acc else None
  | String c r =>
      match digit_val c with
      | Some d => digits (10 * acc + d) true r
      | None =>
          if (Ascii.eqb c "_" && after_digit)%bool
          then digits acc false r
          else None
      end
  end.

(** The blanks [int] skips at both ends: tab to carriage return and the
    space (the separators 28 to 31, blanks for [strip], are not). *)
Definition int_blank (c : ascii) : bool :=
  let n := Z.of_nat (nat_of_ascii c) in
  ((9 <=? n) && (n <=? 13)) || (n =? 32).

Fixpoint int_lstrip (s : string) : string :=
  match s with
  | EmptyString => EmptyString
  | String c r => if int_blank c then int_lstrip r else s
  end.

Fixpoint int_rstrip (s : string) : string :=
  match s with
  | EmptyString => EmptyString
  | String c r =>
      match int_rstrip r with
      | EmptyString => if int_blank c then EmptyString else String c EmptyString
      | r' => String c r'
      end
  end.

(** [int(s)]: surrounding blanks, an optional sign, decimal digits.
    [None] stands for [ValueError]. *)
Definition int (s : string) : option Z :=
  match int_rstrip (int_lstrip s) with
  | String "-" r => option_map Z.opp (digits 0 false r)
  | String "+" r => digits 0 false r
  | t => digits 0 false t
  end.

End PyStr.

(* ================================================================== *)
(** ** Dates and timestamps *)
(* ================================================================== *)

Record Date := mkDate { year : Z; month : Z; day : Z }.

Record Timestamp := mkTimestamp {
  ts_date : Date;        (* [.date()] / [.dt.date] *)
  hour : Z;
  minute : Z;
  second : Z
}.

Module Calendar.

(** Days since 1970-01-01 in the proleptic Gregorian calendar. *)
Definition days_from_civil (d : Date) : Z :=
  let y := if month d <=? 2 then year d - 1 else year d in
  let era := y / 400 in
  let yoe := y - era * 400 in
  let mp := if month d >? 2 then month d - 3 else month d + 9 in
  let doy := (153 * mp + 2) / 5 + day d - 1 in
  let doe := yoe * 365 + yoe / 4 - yoe / 100 + doy in
  era * 146097 + doe - 719468.

(** [.dt.dayofweek]: Monday is 0, Sunday is 6. *)
Definition dayofweek (d : Date) : Z := (days_from_civil d + 3) mod 7.

(** [.dt.quarter] *)
Definition quarter (d : Date) : Z := (month d - 1) / 3 + 1.

Definition weeks_in_year (y : Z) : Z :=
  let p := fun y => (y + y / 4 - y / 100 + y / 400) mod 7 in
  if (p y =? 4) || (p (y - 1) =? 3) then 53 else 52.

(** [.dt.isocalendar().week] *)
Definition isoweek (d : Date) : Z :=
  let ordinal := days_from_civil d - days_from_civil (mkDate (year d) 1 1) + 1 in
  let w := (ordinal - (dayofweek d + 1) + 10) / 7 in
  if w <? 1 then weeks_in_year (year d - 1)
  else if w >? weeks_in_year (year d) then 1
  else w.

(** [strftime('%B')] *)
Definition month_name (d : Date) : string :=
  nth (Z.to_nat (month d - 1))
    ["January"; "February"; "March"; "April"; "May"; "June"; "July";
     "August"; "September"; "October"; "November"; "December"] "".

(** [strftime('%A')] *)
Definition day_name (d : Date) : string :=
  nth (Z.to_nat (dayofweek d))
    ["Monday"; "Tuesday"; "Wednesday"; "Thursday"; "Friday"; "Saturday";
     "Sunday"] "".

(** [.isin([5, 6])] on the day of week *)
Definition is_weekend (d : Date) : bool :=
  (dayofweek d =? 5) || (dayofweek d =? 6).

End Calendar.

(* ================================================================== *)
(** ** Equality tests on cell values *)
(* ================================================================== *)

Definition option_eqb {A} (eqb : A -> A -> bool) (x y : option A) : bool :=
  match x, y with
  | None, None => true            (* two missing values count as equal *)
  | Some a, Some b => eqb a b
  | _, _ => false
  end.

Definition Date_eqb (a b : Date) : bool :=
  (year a =? year b) && (month a =? month b) && (day a =? day b).

Definition Timestamp_eqb (a b : Timestamp) : bool :=
  Date_eqb (ts_date a) (ts_date b) && (hour a =? hour b)
  && (minute a =? minute b) && (second a =? second b).

(** Chronological order on timestamps (fields in their calendar ranges). *)
Definition Timestamp_leb (a b : Timestamp) : bool :=
  let key := fun t =>
    (Calendar.days_from_civil (ts_date t) * 86400
     + hour t * 3600 + minute t * 60 + second t) in
  key a <=? key b.

(** [0 < q] on rationals, as a boolean. *)
Definition Qpos_b (q : Q) : bool := (0 <? Qnum q).

(* ================================================================== *)
(** ** Rows *)
(* ================================================================== *)

(** A row of [df_raw] with the dtypes [extract] asks for: text columns
    may be missing, [Quantity] is an integer, [UnitPrice] a float
    (missing is NaN). *)
Record RawRecord := mkRaw {
  raw_InvoiceNo : option string;
  raw_StockCode : option string;
  raw_Description : option string;
  raw_Quantity : Z;
  raw_InvoiceDate : option string;
  raw_UnitPrice : option Q;
  raw_CustomerID : option string;
  raw_Country : option string
}.

(** A row after the type conversions of step 3 of [transform]. *)
Record TypedRecord := mkTyped {
  t_InvoiceNo : option string;
  t_StockCode : option string;
  t_Description : option string;
  t_Quantity : Z;
  t_InvoiceDate : option Timestamp;   (* [None] is NaT *)
  t_UnitPrice : option Q;
  t_CustomerID : Z;
  t_Country : option string
}.

(** A row of [df_clean]. *)
Record CleanRecord := mkClean {
  InvoiceNo : option string;
  StockCode : option string;
  Description : option string;
  Quantity : Z;
  InvoiceDate : option Timestamp;
  UnitPrice : option Q;
  CustomerID : Z;
  Country : option string;
  TotalAmount : option Q;
  Year : option Z;
  Month : option Z;
  Day : option Z;
  DayOfWeek : option Z;
  Hour : option Z
}.

(** Full-row equality, as [drop_duplicates] uses it. *)
Definition RawRecord_eqb (a b : RawRecord) : bool :=
  option_eqb String.eqb (raw_InvoiceNo a) (raw_InvoiceNo b)
  && option_eqb String.eqb (raw_StockCode a) (raw_StockCode b)
  && option_eqb String.eqb (raw_Description a) (raw_Description b)
  && (raw_Quantity a =? raw_Quantity b)
  && option_eqb String.eqb (raw_InvoiceDate a) (raw_InvoiceDate b)
  && option_eqb Qeq_bool (raw_UnitPrice a) (raw_UnitPrice b)
  && option_eqb String.eqb (raw_CustomerID a) (raw_CustomerID b)
  && option_eqb String.eqb (raw_Country a) (raw_Country b).

(* ================================================================== *)
(** ** Frame operations *)
(* ================================================================== *)

Section Frames.
Variable A : Type.
Variable eqb : A -> A -> bool.

(** Keep the first occurrence of every value: a row goes when an equal
    row stands before it ([drop_duplicates], [unique]).  [seen] holds the
    rows before the current one. *)
Fixpoint keep_first (seen l : list A) : list A :=
  match l with
  | [] => []
  | x :: r =>
      if existsb (eqb x) seen then keep_first (x :: seen) r
      else x :: keep_first (x :: seen) r
  end.

Definition drop_duplicates (l : list A) : list A := keep_first [] l.

(** No row equals a row before it. *)
Definition duplicate_free (l : list A) : Prop :=
  ForallOrdPairs (fun a b => eqb b a = false) l.

(** [subframe l1 l2]: [l1] is [l2] with some rows taken out. *)
Inductive subframe : list A -> list A -> Prop :=
| sub_nil : subframe [] []
| sub_keep x l1 l2 : subframe l1 l2 -> subframe (x :: l1) (x :: l2)
| sub_drop x l1 l2 : subframe l1 l2 -> subframe l1 (x :: l2).

(** Insertion sort, for the group keys. *)
Variable leb : A -> A -> bool.

Fixpoint insert_sorted (k : A) (l : list A) : list A :=
  match l with
  | [] => [k]
  | x :: r => if leb k x then k :: l else x :: insert_sorted k r
  end.

Fixpoint sort (l : list A) : list A :=
  match l with
  | [] => []
  | x :: r => insert_sorted x (sort r)
  end.

(** The keys of a [groupby]: the distinct values, in increasing order. *)
Definition group_keys (l : list A) : list A := sort (drop_duplicates l).

End Frames.

(** First non-missing value of a column (aggregation ['first']). *)
Fixpoint first_valid {A} (l : list (option A)) : option A :=
  match l with
  | [] => None
  | Some a :: _ => Some a
  | None :: r => first_valid r
  end.

(** The non-missing values of a column. *)
Fixpoint valid {A} (l : list (option A)) : list A :=
  match l with
  | [] => []
  | Some a :: r => a :: valid r
  | None :: r => valid r
  end.

(** Sum of a column, kept in lowest terms. *)
Definition Qsum (l : list Q) : Q := fold_left (fun a b => Qred (a + b)%Q) l (0 # 1)%Q.

(** Aggregation ['mean']: NaN on an empty column. *)
Definition mean (l : list (option Q)) : option Q :=
  match valid l with
  | [] => None
  | v => Some (Qred (Qsum v / inject_Z (Z.of_nat (List.length v))))%Q
  end.

(** Aggregations ['min'] and ['max'] of a timestamp column. *)
Definition ts_min (l : list (option Timestamp)) : option Timestamp :=
  match valid l with
  | [] => None
  | t :: r => Some (fold_left (fun m x => if Timestamp_leb x m then x else m) r t)
  end.

Definition ts_max (l : list (option Timestamp)) : option Timestamp :=
  match valid l with
  | [] => None
  | t :: r => Some (fold_left (fun m x => if Timestamp_leb m x then x else m) r t)
  end.

(** Aggregation ['nunique']. *)
Definition nunique (l : list (option string)) : Z :=
  Z.of_nat (List.length (drop_duplicates String.eqb (valid l))).

(* ================================================================== *)
(** ** The warehouse *)
(* ================================================================== *)

(** Modelled from the spec: the table declarations are not part of the
    sources.  Columns are those the statements of [load_dimensions] and
    [load_facts] name; [date_id] and [product_id] are the
    storage-generated surrogate keys, drawn from one sequence per table;
    [dim_dates] is unique on [full_date], [dim_customers] on
    [customer_id], [dim_products] on [stock_code].  The column
    [updated_at] of [dim_customers] holds wall-clock time and is left
    out. *)

(** A row of [dates_df]. *)
Record DateAttrs := mkDateAttrs {
  full_date : Date;
  d_year : Z;
  d_quarter : Z;
  d_month : Z;
  d_month_name : string;
  d_week : Z;
  d_day_of_month : Z;
  d_day_of_week : Z;
  d_day_name : string;
  d_is_weekend : bool
}.

Record DateRow := mkDateRow { date_id : Z; date_attrs : DateAttrs }.

(** A row of [customers_df] and of [dim_customers]. *)
Record CustomerRow := mkCustomerRow {
  customer_id : Z;
  country : option string;
  first_purchase_date : option Timestamp;
  last_purchase_date : option Timestamp;
  total_orders : Z;
  lifetime_value : Q
}.

(** A row of [products_df]. *)
Record ProductAttrs := mkProductAttrs {
  stock_code : string;
  description : option string;
  unit_price : option Q
}.

Record ProductRow := mkProductRow { product_id : Z; product_attrs : ProductAttrs }.

(** A tuple of [transactions] and a row of [fact_transactions]. *)
Record FactRow := mkFactRow {
  f_invoice_no : option string;
  f_customer_id : Z;
  f_product_id : Z;
  f_date_id : Z;
  f_invoice_date : option Timestamp;
  f_quantity : Z;
  f_unit_price : option Q
}.

Record Tables := mkTables {
  dim_dates : list DateRow;
  dim_customers : list CustomerRow;
  dim_products : list ProductRow;
  fact_transactions : list FactRow
}.

(** What becomes of one request: the server serves it, the server
    rejects it, or the connection is lost on the way.  After a rejection
    the server refuses the statements of the same transaction until a
    rollback: the script says so, outcome by outcome. *)
Inductive outcome := Done | Fails (msg : string) | Lost (msg : string).

(** A connection in the driver's default mode (no autocommit): the
    statements of the open transaction act on [working]; [committed] is
    what storage holds.  Sequences are not transactional.  [script] lists
    the outcomes of the coming requests, in order; past its end every
    request is served. *)
Record Connection := mkConnection {
  committed : Tables;
  working : Tables;
  seq_date_id : Z;
  seq_product_id : Z;
  script : list outcome;
  closed : bool
}.

Definition set_working (t : Tables) (c : Connection) : Connection :=
  mkConnection (committed c) t (seq_date_id c) (seq_product_id c) (script c) (closed c).

(** The coming outcomes and the state of the connection, tables apart. *)
Definition set_line (sc : list outcome) (b : bool) (c : Connection) : Connection :=
  mkConnection (committed c) (working c) (seq_date_id c) (seq_product_id c) sc b.

Definition set_script (sc : list outcome) (c : Connection) : Connection :=
  mkConnection (committed c) (working c) (seq_date_id c) (seq_product_id c) sc (closed c).

Module SQL.

(** [INSERT INTO dim_dates ... ON CONFLICT (full_date) DO NOTHING] *)
Definition insert_date (row : DateAttrs) (c : Connection) : Connection :=
  let t := working c in
  let t' :=
    if existsb (fun r => Date_eqb (full_date (date_attrs r)) (full_date row)) (dim_dates t)
    then t
    else mkTables (dim_dates t ++ [mkDateRow (seq_date_id c) row])
                  (dim_customers t) (dim_products t) (fact_transactions t) in
  mkConnection (committed c) t' (seq_date_id c + 1) (seq_product_id c)
               (script c) (closed c).

(** [INSERT INTO dim_customers ... ON CONFLICT (customer_id) DO UPDATE
    SET last_purchase_date, total_orders, lifetime_value] *)
Definition upsert_customer (row : CustomerRow) (c : Connection) : Connection :=
  let t := working c in
  let hit := fun r => customer_id r =? customer_id row in
  let customers :=
    if existsb hit (dim_customers t)
    then map (fun r =>
                if hit r
                then mkCustomerRow (customer_id r) (country r) (first_purchase_date r)
                       (last_purchase_date row) (total_orders row) (lifetime_value row)
                else r) (dim_customers t)
    else dim_customers t ++ [row] in
  set_working (mkTables (dim_dates t) customers (dim_products t) (fact_transactions t)) c.

(** [INSERT INTO dim_products ... ON CONFLICT (stock_code) DO UPDATE
    SET description, unit_price] *)
Definition upsert_product (row : ProductAttrs) (c : Connection) : Connection :=
  let t := working c in
  let hit := fun r => String.eqb (stock_code (product_attrs r)) (stock_code row) in
  let products :=
    if existsb hit (dim_products t)
    then map (fun r => if hit r then mkProductRow (product_id r) row else r)
             (dim_products t)
    else dim_products t ++ [mkProductRow (seq_product_id c) row] in
  mkConnection (committed c)
    (mkTables (dim_dates t) (dim_customers t) products (fact_transactions t))
    (seq_date_id c) (seq_product_id c + 1) (script c) (closed c).

(** One page of [INSERT INTO fact_transactions ...] statements. *)
Definition insert_facts (page : list FactRow) (c : Connection) : Connection :=
  let t := working c in
  set_working (mkTables (dim_dates t) (dim_customers t) (dim_products t)
                        (fact_transactions t ++ page)) c.

(** [SELECT customer_id FROM dim_customers WHERE customer_id = %s] *)
Definition select_customer (id : Z) (t : Tables) : option Z :=
  option_map customer_id (find (fun r => customer_id r =? id) (dim_customers t)).

(** [SELECT product_id FROM dim_products WHERE stock_code = %s] *)
Definition select_product (code : string) (t : Tables) : option Z :=
  option_map product_id
    (find (fun r => String.eqb (stock_code (product_attrs r)) code) (dim_products t)).

(** [SELECT date_id FROM dim_dates WHERE full_date = %s] *)
Definition select_date (d : Date) (t : Tables) : option Z :=
  option_map date_id
    (find (fun r => Date_eqb (full_date (date_attrs r)) d) (dim_dates t)).

(** Modelled from the spec: [total_amount] of a fact is the derived
    total quantity x unit price; the column is declared with the table. *)
Definition total_amount (f : FactRow) : option Q :=
  option_map (fun p => inject_Z (f_quantity f) * p)%Q (f_unit_price f).

End SQL.

(* ================================================================== *)
(** ** The pipeline object *)
(* ================================================================== *)

Inductive exn :=
| AttributeError                      (* attribute of [None], or attribute never set *)
| TypeError                           (* values that cannot be compared *)
| ValueError                          (* a conversion failed *)
| ZeroDivisionError
| FileError                           (* the source cannot be read as asked *)
| OperationalError (msg : string)     (* driver: storage reported a failure *)
| ProgrammingError                    (* driver: a parameter cannot be adapted *)
| UndefinedFunction                   (* driver: storage has no operator for a parameter's type *)
| InterfaceError.                     (* driver: the connection is closed *)

(** [str(e)] *)
Definition str (e : exn) : string :=
  match e with
  | AttributeError => "AttributeError"
  | TypeError => "TypeError"
  | ValueError => "ValueError"
  | ZeroDivisionError => "division by zero"
  | FileError => "FileError"
  | OperationalError msg => msg
  | ProgrammingError => "can't adapt"
  | UndefinedFunction => "operator does not exist"
  | InterfaceError => "connection already closed"
  end.

(** [self.stats] *)
Record Stats := mkStats {
  rows_extracted : nat;
  rows_after_cleaning : nat;
  customers_loaded : nat;
  products_loaded : nat;
  dates_loaded : nat;
  transactions_loaded : nat;
  errors : list string
}.

Inductive Stage :=
| Connect | Extract | Transform | LoadDimensions | LoadFacts
| RefreshAggregates | Validate.

(** How a stage ended: it returned a truthy value, a falsy one, or let an
    exception through. *)
Inductive Ending := Succeeded | Failed | Escaped.

(** The object [self].  [trace] is a ghost field: the stages that ran, in
    order, each with its ending (what the log file shows). *)
Record ETL := mkETL {
  engine : bool;
  conn : option Connection;
  df_raw : option (list RawRecord);
  df_clean : option (list CleanRecord);
  stats : Stats;
  trace : list (Stage * Ending)
}.

Definition set_conn (c : option Connection) (s : ETL) : ETL :=
  mkETL (engine s) c (df_raw s) (df_clean s) (stats s) (trace s).
Definition set_engine (b : bool) (s : ETL) : ETL :=
  mkETL b (conn s) (df_raw s) (df_clean s) (stats s) (trace s).
Definition set_df_raw (d : option (list RawRecord)) (s : ETL) : ETL :=
  mkETL (engine s) (conn s) d (df_clean s) (stats s) (trace s).
Definition set_df_clean (d : option (list CleanRecord)) (s : ETL) : ETL :=
  mkETL (engine s) (conn s) (df_raw s) d (stats s) (trace s).
Definition set_stats (st : Stats) (s : ETL) : ETL :=
  mkETL (engine s) (conn s) (df_raw s) (df_clean s) st (trace s).
Definition set_trace (tr : list (Stage * Ending)) (s : ETL) : ETL :=
  mkETL (engine s) (conn s) (df_raw s) (df_clean s) (stats s) tr.

Definition with_rows_extracted (n : nat) (st : Stats) : Stats :=
  mkStats n (rows_after_cleaning st) (customers_loaded st) (products_loaded st)
          (dates_loaded st) (transactions_loaded st) (errors st).
Definition with_rows_after_cleaning (n : nat) (st : Stats) : Stats :=
  mkStats (rows_extracted st) n (customers_loaded st) (products_loaded st)
          (dates_loaded st) (transactions_loaded st) (errors st).
Definition with_customers_loaded (n : nat) (st : Stats) : Stats :=
  mkStats (rows_extracted st) (rows_after_cleaning st) n (products_loaded st)
          (dates_loaded st) (transactions_loaded st) (errors st).
Definition with_products_loaded (n : nat) (st : Stats) : Stats :=
  mkStats (rows_extracted st) (rows_after_cleaning st) (customers_loaded st) n
          (dates_loaded st) (transactions_loaded st) (errors st).
Definition with_dates_loaded (n : nat) (st : Stats) : Stats :=
  mkStats (rows_extracted st) (rows_after_cleaning st) (customers_loaded st)
          (products_loaded st) n (transactions_loaded st) (errors st).
Definition with_transactions_loaded (n : nat) (st : Stats) : Stats :=
  mkStats (rows_extracted st) (rows_after_cleaning st) (customers_loaded st)
          (products_loaded st) (dates_loaded st) n (errors st).
Definition with_error (msg : string) (st : Stats) : Stats :=
  mkStats (rows_extracted st) (rows_after_cleaning st) (customers_loaded st)
          (products_loaded st) (dates_loaded st) (transactions_loaded st)
          (errors st ++ [msg]).

(** [__init__] *)
Definition init : ETL :=
  mkETL false None None None (mkStats 0 0 0 0 0 0 []) [].

(* ================================================================== *)
(** ** Methods as state transformers with exceptions *)
(* ================================================================== *)

Inductive res (A : Type) := Ret (a : A) | Raise (e : exn).
Arguments Ret {A} a.
Arguments Raise {A} e.

(** A method: from the object to a result and the object afterwards.
    What a method changed before it raised stays changed. *)
Definition M (A : Type) : Type := ETL -> res A * ETL.

Definition ret {A} (a : A) : M A := fun s => (Ret a, s).
Definition raise {A} (e : exn) : M A := fun s => (Raise e, s).

Definition bind {A B} (m : M A) (k : A -> M B) : M B :=
  fun s =>
    match m s with
    | (Ret a, s') => k a s'
    | (Raise e, s') => (Raise e, s')
    end.

(** [try: m except Exception as e: h e] *)
Definition try_except {A} (m : M A) (h : exn -> M A) : M A :=
  fun s =>
    match m s with
    | (Ret a, s') => (Ret a, s')
    | (Raise e, s') => h e s'
    end.

Definition update (f : ETL -> ETL) : M unit := fun s => (Ret tt, f s).
Definition read {A} (f : ETL -> A) : M A := fun s => (Ret (f s), s).

Declare Scope etl_scope.
Delimit Scope etl_scope with etl.
Notation "x <- m ;; k" := (bind m (fun x => k))
  (at level 61, m at next level, right associativity) : etl_scope.
Notation "m ;; k" := (bind m (fun _ => k))
  (at level 61, right associativity) : etl_scope.
Local Open Scope etl_scope.

(** [for x in l: body x] *)
Fixpoint for_each {A} (l : list A) (body : A -> M unit) : M unit :=
  match l with
  | [] => ret tt
  | x :: r => body x ;; for_each r body
  end.

(** Note a stage and its ending on the ghost trace. *)
Definition staged {A} (st : Stage) (truthy : A -> bool) (m : M A) : M A :=
  fun s =>
    match m s with
    | (Ret a, s') =>
        (Ret a, set_trace (trace s' ++ [(st, if truthy a then Succeeded else Failed)]) s')
    | (Raise e, s') => (Raise e, set_trace (trace s' ++ [(st, Escaped)]) s')
    end.

(** [self.stats['errors'].append(msg)] *)
Definition record_error (msg : string) : M unit :=
  update (fun s => set_stats (with_error msg (stats s)) s).

(** *** The driver *)

(** [self.conn.<attribute>]: the connection object, when there is one. *)
Definition the_conn : M Connection :=
  fun s =>
    match conn s with
    | None => (Raise AttributeError, s)
    | Some c => (Ret c, s)
    end.

(** [self.conn.cursor()] *)
Definition cursor : M unit :=
  c <- the_conn ;;
  if closed c then raise InterfaceError else ret tt.

(** One request to the server: it takes the next outcome of the script.
    The driver marks a connection it has lost as closed. *)
Definition request : M unit :=
  c <- the_conn ;;
  if closed c then raise InterfaceError
  else
    match script c with
    | [] => ret tt
    | Done :: sc => update (set_conn (Some (set_script sc c)))
    | Fails msg :: sc =>
        update (set_conn (Some (set_script sc c))) ;; raise (OperationalError msg)
    | Lost msg :: sc =>
        update (set_conn (Some (set_line sc true c))) ;; raise (OperationalError msg)
    end.

(** [cursor.execute(statement, params)] for a statement that writes. *)
Definition execute (stmt : Connection -> Connection) : M unit :=
  request ;;
  c <- the_conn ;;
  update (set_conn (Some (stmt c))).

(** [cursor.execute(query, params); cursor.fetchone()] *)
Definition fetch {A} (query : Tables -> A) : M A :=
  request ;;
  c <- the_conn ;;
  ret (query (working c)).

(** The transaction's changes become what storage holds. *)
Definition publish (c : Connection) : Connection :=
  mkConnection (working c) (working c) (seq_date_id c) (seq_product_id c)
               (script c) (closed c).

(** The transaction's changes are dropped. *)
Definition discard (c : Connection) : Connection := set_working (committed c) c.

(** [self.conn.commit()] *)
Definition commit : M unit := execute publish.

(** [self.conn.rollback()] *)
Definition rollback : M unit := execute discard.

(* ================================================================== *)
(** ** The world outside *)
(* ================================================================== *)

(** The database server as [connect] finds it. *)
Record Server := mkServer {
  srv_tables : Tables;
  srv_seq_date_id : Z;
  srv_seq_product_id : Z;
  srv_script : list outcome
}.

(** [server] is [None] when no connection can be made; [read_csv path]
    is [None] when the file cannot be read with the columns and dtypes
    [extract] asks for. *)
Record World := mkWorld {
  server : option Server;
  read_csv : string -> option (list RawRecord)
}.

(* ================================================================== *)
(** ** Cleaning (the body of [transform]) *)
(* ================================================================== *)

Definition notna {A} (x : option A) : bool :=
  match x with Some _ => true | None => false end.

(** [~df['InvoiceNo'].str.startswith('C', na=False)] *)
Definition not_cancelled (r : TypedRecord) : bool :=
  negb match t_InvoiceNo r with
       | Some s => PyStr.startswith s "C"
       | None => false
       end.

(** [(df['Quantity'] > 0) & (df['UnitPrice'] > 0)]; a comparison with
    NaN is false. *)
Definition positive (r : TypedRecord) : bool :=
  (t_Quantity r >? 0)
  && match t_UnitPrice r with Some p => Qpos_b p | None => false end.

(** [df['Quantity'] <= 10000] *)
Definition not_outlier (r : TypedRecord) : bool := t_Quantity r <=? 10000.

(** Step 5, feature engineering. *)
Definition engineer (r : TypedRecord) : CleanRecord :=
  let d := option_map ts_date (t_InvoiceDate r) in
  mkClean (t_InvoiceNo r) (t_StockCode r) (t_Description r) (t_Quantity r)
    (t_InvoiceDate r) (t_UnitPrice r) (t_CustomerID r) (t_Country r)
    (option_map (fun p => inject_Z (t_Quantity r) * p)%Q (t_UnitPrice r))
    (option_map year d) (option_map month d) (option_map day d)
    (option_map Calendar.dayofweek d)
    (option_map hour (t_InvoiceDate r)).

(** Step 6, text cleaning. *)
Definition clean_text (c : CleanRecord) : CleanRecord :=
  mkClean (InvoiceNo c) (StockCode c)
    (option_map (fun d => PyStr.upper (PyStr.strip d)) (Description c))
    (Quantity c) (InvoiceDate c) (UnitPrice c) (CustomerID c)
    (option_map PyStr.strip (Country c))
    (TotalAmount c) (Year c) (Month c) (Day c) (DayOfWeek c) (Hour c).

Section Pipeline.

(** [pd.to_datetime] on one cell; [None] when the text is no date and
    the call raises. *)
Variable to_datetime : string -> option Timestamp.

(** The integers of the dtype [astype(int)] converts to (64 bits). *)
Definition int64 (n : Z) : bool := (- 2 ^ 63 <=? n) && (n <? 2 ^ 63).

(** Step 3 on one row.  A missing date becomes NaT; a customer id that
    is missing, no integer or out of the 64 bits of the dtype makes
    [astype(int)] raise.  [pd.to_numeric] leaves the numeric columns as
    they are.  [None] is the exception raised. *)
Definition convert (r : RawRecord) : option TypedRecord :=
  match match raw_InvoiceDate r with
        | None => Some None
        | Some s => option_map Some (to_datetime s)
        end with
  | None => None
  | Some dt =>
      match raw_CustomerID r with
      | None => None
      | Some s =>
          match PyStr.int s with
          | None => None
          | Some id =>
              if int64 id
              then Some (mkTyped (raw_InvoiceNo r) (raw_StockCode r) (raw_Description r)
                           (raw_Quantity r) dt (raw_UnitPrice r) id (raw_Country r))
              else None
          end
      end
  end.

(** Step 3 on the frame: one failing cell fails the whole conversion. *)
Fixpoint convert_all (l : list RawRecord) : option (list TypedRecord) :=
  match l with
  | [] => Some []
  | r :: t =>
      match convert r, convert_all t with
      | Some x, Some y => Some (x :: y)
      | _, _ => None
      end
  end.

(** Steps 1 to 6 of [transform] on the frame. *)
Definition clean_frame (df_raw : list RawRecord) : option (list CleanRecord) :=
  (* 1. remove duplicates *)
  let df := drop_duplicates RawRecord_eqb df_raw in
  (* 2. missing values *)
  let df := filter (fun r => notna (raw_CustomerID r)) df in
  let df := filter (fun r => notna (raw_Description r)) df in
  (* 3. type conversions *)
  match convert_all df with
  | None => None
  | Some df =>
      (* 4. quality filters *)
      let df := filter not_cancelled df in
      let df := filter positive df in
      let df := filter not_outlier df in
      (* 5. feature engineering, 6. text cleaning *)
      Some (map clean_text (map engineer df))
  end.

(* ---------------------------------------------------------------- *)
(** *** Stages *)

Definition connect (w : World) : M bool :=
  staged Connect (fun b => b)
    (try_except
       (update (set_engine true) ;;
        match server w with
        | None => raise (OperationalError "could not connect to server")
        | Some srv =>
            update (set_conn (Some (mkConnection (srv_tables srv) (srv_tables srv)
                                      (srv_seq_date_id srv) (srv_seq_product_id srv)
                                      (srv_script srv) false))) ;;
            ret true
        end)
       (fun e => record_error ("Connection error: " ++ str e) ;; ret false)).

(** [df_raw['InvoiceDate'].min()] and [.max()] in the log lines of
    [extract]: the column holds text, a missing cell is a float, and the
    two cannot be compared.  A column without text, or without a missing
    cell, has a minimum. *)
Definition comparable (column : list (option string)) : bool :=
  negb (existsb notna column && existsb (fun x => negb (notna x)) column).

Definition extract (w : World) (filepath : string) : M bool :=
  staged Extract (fun b => b)
    (try_except
       (match read_csv w filepath with
        | None => raise FileError
        | Some df =>
            update (set_df_raw (Some df)) ;;
            update (fun s => set_stats (with_rows_extracted (List.length df) (stats s)) s) ;;
            (* the log line of the date range *)
            if comparable (map raw_InvoiceDate df) then ret true else raise TypeError
        end)
       (fun e => record_error ("Extraction error: " ++ str e) ;; ret false)).

Definition transform : M bool :=
  staged Transform (fun b => b)
    (try_except
       (raw <- read df_raw ;;
        match raw with
        | None => raise AttributeError
        | Some df0 =>
            let initial_rows := List.length df0 in
            match clean_frame df0 with
            | None => raise ValueError
            | Some df =>
                update (set_df_clean (Some df)) ;;
                update (fun s => set_stats (with_rows_after_cleaning (List.length df) (stats s)) s) ;;
                (* the closing log line computes len(df)/initial_rows *)
                if (initial_rows =? 0)%nat then raise ZeroDivisionError else ret true
            end
        end)
       (fun e => record_error ("Transformation error: " ++ str e) ;; ret false)).

(** [self.df_clean]; the attribute exists once [transform] has set it. *)
Definition the_df_clean : M (list CleanRecord) :=
  fun s =>
    match df_clean s with
    | None => (Raise AttributeError, s)
    | Some df => (Ret df, s)
    end.

(** [dates_df]: one row per distinct calendar date, in order of first
    appearance.  The row of a missing date is [None]. *)
Definition date_key (r : CleanRecord) : option Date :=
  option_map ts_date (InvoiceDate r).

Definition date_attrs_of (d : Date) : DateAttrs :=
  mkDateAttrs d (year d) (Calendar.quarter d) (month d) (Calendar.month_name d)
    (Calendar.isoweek d) (day d) (Calendar.dayofweek d) (Calendar.day_name d)
    (Calendar.is_weekend d).

Definition dates_df (clean : list CleanRecord) : list (option DateAttrs) :=
  map (option_map date_attrs_of)
      (drop_duplicates (option_eqb Date_eqb) (map date_key clean)).

(** [customers_df]: one row per customer id, ids increasing. *)
Definition customer_group (clean : list CleanRecord) (k : Z) : list CleanRecord :=
  filter (fun r => CustomerID r =? k) clean.

Definition customer_agg (clean : list CleanRecord) (k : Z) : CustomerRow :=
  let g := customer_group clean k in
  mkCustomerRow k
    (first_valid (map Country g))
    (ts_min (map InvoiceDate g)) (ts_max (map InvoiceDate g))
    (nunique (map InvoiceNo g))
    (Qsum (valid (map TotalAmount g))).

Definition customers_df (clean : list CleanRecord) : list CustomerRow :=
  map (customer_agg clean) (group_keys Z.eqb Z.leb (map CustomerID clean)).

(** [products_df]: one row per item code, codes increasing; rows
    without a code belong to no group. *)
Definition product_group (clean : list CleanRecord) (k : string) : list CleanRecord :=
  filter (fun r => option_eqb String.eqb (StockCode r) (Some k)) clean.

Definition product_agg (clean : list CleanRecord) (k : string) : ProductAttrs :=
  let g := product_group clean k in
  mkProductAttrs k (first_valid (map Description g)) (mean (map UnitPrice g)).

Definition products_df (clean : list CleanRecord) : list ProductAttrs :=
  map (product_agg clean) (group_keys String.eqb String.leb (valid (map StockCode clean))).

(** The row of a missing date carries missing calendar parts, which
    the driver cannot adapt: [execute] raises before anything is sent. *)
Definition execute_insert_date (row : option DateAttrs) : M unit :=
  match row with
  | None => raise ProgrammingError
  | Some a => execute (SQL.insert_date a)
  end.

Definition load_dimensions : M bool :=
  staged LoadDimensions (fun b => b)
    (try_except
       (cursor ;;
        clean <- the_df_clean ;;
        (* 1. dim_dates *)
        let dates := dates_df clean in
        for_each dates execute_insert_date ;;
        commit ;;
        update (fun s => set_stats (with_dates_loaded (List.length dates) (stats s)) s) ;;
        (* 2. dim_customers *)
        let customers := customers_df clean in
        for_each customers (fun row => execute (SQL.upsert_customer row)) ;;
        commit ;;
        update (fun s => set_stats (with_customers_loaded (List.length customers) (stats s)) s) ;;
        (* 3. dim_products *)
        let products := products_df clean in
        for_each products (fun row => execute (SQL.upsert_product row)) ;;
        commit ;;
        update (fun s => set_stats (with_products_loaded (List.length products) (stats s)) s) ;;
        ret true)
       (fun e =>
          rollback ;;
          record_error ("Dimension load error: " ++ str e) ;;
          ret false)).

(** The three lookups of one row and the tuple they give.  A missing
    item code is sent as a float that the server cannot compare with the
    key column: it rejects the query.  A missing date is a value the
    driver cannot adapt: it raises before it sends anything. *)
Definition resolve (row : CleanRecord) : M (option FactRow) :=
  customer_result <- fetch (SQL.select_customer (CustomerID row)) ;;
  product_result <-
    match StockCode row with
    | None => request ;; raise UndefinedFunction
    | Some code => fetch (SQL.select_product code)
    end ;;
  date_result <-
    match InvoiceDate row with
    | None => raise ProgrammingError
    | Some ts => fetch (SQL.select_date (ts_date ts))
    end ;;
  match customer_result, product_result, date_result with
  | Some c, Some p, Some d =>
      ret (Some (mkFactRow (InvoiceNo row) c p d (InvoiceDate row)
                   (Quantity row) (UnitPrice row)))
  | _, _, _ => ret None
  end.

(** The loop over [df_clean]; [transactions] is the list built so far. *)
Fixpoint resolve_all (rows : list CleanRecord) (transactions : list FactRow)
  : M (list FactRow) :=
  match rows with
  | [] => ret transactions
  | row :: r =>
      o <- resolve row ;;
      resolve_all r (match o with
                     | Some f => transactions ++ [f]
                     | None => transactions
                     end)
  end.

(** The driver's pagination: full pages, then what is left if any. *)
Fixpoint paginate {A} (page_size : nat) (page : list A) (l : list A) : list (list A) :=
  match l with
  | [] => match page with [] => [] | _ => [page] end
  | x :: r =>
      let page' := page ++ [x] in
      if (List.length page' =? page_size)%nat
      then page' :: paginate page_size [] r
      else paginate page_size page' r
  end.

(** [execute_batch(cursor, insert_query, argslist, page_size)]: the
    statements of a page go to the server in one request. *)
Definition execute_batch (argslist : list FactRow) (page_size : nat) : M unit :=
  for_each (paginate page_size [] argslist)
           (fun page => execute (SQL.insert_facts page)).

Definition load_facts : M bool :=
  staged LoadFacts (fun b => b)
    (try_except
       (cursor ;;
        clean <- the_df_clean ;;
        transactions <- resolve_all clean [] ;;
        execute_batch transactions 1000 ;;
        commit ;;
        update (fun s => set_stats (with_transactions_loaded (List.length transactions) (stats s)) s) ;;
        ret true)
       (fun e =>
          rollback ;;
          record_error ("Fact load error: " ++ str e) ;;
          ret false)).

(** The materialized view is not part of the model: the refresh is a
    request that changes no table. *)
Definition refresh_aggregates : M bool :=
  staged RefreshAggregates (fun b => b)
    (try_except
       (cursor ;;
        execute (fun c => c) ;;
        commit ;;
        ret true)
       (fun e => ret false)).

Record ValidationResults := mkValidationResults {
  transaction_count : nat;
  customer_count : nat;
  product_count : nat;
  negative_amounts : nat;
  total_revenue : option Q;
  date_range : option Timestamp * option Timestamp
}.

Definition is_negative (q : option Q) : bool :=
  match q with Some a => Qnum a <? 0 | None => false end.

Definition sum_amounts (l : list FactRow) : option Q :=
  match valid (map SQL.total_amount l) with
  | [] => None
  | v => Some (Qsum v)
  end.

(** The result mapping; the empty mapping is [None]. *)
Definition validate : M (option ValidationResults) :=
  staged Validate notna
    (try_except
       (cursor ;;
        n_tx <- fetch (fun t => List.length (fact_transactions t)) ;;
        n_cust <- fetch (fun t => List.length (dim_customers t)) ;;
        n_prod <- fetch (fun t => List.length (dim_products t)) ;;
        n_neg <- fetch (fun t => List.length
                          (filter (fun f => is_negative (SQL.total_amount f))
                                  (fact_transactions t))) ;;
        revenue <- fetch (fun t => sum_amounts (fact_transactions t)) ;;
        range <- fetch (fun t => (ts_min (map f_invoice_date (fact_transactions t)),
                                  ts_max (map f_invoice_date (fact_transactions t)))) ;;
        ret (Some (mkValidationResults n_tx n_cust n_prod n_neg revenue range)))
       (fun e => ret None)).

(** [close]: an open transaction ends with the connection. *)
Definition close (s : ETL) : ETL :=
  match conn s with
  | Some c =>
      set_conn (Some (mkConnection (committed c) (committed c) (seq_date_id c)
                        (seq_product_id c) (script c) true)) s
  | None => s
  end.

(** The body of [run] inside its [try]. *)
Definition run_body (w : World) (filepath : string) : M bool :=
  ok <- connect w ;;
  if negb ok then ret false else
  ok <- extract w filepath ;;
  if negb ok then ret false else
  ok <- transform ;;
  if negb ok then ret false else
  ok <- load_dimensions ;;
  if negb ok then ret false else
  ok <- load_facts ;;
  if negb ok then ret false else
  ok <- refresh_aggregates ;;
  if negb ok then ret false else
  validation_results <- validate ;;
  (* the success summary computes rows_after_cleaning/rows_extracted *)
  st <- read stats ;;
  if (rows_extracted st =? 0)%nat then raise ZeroDivisionError else ret true.

(** [run]: [try] the body, [except] anything gives [False], [finally]
    close. *)
Definition run (w : World) (filepath : string) (s : ETL) : bool * ETL :=
  match try_except (run_body w filepath) (fun _ => ret false) s with
  | (Ret b, s') => (b, close s')
  | (Raise _, s') => (false, close s')
  end.

End Pipeline.

(* ================================================================== *)
(** ** A reference date parser *)
(* ================================================================== *)

(** One of the layouts [pd.to_datetime] reads: [YYYY-MM-DD HH:MM:SS],
    within the bounds of its timestamps (64 bits of nanoseconds around
    1970).  The results below that run the pipeline on concrete rows use
    it for the parameter [to_datetime]. *)
Module Reference.

Fixpoint number (acc : Z) (s : string) : option Z :=
  match s with
  | EmptyString => Some acc
  | String c r =>
      match PyStr.digit_val c with
      | Some d => number (10 * acc + d) r
      | None => None
      end
  end.

Definition is_leap (y : Z) : bool :=
  ((y mod 4 =? 0) && negb (y mod 100 =? 0)) || (y mod 400 =? 0).

Definition days_in_month (y m : Z) : Z :=
  if m =? 2 then (if is_leap y then 29 else 28)
  else if (m =? 4) || (m =? 6) || (m =? 9) || (m =? 11) then 30
  else 31.

Definition field (s : string) (start len : nat) : option Z :=
  number 0 (substring start len s).

Definition is_char (s : string) (i : nat) (c : ascii) : bool :=
  match get i s with Some x => Ascii.eqb x c | None => false end.

(** From 1677-09-21 00:12:44 to 2262-04-11 23:47:16, the whole seconds
    between [Timestamp.min] and [Timestamp.max]. *)
Definition in_bounds (y m d h mi se : Z) : bool :=
  let k := ((((y * 100 + m) * 100 + d) * 100 + h) * 100 + mi) * 100 + se in
  (16770921001244 <=? k) && (k <=? 22620411234716).

Definition iso_datetime (s : string) : option Timestamp :=
  if ((String.length s =? 19)%nat
      && is_char s 4 "-" && is_char s 7 "-" && is_char s 10 " "
      && is_char s 13 ":" && is_char s 16 ":")%bool
  then
    match field s 0 4, field s 5 2, field s 8 2,
          field s 11 2, field s 14 2, field s 17 2 with
    | Some y, Some m, Some d, Some h, Some mi, Some se =>
        if in_bounds y m d h mi se
           && (1 <=? m) && (m <=? 12) && (1 <=? d) && (d <=? days_in_month y m)
           && (h <? 24) && (mi <? 60) && (se <? 60)
        then Some (mkTimestamp (mkDate y m d) h mi se)
        else None
    | _, _, _, _, _, _ => None
    end
  else None.

End Reference.

(* ================================================================== *)
(** ** Vocabulary of the properties *)
(* ================================================================== *)

(** The cleaning rules read on a source row. *)
Definition raw_not_cancelled (r : RawRecord) : bool :=
  negb match raw_InvoiceNo r with
       | Some s => PyStr.startswith s "C"
       | None => false
       end.

Definition raw_positive (r : RawRecord) : bool :=
  (raw_Quantity r >? 0)
  && match raw_UnitPrice r with Some p => Qpos_b p | None => false end.

Definition raw_not_outlier (r : RawRecord) : bool := raw_Quantity r <=? 10000.

(** A source row passes every filter. *)
Definition keeps (r : RawRecord) : bool :=
  notna (raw_CustomerID r) && notna (raw_Description r)
  && raw_not_cancelled r && raw_positive r && raw_not_outlier r.

(** The clean record of a source row: conversion, derived fields, text
    cleaning; nothing else changes. *)
Definition clean_row (to_datetime : string -> option Timestamp) (r : RawRecord)
  : option CleanRecord :=
  option_map (fun t => clean_text (engineer t)) (convert to_datetime r).

(** The clean record [c] holds the cells of the source row [r] and
    nothing else: invoice number, item code, quantity and unit price as
    they are, the customer id read as an integer, the date read as a
    timestamp, description and country tidied, and the derived fields
    computed from quantity, price and date. *)
Definition cleaned_from (to_datetime : string -> option Timestamp)
  (r : RawRecord) (c : CleanRecord) : Prop :=
  InvoiceNo c = raw_InvoiceNo r /\ StockCode c = raw_StockCode r /\
  Description c = option_map (fun d => PyStr.upper (PyStr.strip d)) (raw_Description r) /\
  Quantity c = raw_Quantity r /\
  InvoiceDate c = match raw_InvoiceDate r with
                  | Some t => to_datetime t
                  | None => None
                  end /\
  UnitPrice c = raw_UnitPrice r /\
  (exists sid, raw_CustomerID r = Some sid /\ PyStr.int sid = Some (CustomerID c)) /\
  Country c = option_map PyStr.strip (raw_Country r) /\
  TotalAmount c = option_map (fun p => inject_Z (raw_Quantity r) * p)%Q (raw_UnitPrice r) /\
  Year c = option_map (fun t => year (ts_date t)) (InvoiceDate c) /\
  Month c = option_map (fun t => month (ts_date t)) (InvoiceDate c) /\
  Day c = option_map (fun t => day (ts_date t)) (InvoiceDate c) /\
  DayOfWeek c = option_map (fun t => Calendar.dayofweek (ts_date t)) (InvoiceDate c) /\
  Hour c = option_map hour (InvoiceDate c).

(** What storage holds, and what the open transaction sees. *)
Definition committed_of (s : ETL) : option Tables := option_map committed (conn s).
Definition working_of (s : ETL) : option Tables := option_map working (conn s).

(** A method leaves a view of the object as it was, however it ends. *)
Definition leaves {X A} (view : ETL -> X) (m : M A) : Prop :=
  forall s r s', m s = (r, s') -> view s' = view s.

(** A method leaves a view as it was whenever it raises. *)
Definition leaves_if_raised {X A} (view : ETL -> X) (m : M A) : Prop :=
  forall s e s', m s = (Raise e, s') -> view s' = view s.

(** Every value a method returns satisfies [P]. *)
Definition returns_only {A} (P : A -> Prop) (m : M A) : Prop :=
  forall s a s', m s = (Ret a, s') -> P a.

(** The recorded error messages. *)
Definition errors_of (s : ETL) : list string := errors (stats s).

(** The ending [staged] notes for a result. *)
Definition ending_of {A} (truthy : A -> bool) (r : res A) : Ending :=
  match r with
  | Ret a => if truthy a then Succeeded else Failed
  | Raise _ => Escaped
  end.

(** The stages in the order [run] calls them. *)
Definition stage_order : list Stage :=
  [Connect; Extract; Transform; LoadDimensions; LoadFacts; RefreshAggregates; Validate].

(** The prefix under which a stage records its error, for the stages
    that record one. *)
Definition error_label (st : Stage) : option string :=
  match st with
  | Connect => Some "Connection error: "
  | Extract => Some "Extraction error: "
  | Transform => Some "Transformation error: "
  | LoadDimensions => Some "Dimension load error: "
  | LoadFacts => Some "Fact load error: "
  | RefreshAggregates | Validate => None
  end.

(** What a stage that returns a boolean does to the ghost trace and to
    the recorded errors: it notes its ending; when it returns [True] it
    records nothing; when it returns [False] and has an error label, it
    records one message under that label. *)
Definition stage_step (st : Stage) (s : ETL) (r : res bool) (s' : ETL) : Prop :=
  trace s' = trace s ++ [(st, ending_of (fun b => b) r)] /\
  match r with
  | Ret true => errors_of s' = errors_of s
  | Ret false =>
      forall label, error_label st = Some label ->
                    exists msg, errors_of s' = errors_of s ++ [(label ++ msg)%string]
  | Raise _ => True
  end.

(** The count of extracted rows. *)
Definition extracted (s : ETL) : nat := rows_extracted (stats s).

(** The boolean [run] gives for a result of its body. *)
Definition result_of (r : res bool) : bool :=
  match r with Ret b => b | Raise _ => false end.

(** The trace of stages that all succeeded. *)
Definition succeeded (done : list Stage) : list (Stage * Ending) :=
  map (fun st => (st, Succeeded)) done.

(** A run from [s] stopped at stage [st], which did not succeed: the
    stages before it succeeded, none ran after it, the result is
    failure, and a stage that returned [False] recorded its error under
    its label when it has one. *)
Definition stopped_at (s : ETL) (b : bool) (s' : ETL) : Prop :=
  exists done st e rest,
    trace s' = succeeded done ++ [(st, e)] /\
    done ++ st :: rest = stage_order /\
    st <> Validate /\ e <> Succeeded /\ b = false /\
    (e = Failed -> forall label, error_label st = Some label ->
                   exists msg, errors_of s' = errors_of s ++ [(label ++ msg)%string]).

(** A run from [s] reached validation: the six stages before it
    succeeded, validation returned (truthy or not), the result is
    success and no error was recorded. *)
Definition completed (s : ETL) (b : bool) (s' : ETL) : Prop :=
  exists e,
    trace s' = succeeded [Connect; Extract; Transform; LoadDimensions; LoadFacts;
                          RefreshAggregates] ++ [(Validate, e)] /\
    e <> Escaped /\ b = true /\ errors_of s' = errors_of s.

(** A statement that does not read the script. *)
Definition script_blind (f : Connection -> Connection) : Prop :=
  forall sc c, f (set_script sc c) = set_script sc (f c).

(** The three lookups of a record against tables [t] all find a row. *)
Definition all_found (t : Tables) (row : CleanRecord) : bool :=
  notna (SQL.select_customer (CustomerID row) t)
  && match StockCode row with
     | Some code => notna (SQL.select_product code t)
     | None => false
     end
  && match InvoiceDate row with
     | Some ts => notna (SQL.select_date (ts_date ts) t)
     | None => false
     end.

(** The fact a record gives against tables [t]: none when a lookup finds
    no row. *)
Definition resolved (t : Tables) (row : CleanRecord) : option FactRow :=
  match SQL.select_customer (CustomerID row) t,
        match StockCode row with
        | Some code => SQL.select_product code t
        | None => None
        end,
        match InvoiceDate row with
        | Some ts => SQL.select_date (ts_date ts) t
        | None => None
        end with
  | Some c, Some p, Some d =>
      Some (mkFactRow (InvoiceNo row) c p d (InvoiceDate row) (Quantity row) (UnitPrice row))
  | _, _, _ => None
  end.

(** The rows of [dim_dates] for a calendar date. *)
Definition rows_for_date (d : Date) (t : list DateRow) : list DateRow :=
  filter (fun r => Date_eqb (full_date (date_attrs r)) d) t.

(** Storage serves the next [n] requests made on a connection. *)
Definition is_done (o : outcome) : bool :=
  match o with Done => true | _ => false end.

Definition serves (n : nat) (c : Connection) : bool :=
  forallb is_done (firstn n (script c)).

(** [n] calls of a method one after the other, each of which returns
    [True]; nothing when one of them does not. *)
Fixpoint repeatedly (n : nat) (m : M bool) (s : ETL) : option ETL :=
  match n with
  | O => Some s
  | S n =>
      match m s with
      | (Ret true, s') => repeatedly n m s'
      | _ => None
      end
  end.

(** [dim_dates] holds at most one row per calendar date. *)
Definition unique_dates (t : list DateRow) : Prop :=
  forall d, (List.length (rows_for_date d t) <= 1)%nat.

(** The connection after the statements of a successful
    [load_dimensions]: the three loops, each followed by its commit.
    [attrs] are the rows of [dates_df]. *)
Definition loaded_dates (attrs : list DateAttrs) (c : Connection) : Connection :=
  publish (fold_left (fun c a => SQL.insert_date a c) attrs c).

Definition loaded_customers (clean : list CleanRecord) (c : Connection) : Connection :=
  publish (fold_left (fun c r => SQL.upsert_customer r c) (customers_df clean) c).

Definition loaded_products (clean : list CleanRecord) (c : Connection) : Connection :=
  publish (fold_left (fun c r => SQL.upsert_product r c) (products_df clean) c).

Definition loaded_dimensions (clean : list CleanRecord) (attrs : list DateAttrs)
  (c : Connection) : Connection :=
  loaded_products clean (loaded_customers clean (loaded_dates attrs c)).

(** Table [t] holds the product [a]: it has a row for the code of [a],
    and every row it has for that code carries exactly [a]. *)
Definition holds_product (a : ProductAttrs) (t : list ProductRow) : Prop :=
  (exists r, In r t /\ product_attrs r = a) /\
  forall r, In r t -> stock_code (product_attrs r) = stock_code a -> product_attrs r = a.

(** The last non-missing value of a column: the latest observed. *)
Definition last_valid {A} (l : list (option A)) : option A := first_valid (rev l).

(** Sample rows. *)
Module Sample.

Definition row_a : RawRecord :=
  mkRaw (Some "536365") (Some "85123A") (Some "white hanging heart t-light holder")
        3 (Some "2010-12-01 08:26:00") (Some (250 # 100)%Q) (Some "101")
        (Some "United Kingdom").

Definition row_c : RawRecord :=
  mkRaw (Some "536366") (Some "71053") (Some "white metal lantern")
        6 (Some "2010-12-01 08:28:00") (Some (339 # 100)%Q) None
        (Some "United Kingdom").

Definition row_d : RawRecord :=
  mkRaw (Some "C1001") (Some "22633") (Some "hand warmer union jack")
        1 (Some "2010-12-01 09:01:00") (Some (185 # 100)%Q) (Some "102")
        (Some "France").

(** A row whose description is one blank. *)
Definition row_blank : RawRecord :=
  mkRaw (Some "536367") (Some "84879") (Some " ")
        2 (Some "2010-12-01 08:34:00") (Some (169 # 100)%Q) (Some "103")
        (Some "United Kingdom").

Definition empty_tables : Tables := mkTables [] [] [] [].

(** A reachable server with an empty warehouse; [sc] scripts its answers. *)
Definition fresh_server (sc : list outcome) : Server := mkServer empty_tables 1 1 sc.

Definition world (sc : list outcome) (rows : list RawRecord) : World :=
  mkWorld (Some (fresh_server sc)) (fun _ => Some rows).

Definition path : string := "data/raw/ecommerce.csv".

(** A fresh object that holds [rows] as its raw frame. *)
Definition loaded (rows : list RawRecord) : ETL := set_df_raw (Some rows) init.

(** The four rows of the end-to-end scenario: a normal row, its exact
    duplicate, a row without customer id, a cancelled invoice. *)
Definition four_rows : list RawRecord := [row_a; row_a; row_c; row_d].

(** [n] rows of one customer, one product and one date that differ in
    their quantity only. *)
Definition bulk_row (q : Z) : RawRecord :=
  mkRaw (Some "536365") (Some "85123A") (Some "white hanging heart t-light holder")
        q (Some "2010-12-01 08:26:00") (Some (250 # 100)%Q) (Some "101")
        (Some "United Kingdom").

Definition bulk_rows (n : nat) : list RawRecord :=
  map (fun i => bulk_row (Z.of_nat i)) (seq 1 n).

(** Two rows of one product whose description changes. *)
Definition renamed_rows : list RawRecord :=
  [mkRaw (Some "536365") (Some "85123A") (Some "old name") 3
         (Some "2010-12-01 08:26:00") (Some (250 # 100)%Q) (Some "101")
         (Some "United Kingdom");
   mkRaw (Some "536400") (Some "85123A") (Some "new name") 1
         (Some "2010-12-02 10:00:00") (Some (350 # 100)%Q) (Some "102")
         (Some "France")].

(** The object when [load_dimensions] is about to run. *)
Definition before_dimension_load (sc : list outcome) (rows : list RawRecord) : ETL :=
  let s1 := snd (connect (world sc rows) init) in
  let s2 := snd (extract (world sc rows) path s1) in
  snd (transform Reference.iso_datetime s2).

(** The object after a run on the two rows of the renamed product. *)
Definition renamed_run : bool * ETL :=
  run Reference.iso_datetime (world [] renamed_rows) path init.

(** The object when [load_facts] is about to run: the four stages before
    it have run on [rows] against a fresh server scripted by [sc]. *)
Definition before_fact_load (sc : list outcome) (rows : list RawRecord) : ETL :=
  let s1 := snd (connect (world sc rows) init) in
  let s2 := snd (extract (world sc rows) path s1) in
  let s3 := snd (transform Reference.iso_datetime s2) in
  snd (load_dimensions s3).

(** A warehouse that knows customer 101 and the date of [row_a] but not
    its product, and an object that holds two clean records: the one of
    [row_a] (its product lookup fails) and one whose three lookups
    succeed. *)
Definition partial_tables : Tables :=
  mkTables [mkDateRow 1 (date_attrs_of (mkDate 2010 12 1))]
           [mkCustomerRow 101 (Some "United Kingdom") None None 0 (0 # 1)%Q]
           [mkProductRow 7 (mkProductAttrs "71053" (Some "WHITE METAL LANTERN") (Some (339 # 100)%Q))]
           [].

Definition partial_conn : Connection := mkConnection partial_tables partial_tables 2 8 [] false.

Definition unresolved_row : ETL :=
  mkETL true (Some partial_conn) None
        (clean_frame Reference.iso_datetime
           [row_a; mkRaw (Some "536366") (Some "71053") (Some "white metal lantern")
                         6 (Some "2010-12-01 08:28:00") (Some (339 # 100)%Q) (Some "101")
                         (Some "United Kingdom")])
        (mkStats 2 2 1 1 1 0 []) [].

(** A run on the four rows in which storage serves the thirteen requests
    of the loads and of the refresh, and fails the first query of
    [validate]. *)
Definition unreachable_at_validation : bool * ETL :=
  run Reference.iso_datetime
      (world (repeat Done 13 ++ [Fails "server closed the connection unexpectedly"])
             four_rows)
      path init.

(** The object when [validate] is about to run, after the six stages
    before it ran on the two rows of the renamed product (eighteen
    requests); storage then serves five queries of [validate] and fails
    the sixth. *)
Definition before_validation : ETL :=
  let sc := repeat Done 23 ++ [Fails "could not receive data from server"] in
  let s4 := before_fact_load sc renamed_rows in
  snd (refresh_aggregates (snd (load_facts s4))).

(** The whole run on the same rows and script. *)
Definition lost_during_validation : bool * ETL :=
  run Reference.iso_datetime
      (world (repeat Done 23 ++ [Fails "could not receive data from server"])
             renamed_rows)
      path init.

(** 1001 records make two pages; the script serves the six requests of
    the dimension load, the 3003 lookups and the first page, and fails
    the second page. *)
Definition two_pages : ETL :=
  before_fact_load (repeat Done 3010 ++ [Fails "connection lost"]) (bulk_rows 1001).

(** A row the cleaning keeps although its item code is missing, and the
    run on [row_a] followed by it: storage serves every request. *)
Definition row_no_code : RawRecord :=
  mkRaw (Some "536368") None (Some "manual") 1 (Some "2010-12-01 08:26:00")
        (Some (125 # 100)%Q) (Some "101") (Some "United Kingdom").

Definition no_code_run : bool * ETL :=
  run Reference.iso_datetime (world [] [row_a; row_no_code]) path init.

(** The clean frame of an object (empty when there is none) and the list
    a method returned (empty when it raised). *)
Definition frame_of (s : ETL) : list CleanRecord :=
  match df_clean s with Some df => df | None => [] end.

Definition returned {A} (r : res (list A)) : list A :=
  match r with Ret l => l | Raise _ => [] end.

(** The lookups of [load_facts] on [two_pages]. *)
Definition two_pages_looked_up : res (list FactRow) * ETL :=
  resolve_all (frame_of two_pages) [] two_pages.

Definition two_pages_transactions : list FactRow :=
  returned (fst two_pages_looked_up).

(** The first page, sent after the lookups. *)
Definition two_pages_first_sent : res unit * ETL :=
  execute (SQL.insert_facts (firstn 1000 two_pages_transactions)) (snd two_pages_looked_up).

(** One row, nine requests served, then a failure: the dimension load
    takes six requests, the lookups three, and the page fails. *)
Definition one_page_fails : ETL :=
  before_fact_load [Done; Done; Done; Done; Done; Done; Done; Done; Done;
                    Fails "connection lost"] [row_a].

End Sample.

(* ================================================================== *)
(** ** Further vocabulary and sample objects *)
(* ================================================================== *)

(** The fact of a clean record: it carries the record's invoice number,
    customer id, timestamp, quantity and unit price. *)
Definition fact_of (row : CleanRecord) (f : FactRow) : Prop :=
  f_invoice_no f = InvoiceNo row /\ f_customer_id f = CustomerID row /\
  f_invoice_date f = InvoiceDate row /\ f_quantity f = Quantity row /\
  f_unit_price f = UnitPrice row.

(** What a dimension load may never change of a stored row: a customer's
    id, country and first purchase date; a product's id and item code. *)
Definition customer_key (r : CustomerRow) : Z * option string * option Timestamp :=
  (customer_id r, country r, first_purchase_date r).

Definition product_key (r : ProductRow) : Z * string :=
  (product_id r, stock_code (product_attrs r)).

(** What the customer upsert overwrites. *)
Definition customer_measures (r : CustomerRow) : option Timestamp * Z * Q :=
  (last_purchase_date r, total_orders r, lifetime_value r).

(** [l2] is [l1] with rows appended. *)
Definition extends {A} (l1 l2 : list A) : Prop := exists added, l2 = l1 ++ added.

(** The plain sum of a column. *)
Definition Qtotal (l : list Q) : Q := fold_right Qplus (0 # 1)%Q l.

(** Two source rows agree on the cells that step 3 of [transform]
    converts and on the description. *)
Definition same_cells (a b : RawRecord) : Prop :=
  raw_InvoiceDate a = raw_InvoiceDate b /\ raw_CustomerID a = raw_CustomerID b /\
  raw_Description a = raw_Description b.

(** What using the connection of an object raises when there is none or
    it is closed. *)
Definition unusable (s : ETL) : option exn :=
  match conn s with
  | None => Some AttributeError
  | Some c => if closed c then Some InterfaceError else None
  end.

(** The seconds of a timestamp since the epoch, by which
    [Timestamp_leb] compares. *)
Definition ts_key (t : Timestamp) : Z :=
  Calendar.days_from_civil (ts_date t) * 86400 + hour t * 3600 + minute t * 60 + second t.

(** A text that [strip] and [upper] leave as it is. *)
Definition normal_text (d : string) : Prop := PyStr.strip d = d /\ PyStr.upper d = d.

(* ================================================================== *)
(** ** The stand-alone validator ([data_validation.py]) *)
(* ================================================================== *)

(** [DataValidator] opens a connection of its own and reads the tables
    [transactions], [customers] and [products].  Modelled from its
    queries: of a transaction, the columns [total_amount] and
    [transaction_date] (both may be NULL); of the two other tables only
    the number of rows is read.  The report is the list of printed
    lines, values in place of their formatted text. *)
Module Validation.

Record Transaction := mkTransaction {
  total_amount : option Q;
  transaction_date : option Date
}.

Record Database := mkDatabase {
  transactions : list Transaction;
  customers : nat;
  products : nat
}.

Inductive Line :=
| Rule                                  (* a line of sixty [=] *)
| Title                                 (* DATA VALIDATION REPORT *)
| TotalTransactions (n : nat)
| TotalCustomers (n : nat)
| TotalProducts (n : nat)
| NegativeAmounts (n : nat)
| DateRange (lo hi : option Date)
| TotalRevenue (q : Q).

Inductive error :=
| Driver (e : exn)      (* raised by the driver *)
| TypeError.            (* a format specification applied to [None] *)

(** The object [self]: the connection with its cursor, and the lines
    printed so far (ghost).  [script] is as for [Connection]. *)
Record DataValidator := mkDataValidator {
  db : Database;
  script : list outcome;
  closed : bool;
  printed : list Line
}.

Inductive result (A : Type) := Returns (a : A) | Raises (e : error).
Arguments Returns {A} a.
Arguments Raises {A} e.

Definition V (A : Type) : Type := DataValidator -> result A * DataValidator.

Definition vbind {A B} (m : V A) (k : A -> V B) : V B :=
  fun v =>
    match m v with
    | (Returns a, v') => k a v'
    | (Raises e, v') => (Raises e, v')
    end.

(** [print(...)] *)
Definition print (l : Line) : V unit :=
  fun v => (Returns tt, mkDataValidator (db v) (script v) (closed v) (printed v ++ [l])).

(** [self.cursor.execute(query); self.cursor.fetchone()]; the driver
    marks a connection it has lost as closed. *)
Definition query {A} (q : Database -> A) : V A :=
  fun v =>
    if closed v then (Raises (Driver InterfaceError), v)
    else
      match script v with
      | [] => (Returns (q (db v)), v)
      | Done :: sc =>
          (Returns (q (db v)), mkDataValidator (db v) sc (closed v) (printed v))
      | Fails msg :: sc =>
          (Raises (Driver (OperationalError msg)),
           mkDataValidator (db v) sc (closed v) (printed v))
      | Lost msg :: sc =>
          (Raises (Driver (OperationalError msg)),
           mkDataValidator (db v) sc true (printed v))
      end.

(** [self.conn.close()] *)
Definition close_connection : V unit :=
  fun v => (Returns tt, mkDataValidator (db v) (script v) true (printed v)).

Definition Date_leb (a b : Date) : bool :=
  Calendar.days_from_civil a <=? Calendar.days_from_civil b.

(** [MIN] and [MAX] of a column: NULL when it has no value. *)
Definition date_min (l : list (option Date)) : option Date :=
  match valid l with
  | [] => None
  | d :: r => Some (fold_left (fun m x => if Date_leb x m then x else m) r d)
  end.

Definition date_max (l : list (option Date)) : option Date :=
  match valid l with
  | [] => None
  | d :: r => Some (fold_left (fun m x => if Date_leb m x then x else m) r d)
  end.

(** [SUM(total_amount)]: NULL when the column has no value. *)
Definition revenue (d : Database) : option Q :=
  match valid (map total_amount (transactions d)) with
  | [] => None
  | v => Some (Qsum v)
  end.

(** The count of the rows [WHERE total_amount < 0]. *)
Definition negative (d : Database) : nat :=
  List.length (filter (fun t => is_negative (total_amount t)) (transactions d)).

(** [__init__]: the connection's server, with the answers it will give;
    [None] when no connection can be made. *)
Definition init (server : option (Database * list outcome)) : result DataValidator :=
  match server with
  | None => Raises (Driver (OperationalError "could not connect to server"))
  | Some (d, sc) => Returns (mkDataValidator d sc false [])
  end.

(** [f"${total_revenue:,.2f}"]: the format of a number; [None] has none. *)
Definition format_revenue (r : option Q) : V Q :=
  fun v =>
    match r with
    | Some q => (Returns q, v)
    | None => (Raises TypeError, v)
    end.

Definition validate_all : V unit :=
  vbind (print Rule) (fun _ =>
  vbind (print Title) (fun _ =>
  vbind (print Rule) (fun _ =>
  (* record counts *)
  vbind (query (fun d => List.length (transactions d))) (fun tx_count =>
  vbind (print (TotalTransactions tx_count)) (fun _ =>
  vbind (query customers) (fun cust_count =>
  vbind (print (TotalCustomers cust_count)) (fun _ =>
  vbind (query products) (fun prod_count =>
  vbind (print (TotalProducts prod_count)) (fun _ =>
  (* data quality *)
  vbind (query negative) (fun neg =>
  vbind (print (NegativeAmounts neg)) (fun _ =>
  (* date range *)
  vbind (query (fun d => (date_min (map transaction_date (transactions d)),
                          date_max (map transaction_date (transactions d)))))
        (fun range =>
  vbind (print (DateRange (fst range) (snd range))) (fun _ =>
  (* revenue summary *)
  vbind (query revenue) (fun total_revenue =>
  vbind (format_revenue total_revenue) (fun text =>
  vbind (print (TotalRevenue text)) (fun _ =>
  vbind (print Rule) (fun _ =>
  close_connection))))))))))))))))).

(** The lines of a complete report on database [d]. *)
Definition report (d : Database) (q : Q) : list Line :=
  [Rule; Title; Rule;
   TotalTransactions (List.length (transactions d));
   TotalCustomers (customers d);
   TotalProducts (products d);
   NegativeAmounts (negative d);
   DateRange (date_min (map transaction_date (transactions d)))
             (date_max (map transaction_date (transactions d)));
   TotalRevenue q;
   Rule].

(** A database with two transactions, and one without any. *)
Definition two_sales : Database :=
  mkDatabase [mkTransaction (Some (75 # 10)%Q) (Some (mkDate 2010 12 1));
              mkTransaction (Some (2034 # 100)%Q) (Some (mkDate 2010 12 2))]
             1 2.

Definition no_sales : Database := mkDatabase [] 0 0.

End Validation.

Module Cases.

(** The run on the four rows of the end-to-end scenario. *)
Definition four_row_run : bool * ETL :=
  run Reference.iso_datetime (Sample.world [] Sample.four_rows) Sample.path init.

(** The dimension load of the batch of [Sample.unresolved_row] into the
    warehouse of [Sample.partial_conn], which knows customer 101, one
    date and the product "71053". *)
Definition partial_load : res bool * ETL := load_dimensions Sample.unresolved_row.

(** A cancelled invoice whose date is no date. *)
Definition row_bad_date : RawRecord :=
  mkRaw (Some "C1002") (Some "22633") (Some "hand warmer union jack")
        1 (Some "yesterday") (Some (185 # 100)%Q) (Some "102") (Some "France").

(** An object that has extracted an empty file. *)
Definition extracted_nothing : ETL :=
  snd (extract (Sample.world [] []) Sample.path init).

(** A world whose server cannot be reached. *)
Definition no_server : World := mkWorld None (fun _ => Some Sample.four_rows).

(** A world whose input file cannot be read. *)
Definition no_file : World := mkWorld (Some (Sample.fresh_server [])) (fun _ => None).

(** The object of the four-row scenario when [load_facts] is about to
    run, on a server that serves every request. *)
Definition ready_for_facts : ETL := Sample.before_fact_load [] Sample.four_rows.

(** The four-row scenario when [refresh_aggregates] is about to run, on
    a server that serves the eleven requests of the loads and fails the
    refresh statement. *)
Definition before_failing_refresh : ETL :=
  snd (load_facts
         (Sample.before_fact_load
            (repeat Done 11 ++ [Fails "materialized view does not exist"])
            Sample.four_rows)).

(** The four-row scenario when [load_dimensions] is about to run, on a
    server that serves the insert of the one date and its commit, and
    fails the first customer upsert. *)
Definition before_failing_customers : ETL :=
  Sample.before_dimension_load [Done; Done; Fails "disk full"] Sample.four_rows.

End Cases.

(* ================================================================== *)
(** * Properties *)
(* ================================================================== *)

(** ** Lists as frames *)

Unset Implicit Arguments.

Section FrameFacts.
Context {A : Type}.

Lemma subframe_refl (l : list A) : subframe l l.
Proof. induction l; constructor; assumption. Qed.

Lemma subframe_trans (l1 l2 l3 : list A) :
  subframe l1 l2 -> subframe l2 l3 -> subframe l1 l3.
Proof.
  intros H12 H23. revert l1 H12.
  induction H23 as [|x l2 l3 H IH|x l2 l3 H IH]; intros l1 H12.
  - assumption.
  - inversion H12; subst.
    + apply sub_keep. now apply IH.
    + apply sub_drop. now apply IH.
  - apply sub_drop. now apply IH.
Qed.

Lemma subframe_In (l1 l2 : list A) x : subframe l1 l2 -> In x l1 -> In x l2.
Proof.
  induction 1 as [|y l1 l2 H IH|y l1 l2 H IH]; simpl; intros Hin.
  - assumption.
  - destruct Hin as [->|Hin]; [now left | right; now apply IH].
  - right. now apply IH.
Qed.

Lemma subframe_length (l1 l2 : list A) :
  subframe l1 l2 -> (List.length l1 <= List.length l2)%nat.
Proof. induction 1; simpl; lia. Qed.

Lemma subframe_filter (f : A -> bool) l : subframe (filter f l) l.
Proof.
  induction l as [|x l IH]; simpl; [constructor|].
  destruct (f x); constructor; assumption.
Qed.

Lemma filter_short (f : A -> bool) l :
  (List.length (filter f l) <= List.length l)%nat.
Proof. apply subframe_length, subframe_filter. Qed.

(** A filter keeps the length exactly when it keeps every row. *)
Lemma filter_keeps_all (f : A -> bool) l :
  List.length (filter f l) = List.length l <-> Forall (fun x => f x = true) l.
Proof.
  induction l as [|x l IH]; simpl.
  - split; intros; constructor.
  - destruct (f x) eqn:E; simpl.
    + split.
      * intros H. constructor; [assumption|]. apply IH. lia.
      * intros H. inversion H; subst. f_equal. now apply IH.
    + split.
      * intros H. pose proof (filter_short f l). lia.
      * intros H. inversion H; subst. congruence.
Qed.

Lemma filter_all (f : A -> bool) l :
  Forall (fun x => f x = true) l -> filter f l = l.
Proof.
  induction 1 as [|x l Hx H IH]; simpl; [reflexivity|].
  rewrite Hx. now f_equal.
Qed.

Lemma filter_twice (f g : A -> bool) l :
  filter g (filter f l) = filter (fun x => f x && g x) l.
Proof.
  induction l as [|x l IH]; simpl; [reflexivity|].
  destruct (f x); simpl; [destruct (g x)|]; now rewrite IH.
Qed.

Lemma Forall_filter (f : A -> bool) l : Forall (fun x => f x = true) (filter f l).
Proof.
  induction l as [|x l IH]; simpl; [constructor|].
  destruct (f x) eqn:E; [constructor|]; assumption.
Qed.

Variable eqb : A -> A -> bool.

Lemma subframe_keep_first seen l : subframe (keep_first eqb seen l) l.
Proof.
  revert seen. induction l as [|x l IH]; intros seen; simpl; [constructor|].
  destruct (existsb (eqb x) seen); constructor; apply IH.
Qed.

Lemma existsb_none (f : A -> bool) l :
  existsb f l = false <-> Forall (fun a => f a = false) l.
Proof.
  induction l as [|a l IH]; simpl.
  - split; intros; [constructor | reflexivity].
  - rewrite orb_false_iff, IH. split.
    + intros [H1 H2]. now constructor.
    + intros H. now inversion H.
Qed.

Lemma keep_first_keeps_all seen l :
  List.length (keep_first eqb seen l) = List.length l <->
  Forall (fun x => Forall (fun a => eqb x a = false) seen) l /\ duplicate_free eqb l.
Proof.
  unfold duplicate_free.
  revert seen. induction l as [|x l IH]; intros seen; simpl.
  - split; intros; [split; constructor | reflexivity].
  - destruct (existsb (eqb x) seen) eqn:E.
    + split.
      * intros H.
        pose proof (subframe_length _ _ (subframe_keep_first (x :: seen) l)). lia.
      * intros [H _]. inversion H as [|? ? Hx _]; subst.
        apply existsb_none in Hx. congruence.
    + apply existsb_none in E. simpl. split.
      * intros H. injection H as H. apply IH in H. destruct H as [Hs Hd].
        split.
        -- constructor; [assumption|].
           eapply Forall_impl; [|exact Hs].
           intros y Hy. now inversion Hy.
        -- constructor; [|assumption].
           eapply Forall_impl; [|exact Hs].
           intros y Hy. now inversion Hy.
      * intros [Hs Hd]. f_equal. apply IH.
        inversion Hs as [|? ? Hx Hl]; subst.
        inversion Hd as [|? ? Hxl Hd']; subst.
        split; [|assumption].
        apply Forall_forall. intros y Hy. constructor.
        -- rewrite Forall_forall in Hxl. now apply Hxl.
        -- rewrite Forall_forall in Hl. now apply Hl.
Qed.

Lemma drop_duplicates_keeps_all l :
  List.length (drop_duplicates eqb l) = List.length l <-> duplicate_free eqb l.
Proof.
  unfold drop_duplicates. rewrite keep_first_keeps_all. split.
  - now intros [_ H].
  - intros H. split; [|assumption].
    apply Forall_forall. intros; constructor.
Qed.

Lemma keep_first_all seen l :
  List.length (keep_first eqb seen l) = List.length l -> keep_first eqb seen l = l.
Proof.
  revert seen. induction l as [|x l IH]; intros seen; simpl; [reflexivity|].
  destruct (existsb (eqb x) seen).
  - intros H.
    pose proof (subframe_length _ _ (subframe_keep_first (x :: seen) l)). lia.
  - simpl. intros H. f_equal. apply IH. lia.
Qed.

End FrameFacts.

Lemma Forall2_filter {A B} (R : A -> B -> Prop) (f : A -> bool) (g : B -> bool) l1 l2 :
  (forall a b, R a b -> f a = g b) ->
  Forall2 R l1 l2 -> Forall2 R (filter f l1) (filter g l2).
Proof.
  intros Hfg. induction 1 as [|a b l1 l2 Hab H IH]; simpl; [constructor|].
  rewrite (Hfg a b Hab). destruct (g b); [constructor|]; assumption.
Qed.

Lemma Forall2_map_r {A B C} (R : A -> B -> Prop) (h : B -> C) l1 l2 :
  Forall2 R l1 l2 -> Forall2 (fun a c => exists b, R a b /\ c = h b) l1 (map h l2).
Proof.
  induction 1; simpl; constructor; eauto.
Qed.

Lemma Forall2_same_length {A B} (R : A -> B -> Prop) l1 l2 :
  Forall2 R l1 l2 -> List.length l1 = List.length l2.
Proof. induction 1; simpl; congruence. Qed.

Lemma Qpos_b_spec (q : Q) : Qpos_b q = true <-> (0 < q)%Q.
Proof.
  unfold Qpos_b, Qlt. simpl. rewrite Z.ltb_lt. lia.
Qed.

Lemma Forall2_In_r {A B} (R : A -> B -> Prop) l1 l2 b :
  Forall2 R l1 l2 -> In b l2 -> exists a, In a l1 /\ R a b.
Proof.
  induction 1 as [|x y l1 l2 Hxy H IH]; simpl; intros Hin; [contradiction|].
  destruct Hin as [<-|Hin].
  - exists x. auto.
  - destruct (IH Hin) as [a [Ha HR]]. exists a. auto.
Qed.

(* ================================================================== *)
(** ** Cleaning *)
(* ================================================================== *)

Section CleaningFacts.
Variable to_datetime : string -> option Timestamp.

Lemma convert_all_rows l tl :
  convert_all to_datetime l = Some tl ->
  Forall2 (fun r t => convert to_datetime r = Some t) l tl.
Proof.
  revert tl. induction l as [|r l IH]; simpl; intros tl H.
  - injection H as <-. constructor.
  - destruct (convert to_datetime r) as [t|] eqn:Er; [|discriminate].
    destruct (convert_all to_datetime l) as [tl'|]; [|discriminate].
    injection H as <-. constructor; auto.
Qed.

(** What [convert] leaves as it is. *)
Lemma convert_fields r t :
  convert to_datetime r = Some t ->
  t_InvoiceNo t = raw_InvoiceNo r /\ t_StockCode t = raw_StockCode r /\
  t_Description t = raw_Description r /\ t_Quantity t = raw_Quantity r /\
  t_UnitPrice t = raw_UnitPrice r /\ t_Country t = raw_Country r /\
  exists sid, raw_CustomerID r = Some sid /\ PyStr.int sid = Some (t_CustomerID t).
Proof.
  unfold convert.
  destruct (match raw_InvoiceDate r with
            | Some s => option_map Some (to_datetime s)
            | None => Some None
            end) as [dt|]; [|discriminate].
  destruct (raw_CustomerID r) as [sid|]; [|discriminate].
  destruct (PyStr.int sid) as [id|] eqn:E; [|discriminate].
  destruct (int64 id); [|discriminate].
  intros H. injection H as <-. simpl. repeat split; eauto.
Qed.

Lemma convert_filters r t :
  convert to_datetime r = Some t ->
  not_cancelled t = raw_not_cancelled r /\ positive t = raw_positive r /\
  not_outlier t = raw_not_outlier r.
Proof.
  intros H. apply convert_fields in H.
  destruct H as (H1 & _ & _ & H4 & H5 & _).
  unfold not_cancelled, raw_not_cancelled, positive, raw_positive,
    not_outlier, raw_not_outlier.
  now rewrite H1, H4, H5.
Qed.

(** The clean frame is, row by row, the image of the source rows that
    pass every filter, duplicates removed. *)
Lemma clean_frame_rows raw clean :
  clean_frame to_datetime raw = Some clean ->
  Forall2 (fun r c => clean_row to_datetime r = Some c)
          (filter keeps (drop_duplicates RawRecord_eqb raw)) clean.
Proof.
  unfold clean_frame.
  set (dd := drop_duplicates RawRecord_eqb raw).
  destruct (convert_all to_datetime _) as [tl|] eqn:E; [|discriminate].
  intros H. injection H as <-.
  apply convert_all_rows in E.
  assert (F : Forall2 (fun r t => convert to_datetime r = Some t)
                (filter keeps dd)
                (filter not_outlier (filter positive (filter not_cancelled tl)))).
  { replace (filter keeps dd) with
      (filter raw_not_outlier (filter raw_positive (filter raw_not_cancelled
         (filter (fun r => notna (raw_Description r))
            (filter (fun r => notna (raw_CustomerID r)) dd))))).
    - repeat (apply Forall2_filter;
              [intros a b Hab; symmetry; now apply convert_filters in Hab|]).
      exact E.
    - rewrite !filter_twice. apply filter_ext. intros x. unfold keeps.
      now rewrite !andb_assoc. }
  rewrite map_map.
  clear E. induction F as [|r t l1 l2 Hrt F IH]; simpl; constructor; auto.
  unfold clean_row. now rewrite Hrt.
Qed.

Lemma clean_frame_length raw clean :
  clean_frame to_datetime raw = Some clean ->
  List.length clean = List.length (filter keeps (drop_duplicates RawRecord_eqb raw)).
Proof.
  intros H. symmetry. eapply Forall2_same_length, clean_frame_rows, H.
Qed.

(** What a successful [transform] does to the object. *)
Lemma transform_ok s s' :
  transform to_datetime s = (Ret true, s') ->
  exists raw clean,
    df_raw s = Some raw /\ raw <> [] /\
    clean_frame to_datetime raw = Some clean /\
    s' = set_trace (trace s ++ [(Transform, Succeeded)])
           (set_stats (with_rows_after_cleaning (List.length clean) (stats s))
              (set_df_clean (Some clean) s)).
Proof.
  unfold transform, staged, try_except, bind, read, update, ret, raise, record_error.
  destruct (df_raw s) as [raw|] eqn:Eraw; simpl; [|intros H; discriminate].
  destruct (clean_frame to_datetime raw) as [clean|] eqn:Ec; simpl;
    [|intros H; discriminate].
  destruct raw as [|r raw]; simpl; [intros H; discriminate|].
  intros H. injection H as <-.
  exists (r :: raw), clean. repeat split; try assumption. discriminate.
Qed.

Lemma clean_row_fields r c :
  clean_row to_datetime r = Some c ->
  InvoiceNo c = raw_InvoiceNo r /\ StockCode c = raw_StockCode r /\
  Quantity c = raw_Quantity r /\ UnitPrice c = raw_UnitPrice r /\
  Description c = option_map (fun d => PyStr.upper (PyStr.strip d)) (raw_Description r) /\
  exists sid, raw_CustomerID r = Some sid /\ PyStr.int sid = Some (CustomerID c).
Proof.
  unfold clean_row.
  destruct (convert to_datetime r) as [t|] eqn:E; [|discriminate].
  intros H. injection H as <-.
  apply convert_fields in E.
  destruct E as (H1 & H2 & H3 & H4 & H5 & _ & H7).
  simpl. rewrite H1, H2, H3, H4, H5. repeat split; auto.
Qed.

Lemma clean_row_cleaned r c :
  clean_row to_datetime r = Some c -> cleaned_from to_datetime r c.
Proof.
  unfold clean_row, convert, cleaned_from.
  destruct (raw_InvoiceDate r) as [t|].
  - destruct (to_datetime t) as [ts|]; [|discriminate]. simpl.
    destruct (raw_CustomerID r) as [sid|]; [|discriminate].
    destruct (PyStr.int sid) as [id|] eqn:E; [|discriminate].
    destruct (int64 id); [|discriminate].
    intros H. injection H as <-. simpl.
    repeat split; eauto; destruct (raw_UnitPrice r); reflexivity.
  - destruct (raw_CustomerID r) as [sid|]; [|discriminate].
    destruct (PyStr.int sid) as [id|] eqn:E; [|discriminate].
    destruct (int64 id); [|discriminate].
    intros H. injection H as <-. simpl.
    repeat split; eauto; destruct (raw_UnitPrice r); reflexivity.
Qed.

(** What a successful [extract] has done. *)
Lemma extract_true w filepath s s' :
  extract w filepath s = (Ret true, s') ->
  exists raw,
    read_csv w filepath = Some raw /\
    comparable (map raw_InvoiceDate raw) = true /\
    s' = set_trace (trace s ++ [(Extract, Succeeded)])
           (set_stats (with_rows_extracted (List.length raw) (stats s))
              (set_df_raw (Some raw) s)).
Proof.
  unfold extract, staged, try_except, bind, update, ret, raise, record_error.
  destruct (read_csv w filepath) as [raw|]; [|discriminate].
  destruct (comparable (map raw_InvoiceDate raw)) eqn:Ec; simpl; intros H;
    [|discriminate H].
  injection H as <-. exists raw. repeat split. exact Ec.
Qed.

(** C1 (as amended).  Every record in the output of [transform] is the
    clean record of a source row that passes all filters at once: its
    customer id is present and an integer, its description is present
    (not missing; the text itself can be empty), its invoice id does not
    start with ['C'], its quantity is above 0 and at most 10000, and its
    unit price is above 0.  The output is made, in order, from a
    sub-sequence of the source rows all of which pass every filter, with
    quantity, price and invoice id as in the source: a row that violates
    a filter gives no record, and none is repaired. *)
Theorem transform_output_passes_all_filters :
  forall s s' raw,
    df_raw s = Some raw ->
    transform to_datetime s = (Ret true, s') ->
    exists clean,
      df_clean s' = Some clean /\
      (forall c, In c clean ->
         (exists sid, exists r, In r raw /\ clean_row to_datetime r = Some c /\
                      raw_CustomerID r = Some sid /\ PyStr.int sid = Some (CustomerID c)) /\
         (exists d, Description c = Some d) /\
         (forall no, InvoiceNo c = Some no -> PyStr.startswith no "C" = false) /\
         0 < Quantity c <= 10000 /\
         (exists p, UnitPrice c = Some p /\ (0 < p)%Q)) /\
      (exists src,
         subframe src raw /\
         Forall (fun r => keeps r = true) src /\
         Forall2 (fun r c => clean_row to_datetime r = Some c /\
                             Quantity c = raw_Quantity r /\
                             UnitPrice c = raw_UnitPrice r /\
                             InvoiceNo c = raw_InvoiceNo r) src clean).
Proof.
  intros s s' raw Hraw Ht.
  apply transform_ok in Ht.
  destruct Ht as (raw' & clean & Hraw' & _ & Hc & ->).
  rewrite Hraw in Hraw'. injection Hraw' as <-.
  exists clean. split; [reflexivity|].
  pose proof (clean_frame_rows _ _ Hc) as F.
  set (src := filter keeps (drop_duplicates RawRecord_eqb raw)) in *.
  assert (Hsub : subframe src raw).
  { eapply subframe_trans; [apply subframe_filter|].
    apply subframe_keep_first. }
  assert (Hkeep : Forall (fun r => keeps r = true) src) by apply Forall_filter.
  split.
  - intros c Hin.
    destruct (Forall2_In_r _ _ _ _ F Hin) as (r & Hr & Hrc).
    pose proof (clean_row_fields _ _ Hrc) as (Hno & _ & Hq & Hp & Hd & sid & Hsid & Hint).
    rewrite Forall_forall in Hkeep. specialize (Hkeep r Hr).
    unfold keeps in Hkeep.
    repeat rewrite andb_true_iff in Hkeep.
    destruct Hkeep as ((((Kc & Kd) & Kn) & Kp) & Ko).
    split; [|split; [|split; [|split]]].
    + exists sid, r. repeat split; auto. eapply subframe_In; eauto.
    + rewrite Hd. destruct (raw_Description r); [simpl; eauto | discriminate].
    + intros no Hc'. rewrite Hno in Hc'. unfold raw_not_cancelled in Kn.
      rewrite Hc' in Kn. now apply negb_true_iff in Kn.
    + rewrite Hq. unfold raw_positive in Kp. apply andb_true_iff in Kp.
      destruct Kp as [Kq _]. unfold raw_not_outlier in Ko. lia.
    + rewrite Hp. unfold raw_positive in Kp. apply andb_true_iff in Kp.
      destruct Kp as [_ Kp]. destruct (raw_UnitPrice r) as [p|]; [|discriminate].
      exists p. split; [reflexivity|]. now apply Qpos_b_spec.
  - exists src. repeat split; try assumption.
    eapply Forall2_impl; [|exact F].
    intros r c Hrc. pose proof (clean_row_fields _ _ Hrc) as (Hno & _ & Hq & Hp & _).
    auto.
Qed.

(** C6.  After [extract] and [transform] succeed, the count of rows after
    cleaning is at most the count of rows extracted; the two are equal
    exactly when every source row passes every filter and no source row
    repeats an earlier one; and the clean records come, in order and one
    for one, from a sub-sequence of the rows read from the file, each of
    which passes every filter: every cell of a clean record is the cell
    of its source row, converted or tidied, or is derived from such
    cells, so that no row is invented. *)
Theorem retention_is_monotone :
  forall w filepath s0 s1 s2,
    extract w filepath s0 = (Ret true, s1) ->
    transform to_datetime s1 = (Ret true, s2) ->
    exists raw clean,
      read_csv w filepath = Some raw /\
      df_clean s2 = Some clean /\
      rows_extracted (stats s2) = List.length raw /\
      rows_after_cleaning (stats s2) = List.length clean /\
      (rows_after_cleaning (stats s2) <= rows_extracted (stats s2))%nat /\
      (rows_after_cleaning (stats s2) = rows_extracted (stats s2) <->
       Forall (fun r => keeps r = true) raw /\ duplicate_free RawRecord_eqb raw) /\
      exists src,
        subframe src raw /\
        Forall (fun r => keeps r = true) src /\
        Forall2 (cleaned_from to_datetime) src clean.
Proof.
  intros w filepath s0 s1 s2 He Ht.
  assert (Hx : exists raw, read_csv w filepath = Some raw /\ df_raw s1 = Some raw /\
                           rows_extracted (stats s1) = List.length raw).
  { apply extract_true in He. destruct He as (raw & Hread & _ & ->).
    exists raw. auto. }
  destruct Hx as (raw & Hread & Hraw & Hn).
  apply transform_ok in Ht.
  destruct Ht as (raw' & clean & Hraw' & _ & Hc & ->).
  rewrite Hraw in Hraw'. injection Hraw' as <-.
  exists raw, clean. simpl.
  pose proof (clean_frame_length _ _ Hc) as Hlen.
  pose proof (filter_short keeps (drop_duplicates RawRecord_eqb raw)) as Hf.
  pose proof (subframe_length _ _ (subframe_keep_first RawRecord_eqb [] raw)) as Hd.
  fold (drop_duplicates RawRecord_eqb raw) in Hd.
  repeat split; auto.
  - lia.
  - rewrite Hn, Hlen in H.
    assert (Hd' : List.length (drop_duplicates RawRecord_eqb raw) = List.length raw) by lia.
    assert (Hf' : List.length (filter keeps (drop_duplicates RawRecord_eqb raw))
                  = List.length (drop_duplicates RawRecord_eqb raw)) by lia.
    apply filter_keeps_all in Hf'.
    unfold drop_duplicates in Hf', Hd'.
    now rewrite (keep_first_all _ _ _ Hd') in Hf'.
  - rewrite Hn, Hlen in H.
    apply drop_duplicates_keeps_all. lia.
  - intros [Hk Hdf]. rewrite Hn, Hlen.
    apply drop_duplicates_keeps_all in Hdf.
    assert (E : drop_duplicates RawRecord_eqb raw = raw)
      by (apply keep_first_all; exact Hdf).
    rewrite E. now apply filter_keeps_all.
  - exists (filter keeps (drop_duplicates RawRecord_eqb raw)). split; [|split].
    + eapply subframe_trans; [apply subframe_filter|]. apply subframe_keep_first.
    + apply Forall_filter.
    + eapply Forall2_impl; [|apply clean_frame_rows; exact Hc].
      intros r c. apply clean_row_cleaned.
Qed.

End CleaningFacts.

(** C1, as stated, fails: a description that is one blank passes the
    missing-value filter and is trimmed to the empty text. *)
Lemma blank_description_reaches_output :
  let s1 := snd (transform Reference.iso_datetime (Sample.loaded [Sample.row_blank])) in
  fst (transform Reference.iso_datetime (Sample.loaded [Sample.row_blank])) = Ret true /\
  exists c, df_clean s1 = Some [c] /\ Description c = Some "".
Proof.
  split; [reflexivity|].
  eexists. split; reflexivity.
Qed.

Lemma transform_output_passes_all_filters_witness :
  df_raw (Sample.loaded Sample.four_rows) = Some Sample.four_rows /\
  exists clean,
    df_clean (snd (transform Reference.iso_datetime (Sample.loaded Sample.four_rows)))
    = Some clean /\
    forall c, In c clean -> 0 < Quantity c <= 10000.
Proof.
  split; [reflexivity|].
  destruct (transform_output_passes_all_filters Reference.iso_datetime
              (Sample.loaded Sample.four_rows)
              (snd (transform Reference.iso_datetime (Sample.loaded Sample.four_rows)))
              Sample.four_rows eq_refl eq_refl) as (clean & Hc & Hall & _).
  exists clean. split; [exact Hc|].
  intros c Hin. destruct (Hall c Hin) as (_ & _ & _ & Hq & _). exact Hq.
Defined.

Lemma retention_is_monotone_witness :
  let s1 := snd (extract (Sample.world [] Sample.four_rows) Sample.path init) in
  let s2 := snd (transform Reference.iso_datetime s1) in
  extract (Sample.world [] Sample.four_rows) Sample.path init = (Ret true, s1) /\
  transform Reference.iso_datetime s1 = (Ret true, s2) /\
  (rows_after_cleaning (stats s2) <= rows_extracted (stats s2))%nat.
Proof.
  split; [reflexivity|]. split; [reflexivity|].
  destruct (retention_is_monotone Reference.iso_datetime
              (Sample.world [] Sample.four_rows) Sample.path init _ _ eq_refl eq_refl)
    as (raw & clean & _ & _ & _ & _ & Hle & _).
  exact Hle.
Defined.

(* ================================================================== *)
(** ** Methods: how results come about *)
(* ================================================================== *)

Lemma bind_returns {A B} (m : M A) (k : A -> M B) s b s' :
  bind m k s = (Ret b, s') ->
  exists a s1, m s = (Ret a, s1) /\ k a s1 = (Ret b, s').
Proof.
  unfold bind. destruct (m s) as [[a|e] s1]; intros H; [eauto | discriminate].
Qed.

Lemma bind_raises {A B} (m : M A) (k : A -> M B) s e s' :
  bind m k s = (Raise e, s') ->
  m s = (Raise e, s') \/ exists a s1, m s = (Ret a, s1) /\ k a s1 = (Raise e, s').
Proof.
  unfold bind. destruct (m s) as [[a|e0] s1]; intros H; [right; eauto | left].
  now injection H as -> ->.
Qed.

Lemma bind_raises_or_returns {B} (m : M unit) (k : unit -> M B) s (r : res B) s' :
  bind m k s = (r, s') ->
  (exists e, m s = (Raise e, s') /\ r = Raise e) \/
  (exists s1, m s = (Ret tt, s1) /\ k tt s1 = (r, s')).
Proof.
  unfold bind. destruct (m s) as [[[]|e] s1]; intros H.
  - right. eauto.
  - left. injection H as <- <-. eauto.
Qed.

Lemma bind_raise_returns {A B} (m : M A) e s (b : B) s' :
  bind m (fun _ => raise e) s = (Ret b, s') -> False.
Proof.
  intros H. apply bind_returns in H. destruct H as (a & s1 & _ & H). discriminate H.
Qed.

Lemma for_each_cons {A} (x : A) l (body : A -> M unit) :
  for_each (x :: l) body = bind (body x) (fun _ => for_each l body).
Proof. reflexivity. Qed.

(** *** Views a method leaves alone *)

Section Leaves.
Context {X : Type} (view : ETL -> X).

Lemma leaves_ret {A} (a : A) : leaves view (ret a).
Proof. intros s r s' H. now injection H as _ <-. Qed.

Lemma leaves_raise {A} e : leaves view (@raise A e).
Proof. intros s r s' H. now injection H as _ <-. Qed.

Lemma leaves_read {A} (f : ETL -> A) : leaves view (read f).
Proof. intros s r s' H. now injection H as _ <-. Qed.

Lemma leaves_update f : (forall s, view (f s) = view s) -> leaves view (update f).
Proof. intros Hf s r s' H. injection H as _ <-. apply Hf. Qed.

Lemma leaves_bind {A B} (m : M A) (k : A -> M B) :
  leaves view m -> (forall a, leaves view (k a)) -> leaves view (bind m k).
Proof.
  intros Hm Hk s r s'. unfold bind.
  destruct (m s) as [[a|e] s1] eqn:E; intros H.
  - rewrite (Hk a _ _ _ H). eapply Hm, E.
  - injection H as _ <-. eapply Hm, E.
Qed.

Lemma leaves_try_except {A} (m : M A) h :
  leaves view m -> (forall e, leaves view (h e)) -> leaves view (try_except m h).
Proof.
  intros Hm Hh s r s'. unfold try_except.
  destruct (m s) as [[a|e] s1] eqn:E; intros H.
  - injection H as _ <-. eapply Hm, E.
  - rewrite (Hh e _ _ _ H). eapply Hm, E.
Qed.

Lemma leaves_for_each {A} (l : list A) body :
  (forall x, leaves view (body x)) -> leaves view (for_each l body).
Proof.
  intros Hb. induction l as [|x l IH]; simpl.
  - apply leaves_ret.
  - apply leaves_bind; auto.
Qed.

Lemma leaves_staged {A} st truthy (m : M A) :
  (forall tr s, view (set_trace tr s) = view s) ->
  leaves view m -> leaves view (staged st truthy m).
Proof.
  intros Ht Hm s r s'. unfold staged.
  destruct (m s) as [[a|e] s1] eqn:E; intros H; injection H as _ <-;
    rewrite Ht; eapply Hm, E.
Qed.

Lemma leaves_weaken {A} (m : M A) : leaves view m -> leaves_if_raised view m.
Proof. intros H s e s' E. eapply H, E. Qed.

Lemma raised_bind {A B} (m : M A) (k : A -> M B) :
  leaves view m -> (forall a, leaves_if_raised view (k a)) ->
  leaves_if_raised view (bind m k).
Proof.
  intros Hm Hk s e s' H. apply bind_raises in H.
  destruct H as [H|(a & s1 & H1 & H2)].
  - eapply Hm, H.
  - rewrite (Hk a _ _ _ H2). eapply Hm, H1.
Qed.

(** The driver changes nothing but the connection; a view that reads
    neither the script nor whether the connection is closed is blind to
    a request. *)
Hypothesis view_line :
  forall sc b c s, conn s = Some c -> view (set_conn (Some (set_line sc b c)) s) = view s.

Lemma leaves_the_conn : leaves view the_conn.
Proof.
  intros s r s'. unfold the_conn. destruct (conn s); intros H; now injection H as _ <-.
Qed.

Lemma leaves_cursor : leaves view cursor.
Proof.
  apply leaves_bind; [apply leaves_the_conn|].
  intros c. destruct (closed c); [apply leaves_raise | apply leaves_ret].
Qed.

Lemma leaves_request : leaves view request.
Proof.
  intros s r s'. unfold request, bind, the_conn, update, ret, raise.
  destruct (conn s) as [c|] eqn:Ec; [|intros H; now injection H as _ <-].
  destruct (closed c); [intros H; now injection H as _ <-|].
  destruct (script c) as [|[|msg|msg] sc]; intros H; injection H as _ <-;
    auto; apply (view_line _ _ c); assumption.
Qed.

(** What a request leaves of the connection. *)
Lemma request_conn s s' c :
  request s = (Ret tt, s') -> conn s = Some c ->
  exists sc, s' = set_conn (Some (set_script sc c)) s.
Proof.
  unfold request, bind, the_conn, update, ret, raise. intros H Ec. rewrite Ec in H.
  assert (E0 : s = set_conn (Some (set_script (script c) c)) s).
  { destruct s, c; simpl in *. now rewrite Ec. }
  destruct (closed c); [discriminate|].
  destruct (script c) as [|[|msg|msg] sc]; try discriminate; injection H as <-; eauto.
Qed.

Lemma leaves_execute stmt :
  (forall c s, conn s = Some c -> view (set_conn (Some (stmt c)) s) = view s) ->
  leaves view (execute stmt).
Proof.
  intros Hstmt s r s'. unfold execute, bind.
  destruct (request s) as [[[]|e] s1] eqn:E.
  - unfold the_conn, update. destruct (conn s1) as [c1|] eqn:E1; intros H;
      injection H as _ <-.
    + rewrite (Hstmt _ _ E1). eapply leaves_request, E.
    + eapply leaves_request, E.
  - intros H. injection H as _ <-. eapply leaves_request, E.
Qed.

Lemma leaves_fetch {A} (q : Tables -> A) : leaves view (fetch q).
Proof.
  apply leaves_bind; [apply leaves_request|]. intros _.
  apply leaves_bind; [apply leaves_the_conn|]. intros c. apply leaves_ret.
Qed.

End Leaves.

(** *** Values a method can return *)

Lemma returns_only_ret {A} (P : A -> Prop) a : P a -> returns_only P (ret a).
Proof. intros Ha s b s' H. now injection H as <- _. Qed.

Lemma returns_only_raise {A} (P : A -> Prop) e : returns_only P (raise e).
Proof. intros s b s' H. discriminate. Qed.

Lemma returns_only_bind {A B} (P : B -> Prop) (m : M A) (k : A -> M B) :
  (forall a, returns_only P (k a)) -> returns_only P (bind m k).
Proof.
  intros Hk s b s' H. apply bind_returns in H.
  destruct H as (a & s1 & _ & H). eapply Hk, H.
Qed.

(** A stage's trace entry. *)
Lemma staged_trace {A} st truthy (m : M A) s r s' :
  leaves trace m ->
  staged st truthy m s = (r, s') ->
  trace s' = trace s ++ [(st, ending_of truthy r)].
Proof.
  intros Hm. unfold staged.
  destruct (m s) as [[a|e] s1] eqn:E; intros H; injection H as <- <-; simpl;
    now rewrite (Hm _ _ _ E).
Qed.

Lemma staged_result {A} st truthy (m : M A) s r s' :
  staged st truthy m s = (r, s') ->
  exists s1, m s = (r, s1) /\ s' = set_trace (trace s1 ++ [(st, ending_of truthy r)]) s1.
Proof.
  unfold staged. destruct (m s) as [[a|e] s1]; intros H; injection H as <- <-; eauto.
Qed.

(* ================================================================== *)
(** ** Storage: what is committed *)
(* ================================================================== *)

Lemma committed_script sc b c s :
  conn s = Some c -> committed_of (set_conn (Some (set_line sc b c)) s) = committed_of s.
Proof. intros H. unfold committed_of. simpl. now rewrite H. Qed.

Lemma working_script sc b c s :
  conn s = Some c -> working_of (set_conn (Some (set_line sc b c)) s) = working_of s.
Proof. intros H. unfold working_of. simpl. now rewrite H. Qed.

(** A statement that leaves [committed] alone leaves storage alone. *)
Lemma committed_execute stmt :
  (forall c, committed (stmt c) = committed c) -> leaves committed_of (execute stmt).
Proof.
  intros H. apply leaves_execute; [apply committed_script|].
  intros c s Hc. unfold committed_of. simpl. now rewrite Hc, H.
Qed.

Lemma committed_fetch {A} (q : Tables -> A) : leaves committed_of (fetch q).
Proof. apply leaves_fetch, committed_script. Qed.

(** A [commit] that raises has published nothing. *)
Lemma commit_raised : leaves_if_raised committed_of commit.
Proof.
  intros s e s' H. unfold commit, execute in H.
  apply bind_raises in H. destruct H as [H|(a & s1 & H1 & H2)].
  - eapply leaves_request; [apply committed_script | exact H].
  - apply bind_raises in H2. destruct H2 as [H2|(c & s2 & H2 & H3)].
    + rewrite (leaves_the_conn committed_of _ _ _ H2).
      eapply leaves_request; [apply committed_script | exact H1].
    + discriminate.
Qed.

(** What a statement that went through leaves of the connection. *)
Lemma execute_ok stmt s s' :
  execute stmt s = (Ret tt, s') ->
  exists c sc, conn s = Some c /\ closed c = false /\
               s' = set_conn (Some (stmt (set_script sc c))) s.
Proof.
  unfold execute. intros H. apply bind_returns in H.
  destruct H as ([] & s1 & H1 & H2).
  assert (Hc : exists c, conn s = Some c /\ closed c = false).
  { revert H1. unfold request, bind, the_conn, raise.
    destruct (conn s) as [c|]; [|discriminate].
    destruct (closed c) eqn:Eo; [discriminate|]. intros _. eauto. }
  destruct Hc as (c & Hc & Hopen).
  destruct (request_conn _ _ _ H1 Hc) as (sc & ->).
  unfold bind, the_conn, update in H2. simpl in H2. injection H2 as <-.
  exists c, sc. auto.
Qed.

Section FactLoadFacts.

Lemma committed_resolve row : leaves committed_of (resolve row).
Proof.
  unfold resolve.
  apply leaves_bind; [apply committed_fetch|]. intros cr.
  apply leaves_bind.
  { destruct (StockCode row); [apply committed_fetch|].
    apply leaves_bind; [apply leaves_request, committed_script|].
    intros _. apply leaves_raise. }
  intros pr. apply leaves_bind.
  { destruct (InvoiceDate row); [apply committed_fetch | apply leaves_raise]. }
  intros dr. destruct cr, pr, dr; apply leaves_ret.
Qed.

Lemma committed_resolve_all rows acc : leaves committed_of (resolve_all rows acc).
Proof.
  revert acc. induction rows as [|row rows IH]; intros acc; simpl.
  - apply leaves_ret.
  - apply leaves_bind; [apply committed_resolve|]. intros o. apply IH.
Qed.

Lemma committed_execute_batch argslist n : leaves committed_of (execute_batch argslist n).
Proof.
  apply leaves_for_each. intros page. apply committed_execute. reflexivity.
Qed.

Lemma committed_rollback : leaves committed_of rollback.
Proof. apply committed_execute. reflexivity. Qed.

Lemma committed_the_df_clean : leaves committed_of the_df_clean.
Proof.
  intros s r s'. unfold the_df_clean. destruct (df_clean s); intros H;
    now injection H as _ <-.
Qed.

(** C3 (as amended).  When the fact-loading stage does not succeed,
    storage holds what it held before the call: every insert the call
    issued is undone, those of pages already sent with success included,
    since the call commits once, after the last page; facts committed
    before the call remain.  When the stage returns [False], the
    transaction sees exactly what storage holds. *)
Theorem failed_fact_load_leaves_storage_unchanged :
  forall s r s',
    load_facts s = (r, s') ->
    r <> Ret true ->
    committed_of s' = committed_of s /\
    (r = Ret false -> working_of s' = committed_of s').
Proof.
  intros s r s' H Hr.
  apply staged_result in H. destruct H as (s0 & H & ->).
  change (committed_of (set_trace _ s0)) with (committed_of s0).
  change (working_of (set_trace _ s0)) with (working_of s0).
  unfold try_except in H.
  match type of H with
  | context [match ?body s with _ => _ end] => destruct (body s) as [[b|e] s1] eqn:Eb
  end.
  - (* the body returned: it returns [True] only *)
    injection H as <- <-. exfalso. apply Hr. f_equal.
    revert Eb. generalize s, b, s1.
    change (returns_only (fun b => b = true)
              (cursor ;; clean <- the_df_clean ;;
               transactions <- resolve_all clean [] ;;
               execute_batch transactions 1000 ;; commit ;;
               update (fun s => set_stats (with_transactions_loaded
                                             (List.length transactions) (stats s)) s) ;;
               ret true)).
    repeat (apply returns_only_bind; intros). now apply returns_only_ret.
  - (* the body raised: nothing was published *)
    assert (E1 : committed_of s1 = committed_of s).
    { revert Eb. generalize s, e, s1.
      change (leaves_if_raised committed_of
                (cursor ;; clean <- the_df_clean ;;
                 transactions <- resolve_all clean [] ;;
                 execute_batch transactions 1000 ;; commit ;;
                 update (fun s => set_stats (with_transactions_loaded
                                               (List.length transactions) (stats s)) s) ;;
                 ret true)).
      apply raised_bind; [apply leaves_cursor|]. intros _.
      apply raised_bind; [apply committed_the_df_clean|]. intros clean.
      apply raised_bind; [apply committed_resolve_all|]. intros transactions.
      apply raised_bind; [apply committed_execute_batch|]. intros _.
      intros s2 e2 s3 H2. apply bind_raises in H2.
      destruct H2 as [H2|(a & s4 & H2 & H3)]; [eapply commit_raised, H2|].
      apply bind_raises in H3. destruct H3 as [H3|(a' & s5 & _ & H3)]; discriminate. }
    apply bind_raises_or_returns in H.
    destruct H as [(e' & Hrb & ->)|(s2 & Hrb & Hrest)].
    + (* the rollback raised too *)
      split; [|intros F; discriminate].
      rewrite (committed_rollback _ _ _ Hrb). exact E1.
    + (* the rollback went through *)
      unfold bind, record_error, update, ret in Hrest. injection Hrest as <- <-.
      pose proof (committed_rollback _ _ _ Hrb) as E2.
      split.
      * change (committed_of (set_stats _ s2)) with (committed_of s2). congruence.
      * intros _.
        change (working_of (set_stats _ s2)) with (working_of s2).
        change (committed_of (set_stats _ s2)) with (committed_of s2).
        apply execute_ok in Hrb. destruct Hrb as (c & sc & _ & _ & ->).
        reflexivity.
Qed.

End FactLoadFacts.

(** C3, as stated, fails.  1001 clean records make two pages.  The six
    requests of the dimension load, the 3003 lookups and the first page
    are served; the second page fails.  The first page, sent with
    success, is undone with the second: storage holds no fact. *)
Lemma first_page_is_undone_with_the_second :
  List.length Sample.two_pages_transactions = 1001%nat /\
  map (@List.length FactRow) (paginate 1000 [] Sample.two_pages_transactions)
    = [1000%nat; 1%nat] /\
  nth_error (paginate 1000 [] Sample.two_pages_transactions) 0
    = Some (firstn 1000 Sample.two_pages_transactions) /\
  fst Sample.two_pages_first_sent = Ret tt /\
  option_map (fun t => List.length (fact_transactions t))
             (working_of (snd Sample.two_pages_first_sent)) = Some 1000%nat /\
  fst (load_facts Sample.two_pages) = Ret false /\
  errors (stats (snd (load_facts Sample.two_pages)))
    = ["Fact load error: connection lost"] /\
  option_map fact_transactions (committed_of (snd (load_facts Sample.two_pages)))
    = Some [] /\
  option_map fact_transactions (working_of (snd (load_facts Sample.two_pages)))
    = Some [].
Proof.
  vm_compute. repeat split; reflexivity.
Qed.

Lemma failed_fact_load_leaves_storage_unchanged_witness :
  load_facts Sample.one_page_fails = (Ret false, snd (load_facts Sample.one_page_fails)) /\
  committed_of (snd (load_facts Sample.one_page_fails)) = committed_of Sample.one_page_fails.
Proof.
  assert (H : load_facts Sample.one_page_fails
              = (Ret false, snd (load_facts Sample.one_page_fails)))
    by (vm_compute; reflexivity).
  split; [exact H|].
  destruct (failed_fact_load_leaves_storage_unchanged
              Sample.one_page_fails (Ret false) _ H) as [Hc _];
    [discriminate | exact Hc].
Defined.

(* ================================================================== *)
(** ** Fact resolution when every request is served *)
(* ================================================================== *)

Lemma set_conn_same s c : conn s = Some c -> set_conn (Some c) s = s.
Proof. intros H. destruct s. simpl in *. now rewrite H. Qed.

(** The connection is open and its script is empty: nothing will fail. *)
Lemma request_idle s c :
  conn s = Some c -> closed c = false -> script c = [] -> request s = (Ret tt, s).
Proof.
  intros Hc Ho Hs. unfold request, bind, the_conn. now rewrite Hc, Ho, Hs.
Qed.

Lemma fetch_idle {A} (q : Tables -> A) s c :
  conn s = Some c -> closed c = false -> script c = [] ->
  fetch q s = (Ret (q (working c)), s).
Proof.
  intros Hc Ho Hs. unfold fetch, bind. rewrite (request_idle s c Hc Ho Hs).
  unfold the_conn. now rewrite Hc.
Qed.

Lemma execute_idle stmt s c :
  conn s = Some c -> closed c = false -> script c = [] ->
  execute stmt s = (Ret tt, set_conn (Some (stmt c)) s).
Proof.
  intros Hc Ho Hs. unfold execute, bind. rewrite (request_idle s c Hc Ho Hs).
  unfold the_conn. now rewrite Hc.
Qed.

Lemma for_each_execute_idle {A} (f : A -> Connection -> Connection) rows s c :
  (forall r c, script (f r c) = script c /\ closed (f r c) = closed c) ->
  conn s = Some c -> closed c = false -> script c = [] ->
  for_each rows (fun r => execute (f r)) s
  = (Ret tt, set_conn (Some (fold_left (fun c r => f r c) rows c)) s).
Proof.
  intros Hf. revert s c. induction rows as [|r rows IH]; intros s c Hc Ho Hs.
  - simpl. now rewrite set_conn_same.
  - rewrite for_each_cons. unfold bind.
    rewrite (execute_idle _ s c Hc Ho Hs).
    destruct (Hf r c) as [Hs' Ho'].
    rewrite (IH (set_conn (Some (f r c)) s) (f r c)); try reflexivity; congruence.
Qed.

Lemma paginate_concat {A} n (page l : list A) :
  List.concat (paginate n page l) = page ++ l.
Proof.
  revert page. induction l as [|x l IH]; intros page; simpl.
  - destruct page; simpl; [reflexivity|]. now rewrite !app_nil_r.
  - destruct (List.length (page ++ [x]) =? n)%nat; simpl; rewrite IH.
    + now rewrite <- app_assoc.
    + now rewrite <- app_assoc.
Qed.

Lemma insert_pages_facts pages c :
  fact_transactions (working (fold_left (fun c p => SQL.insert_facts p c) pages c))
  = fact_transactions (working c) ++ List.concat pages.
Proof.
  revert c. induction pages as [|p pages IH]; intros c; simpl.
  - now rewrite app_nil_r.
  - rewrite IH. simpl. now rewrite app_assoc.
Qed.

Lemma insert_pages_frame pages c :
  let c' := fold_left (fun c p => SQL.insert_facts p c) pages c in
  script c' = script c /\ closed c' = closed c /\ committed c' = committed c.
Proof.
  revert c. induction pages as [|p pages IH]; intros c; simpl; [auto|].
  destruct (IH (SQL.insert_facts p c)) as (H1 & H2 & H3). simpl in *. auto.
Qed.

Lemma resolved_all_found t row :
  all_found t row = false <-> resolved t row = None.
Proof.
  unfold all_found, resolved.
  destruct (SQL.select_customer (CustomerID row) t);
    destruct (StockCode row) as [code|]; simpl;
    try destruct (SQL.select_product code t);
    destruct (InvoiceDate row) as [ts|]; simpl;
    try destruct (SQL.select_date (ts_date ts) t); simpl;
    split; intros H; try reflexivity; try discriminate.
Qed.

Lemma resolved_count t rows :
  List.length (valid (map (resolved t) rows)) = List.length (filter (all_found t) rows).
Proof.
  induction rows as [|row rows IH]; simpl; [reflexivity|].
  destruct (all_found t row) eqn:E.
  - destruct (resolved t row) eqn:R.
    + simpl. now rewrite IH.
    + apply resolved_all_found in R. congruence.
  - apply resolved_all_found in E. now rewrite E.
Qed.


Lemma resolve_idle row s c :
  conn s = Some c -> closed c = false -> script c = [] ->
  StockCode row <> None -> InvoiceDate row <> None ->
  resolve row s = (Ret (resolved (working c) row), s).
Proof.
  intros Hc Ho Hs Hcode Hdate. unfold resolve, resolved, bind.
  rewrite (fetch_idle _ s c Hc Ho Hs).
  destruct (StockCode row) as [code|]; [|congruence].
  rewrite (fetch_idle _ s c Hc Ho Hs).
  destruct (InvoiceDate row) as [ts|]; [|congruence].
  rewrite (fetch_idle _ s c Hc Ho Hs).
  destruct (SQL.select_customer (CustomerID row) (working c));
    destruct (SQL.select_product code (working c));
    destruct (SQL.select_date (ts_date ts) (working c)); reflexivity.
Qed.

Lemma resolve_all_idle rows acc s c :
  conn s = Some c -> closed c = false -> script c = [] ->
  Forall (fun row => StockCode row <> None /\ InvoiceDate row <> None) rows ->
  resolve_all rows acc s = (Ret (acc ++ valid (map (resolved (working c)) rows)), s).
Proof.
  intros Hc Ho Hs Hrows. revert acc.
  induction Hrows as [|row rows [H1 H2] _ IH]; intros acc; simpl.
  - now rewrite app_nil_r.
  - unfold bind. rewrite (resolve_idle row s c Hc Ho Hs H1 H2).
    rewrite IH. destruct (resolved (working c) row); simpl.
    + now rewrite <- app_assoc.
    + reflexivity.
Qed.

(* ================================================================== *)
(** ** The date dimension *)
(* ================================================================== *)

Lemma Date_eqb_refl d : Date_eqb d d = true.
Proof. unfold Date_eqb. now rewrite !Z.eqb_refl. Qed.

Lemma Date_eqb_eq a b : Date_eqb a b = true <-> a = b.
Proof.
  split; [|intros ->; apply Date_eqb_refl].
  unfold Date_eqb. rewrite !andb_true_iff, !Z.eqb_eq.
  destruct a, b; simpl. intros [[-> ->] ->]. reflexivity.
Qed.

Lemma existsb_filter {A} (f : A -> bool) l :
  existsb f l = true <-> filter f l <> [].
Proof.
  induction l as [|x l IH]; simpl.
  - split; [discriminate | congruence].
  - destruct (f x); simpl; [split; [discriminate | reflexivity]|exact IH].
Qed.

Lemma existsb_no_filter {A} (f : A -> bool) l :
  existsb f l = false <-> filter f l = [].
Proof.
  induction l as [|x l IH]; simpl.
  - split; reflexivity.
  - destruct (f x); simpl; [split; discriminate | exact IH].
Qed.

(** One [INSERT ... ON CONFLICT (full_date) DO NOTHING]. *)
Lemma insert_date_present row c :
  rows_for_date (full_date row) (dim_dates (working c)) <> [] ->
  dim_dates (working (SQL.insert_date row c)) = dim_dates (working c).
Proof.
  intros H. apply existsb_filter in H. unfold SQL.insert_date. simpl.
  now rewrite H.
Qed.

Lemma insert_date_absent row c :
  rows_for_date (full_date row) (dim_dates (working c)) = [] ->
  dim_dates (working (SQL.insert_date row c))
  = dim_dates (working c) ++ [mkDateRow (seq_date_id c) row].
Proof.
  intros H. apply existsb_no_filter in H. unfold SQL.insert_date. simpl.
  now rewrite H.
Qed.

Lemma insert_date_once row c :
  unique_dates (dim_dates (working c)) ->
  List.length (rows_for_date (full_date row) (dim_dates (working (SQL.insert_date row c))))
  = 1%nat /\
  unique_dates (dim_dates (working (SQL.insert_date row c))).
Proof.
  intros U.
  destruct (rows_for_date (full_date row) (dim_dates (working c))) as [|r0 rs] eqn:E.
  - rewrite (insert_date_absent row c E). split.
    + unfold rows_for_date in *. rewrite filter_app, E. simpl.
      now rewrite Date_eqb_refl.
    + intros d. unfold rows_for_date in *. rewrite filter_app, length_app. simpl.
      destruct (Date_eqb (full_date row) d) eqn:Ed; simpl.
      * apply Date_eqb_eq in Ed. subst d. rewrite E. simpl. lia.
      * specialize (U d). unfold rows_for_date in U. lia.
  - assert (Hne : rows_for_date (full_date row) (dim_dates (working c)) <> [])
      by (rewrite E; discriminate).
    rewrite (insert_date_present row c Hne). split; [|exact U].
    specialize (U (full_date row)). rewrite E in *. simpl in *. lia.
Qed.

(* ================================================================== *)
(** ** The dimension load when it succeeds *)
(* ================================================================== *)

Lemma blind_insert_date a : script_blind (SQL.insert_date a).
Proof. intros sc c. reflexivity. Qed.

Lemma blind_upsert_customer r : script_blind (SQL.upsert_customer r).
Proof. intros sc c. reflexivity. Qed.

Lemma blind_upsert_product r : script_blind (SQL.upsert_product r).
Proof. intros sc c. reflexivity. Qed.

Lemma blind_publish : script_blind publish.
Proof. intros sc c. reflexivity. Qed.

Lemma blind_fold {A} (f : A -> Connection -> Connection) rows :
  (forall r, script_blind (f r)) ->
  script_blind (fun c => fold_left (fun c r => f r c) rows c).
Proof.
  intros Hf. induction rows as [|r rows IH]; intros sc c; simpl; [reflexivity|].
  rewrite (Hf r). apply IH.
Qed.

Lemma cursor_ok s s' :
  cursor s = (Ret tt, s') ->
  s' = s /\ exists c, conn s = Some c /\ closed c = false.
Proof.
  unfold cursor, bind, the_conn, raise, ret.
  destruct (conn s) as [c|]; [|discriminate].
  destruct (closed c) eqn:E; [discriminate|].
  intros H. injection H as <-. eauto.
Qed.

Lemma the_df_clean_ok s clean s' :
  the_df_clean s = (Ret clean, s') -> s' = s /\ df_clean s = Some clean.
Proof.
  unfold the_df_clean. destruct (df_clean s); [|discriminate].
  intros H. injection H as <- <-. auto.
Qed.

Lemma state_eta s c :
  conn s = Some c -> s = set_conn (Some (set_script (script c) c)) s.
Proof. intros H. destruct s, c. simpl in *. now rewrite H. Qed.

(** A served statement, on an object whose connection is [X] up to its
    script. *)
Lemma execute_step stmt X B sc s' :
  script_blind stmt ->
  execute stmt (set_conn (Some (set_script sc X)) B) = (Ret tt, s') ->
  exists sc', s' = set_conn (Some (set_script sc' (stmt X))) B.
Proof.
  intros Hb H. apply execute_ok in H.
  destruct H as (c & sc0 & Hc & _ & ->).
  simpl in Hc. injection Hc as <-.
  exists sc0. rewrite <- (Hb sc0 X). reflexivity.
Qed.

Lemma for_each_step {A} (f : A -> Connection -> Connection) rows X B sc s' :
  (forall r, script_blind (f r)) ->
  for_each rows (fun r => execute (f r)) (set_conn (Some (set_script sc X)) B) = (Ret tt, s') ->
  exists sc', s' = set_conn (Some (set_script sc' (fold_left (fun c r => f r c) rows X))) B.
Proof.
  intros Hf. revert X sc. induction rows as [|r rows IH]; intros X sc H.
  - injection H as <-. eauto.
  - rewrite for_each_cons in H. apply bind_returns in H.
    destruct H as ([] & s1 & H1 & H2).
    apply execute_step in H1; [|apply Hf]. destruct H1 as (sc1 & ->).
    apply IH in H2. exact H2.
Qed.

Section DimensionLoad.

Lemma dates_step dates X B sc s' :
  for_each dates execute_insert_date (set_conn (Some (set_script sc X)) B) = (Ret tt, s') ->
  exists attrs sc',
    dates = map Some attrs /\
    s' = set_conn (Some (set_script sc' (fold_left (fun c a => SQL.insert_date a c) attrs X))) B.
Proof.
  revert X sc. induction dates as [|d dates IH]; intros X sc H.
  - injection H as <-. exists [], sc. auto.
  - rewrite for_each_cons in H. apply bind_returns in H.
    destruct H as ([] & s1 & H1 & H2).
    destruct d as [a|]; [|discriminate].
    apply execute_step in H1; [|apply blind_insert_date]. destruct H1 as (sc1 & ->).
    apply IH in H2. destruct H2 as (attrs & sc' & -> & ->).
    exists (a :: attrs), sc'. auto.
Qed.

Lemma rollback_handler_never_true label e :
  returns_only (fun b => b = false)
    (rollback ;; record_error (label ++ str e) ;; ret false).
Proof. repeat (apply returns_only_bind; intros). now apply returns_only_ret. Qed.

(** What a successful [load_dimensions] does to the object. *)
Lemma load_dimensions_ok s s' :
  load_dimensions s = (Ret true, s') ->
  exists c clean attrs sc,
    conn s = Some c /\ closed c = false /\
    df_clean s = Some clean /\
    dates_df clean = map Some attrs /\
    s' = set_trace (trace s ++ [(LoadDimensions, Succeeded)])
           (set_conn (Some (set_script sc (loaded_dimensions clean attrs c)))
              (set_stats
                 (with_products_loaded (List.length (products_df clean))
                    (with_customers_loaded (List.length (customers_df clean))
                       (with_dates_loaded (List.length (dates_df clean)) (stats s))))
                 s)).
Proof.
  intros H. apply staged_result in H. destruct H as (s0 & H & ->).
  unfold try_except in H.
  match type of H with
  | context [match ?body s with _ => _ end] => destruct (body s) as [[b|e] s1] eqn:Eb
  end.
  2:{ apply rollback_handler_never_true in H. discriminate. }
  injection H as -> ->.
  apply bind_returns in Eb. destruct Eb as ([] & sA & H1 & Eb).
  apply cursor_ok in H1. destruct H1 as (-> & c & Hc & Ho).
  apply bind_returns in Eb. destruct Eb as (clean & sB & H2 & Eb).
  apply the_df_clean_ok in H2. destruct H2 as (-> & Hclean).
  rewrite (state_eta s c Hc) in Eb.
  (* dates *)
  apply bind_returns in Eb. destruct Eb as ([] & sC & H3 & Eb).
  apply dates_step in H3. destruct H3 as (attrs & sc1 & Hattrs & ->).
  apply bind_returns in Eb. destruct Eb as ([] & sD & H4 & Eb).
  apply execute_step in H4; [|apply blind_publish]. destruct H4 as (sc2 & ->).
  fold (loaded_dates attrs c) in Eb.
  apply bind_returns in Eb. destruct Eb as ([] & sE & H5 & Eb).
  injection H5 as <-.
  (* customers *)
  apply bind_returns in Eb. destruct Eb as ([] & sF & H6 & Eb).
  apply (for_each_step SQL.upsert_customer (customers_df clean) (loaded_dates attrs c)
           (set_stats (with_dates_loaded (List.length (dates_df clean)) (stats s)) s)
           sc2 sF blind_upsert_customer) in H6.
  destruct H6 as (sc3 & ->).
  apply bind_returns in Eb. destruct Eb as ([] & sG & H7 & Eb).
  apply execute_step in H7; [|apply blind_publish]. destruct H7 as (sc4 & ->).
  fold (loaded_customers clean (loaded_dates attrs c)) in Eb.
  apply bind_returns in Eb. destruct Eb as ([] & sH & H8 & Eb).
  injection H8 as <-.
  (* products *)
  apply bind_returns in Eb. destruct Eb as ([] & sI & H9 & Eb).
  apply (for_each_step SQL.upsert_product (products_df clean)
           (loaded_customers clean (loaded_dates attrs c))
           (set_stats (with_customers_loaded (List.length (customers_df clean))
                         (with_dates_loaded (List.length (dates_df clean)) (stats s))) s)
           sc4 sI blind_upsert_product) in H9.
  destruct H9 as (sc5 & ->).
  apply bind_returns in Eb. destruct Eb as ([] & sJ & H10 & Eb).
  apply execute_step in H10; [|apply blind_publish]. destruct H10 as (sc6 & ->).
  fold (loaded_products clean (loaded_customers clean (loaded_dates attrs c))) in Eb.
  apply bind_returns in Eb. destruct Eb as ([] & sK & H11 & Eb).
  injection H11 as <-.
  injection Eb as <-.
  exists c, clean, attrs, sc6. repeat split; auto.
Qed.

End DimensionLoad.

(* ================================================================== *)
(** ** The fact load when it succeeds *)
(* ================================================================== *)

Lemma fetch_step {A} (q : Tables -> A) X B sc a s' :
  fetch q (set_conn (Some (set_script sc X)) B) = (Ret a, s') ->
  a = q (working X) /\ exists sc', s' = set_conn (Some (set_script sc' X)) B.
Proof.
  unfold fetch. intros H. apply bind_returns in H.
  destruct H as ([] & s1 & H1 & H2).
  destruct (request_conn _ _ (set_script sc X) H1 eq_refl) as (sc1 & ->).
  injection H2 as <- <-. split; [reflexivity|]. exists sc1. reflexivity.
Qed.

Lemma resolve_step row X B sc o s' :
  resolve row (set_conn (Some (set_script sc X)) B) = (Ret o, s') ->
  o = resolved (working X) row /\ exists sc', s' = set_conn (Some (set_script sc' X)) B.
Proof.
  unfold resolve, resolved. intros H.
  apply bind_returns in H. destruct H as (cr & s1 & H1 & H).
  apply fetch_step in H1. destruct H1 as (-> & sc1 & ->).
  apply bind_returns in H. destruct H as (pr & s2 & H2 & H).
  destruct (StockCode row) as [code|]; [|now apply bind_raise_returns in H2].
  apply fetch_step in H2. destruct H2 as (-> & sc2 & ->).
  apply bind_returns in H. destruct H as (dr & s3 & H3 & H).
  destruct (InvoiceDate row) as [ts|]; [|discriminate].
  apply fetch_step in H3. destruct H3 as (-> & sc3 & ->).
  destruct (SQL.select_customer (CustomerID row) (working X));
    destruct (SQL.select_product code (working X));
    destruct (SQL.select_date (ts_date ts) (working X));
    injection H as <- <-; eauto.
Qed.

Lemma resolve_all_step rows :
  forall acc X B sc l s',
    resolve_all rows acc (set_conn (Some (set_script sc X)) B) = (Ret l, s') ->
    l = acc ++ valid (map (resolved (working X)) rows) /\
    exists sc', s' = set_conn (Some (set_script sc' X)) B.
Proof.
  induction rows as [|row rows IH]; intros acc X B sc l s' H; simpl in H.
  - injection H as <- <-. simpl. rewrite app_nil_r. eauto.
  - apply bind_returns in H. destruct H as (o & s1 & H1 & H).
    apply resolve_step in H1. destruct H1 as (-> & sc1 & ->).
    apply IH in H. destruct H as (-> & sc2 & ->). split; [|eauto].
    simpl. destruct (resolved (working X) row); simpl; [|reflexivity].
    now rewrite <- app_assoc.
Qed.

Lemma blind_insert_facts page : script_blind (SQL.insert_facts page).
Proof. intros sc c. reflexivity. Qed.

(** What a successful [load_facts] does to the object. *)
Lemma load_facts_ok s s' :
  load_facts s = (Ret true, s') ->
  exists c clean sc,
    conn s = Some c /\ closed c = false /\
    df_clean s = Some clean /\
    let transactions := valid (map (resolved (working c)) clean) in
    s' = set_trace (trace s ++ [(LoadFacts, Succeeded)])
           (set_conn
              (Some (set_script sc
                       (publish (fold_left (fun c p => SQL.insert_facts p c)
                                           (paginate 1000 [] transactions) c))))
              (set_stats (with_transactions_loaded (List.length transactions) (stats s)) s)).
Proof.
  intros H. apply staged_result in H. destruct H as (s0 & H & ->).
  unfold try_except in H.
  match type of H with
  | context [match ?body s with _ => _ end] => destruct (body s) as [[b|e] s1] eqn:Eb
  end.
  2:{ apply rollback_handler_never_true in H. discriminate. }
  injection H as -> ->.
  apply bind_returns in Eb. destruct Eb as ([] & sA & H1 & Eb).
  apply cursor_ok in H1. destruct H1 as (-> & c & Hc & Ho).
  apply bind_returns in Eb. destruct Eb as (clean & sB & H2 & Eb).
  apply the_df_clean_ok in H2. destruct H2 as (-> & Hclean).
  rewrite (state_eta s c Hc) in Eb.
  apply bind_returns in Eb. destruct Eb as (transactions & sC & H3 & Eb).
  apply resolve_all_step in H3. destruct H3 as (-> & sc1 & ->). simpl in Eb.
  apply bind_returns in Eb. destruct Eb as ([] & sD & H4 & Eb).
  unfold execute_batch in H4.
  apply (for_each_step SQL.insert_facts _ c s sc1 sD blind_insert_facts) in H4.
  destruct H4 as (sc2 & ->).
  apply bind_returns in Eb. destruct Eb as ([] & sE & H5 & Eb).
  apply execute_step in H5; [|apply blind_publish]. destruct H5 as (sc3 & ->).
  apply bind_returns in Eb. destruct Eb as ([] & sF & H6 & Eb).
  injection H6 as <-. injection Eb as <-.
  exists c, clean, sc3. repeat split; auto.
Qed.

Lemma resolve_keys row s o s' :
  resolve row s = (Ret o, s') -> StockCode row <> None /\ InvoiceDate row <> None.
Proof.
  unfold resolve. intros H.
  apply bind_returns in H. destruct H as (cr & s1 & _ & H).
  apply bind_returns in H. destruct H as (pr & s2 & H2 & H).
  destruct (StockCode row); [|now apply bind_raise_returns in H2].
  apply bind_returns in H. destruct H as (dr & s3 & H3 & H).
  destruct (InvoiceDate row); [|discriminate].
  split; discriminate.
Qed.

Lemma resolve_all_keys rows :
  forall acc s l s',
    resolve_all rows acc s = (Ret l, s') ->
    Forall (fun row => StockCode row <> None /\ InvoiceDate row <> None) rows.
Proof.
  induction rows as [|row rows IH]; intros acc s l s' H; [constructor|].
  simpl in H. apply bind_returns in H. destruct H as (o & s1 & H1 & H).
  constructor; [eapply resolve_keys, H1 | eapply IH, H].
Qed.

(** A fact load that succeeds found an item code and a date in every
    clean record. *)
Lemma load_facts_keys s s' clean :
  df_clean s = Some clean ->
  load_facts s = (Ret true, s') ->
  Forall (fun row => StockCode row <> None /\ InvoiceDate row <> None) clean.
Proof.
  intros Hclean H. apply staged_result in H. destruct H as (s0 & H & _).
  unfold try_except in H.
  match type of H with
  | context [match ?body s with _ => _ end] => destruct (body s) as [[b|e] s1] eqn:Eb
  end.
  2:{ apply rollback_handler_never_true in H. discriminate. }
  apply bind_returns in Eb. destruct Eb as ([] & sA & H1 & Eb).
  apply cursor_ok in H1. destruct H1 as (-> & _).
  apply bind_returns in Eb. destruct Eb as (clean' & sB & H2 & Eb).
  apply the_df_clean_ok in H2. destruct H2 as (-> & Hclean').
  assert (clean' = clean) by congruence. subst clean'.
  apply bind_returns in Eb. destruct Eb as (l & sC & H3 & _).
  eapply resolve_all_keys, H3.
Qed.






(* ================================================================== *)
(** ** Distinct keys *)
(* ================================================================== *)

Section Keys.
Context {A : Type} (eqb : A -> A -> bool).
Hypothesis eqb_eq : forall a b, eqb a b = true <-> a = b.

Lemma existsb_In x l : existsb (eqb x) l = true <-> In x l.
Proof.
  rewrite existsb_exists. split.
  - intros (y & Hy & E). apply eqb_eq in E. now subst.
  - intros H. exists x. split; [assumption | now apply eqb_eq].
Qed.

Lemma keep_first_In x seen l :
  In x (keep_first eqb seen l) <-> In x l /\ ~ In x seen.
Proof.
  revert seen. induction l as [|y l IH]; intros seen; simpl.
  - tauto.
  - destruct (existsb (eqb y) seen) eqn:E.
    + apply existsb_In in E. rewrite IH. simpl. split.
      * intros [H1 H2]. tauto.
      * intros [[->|H1] H2]; [contradiction|]. split; [assumption|].
        intros [->|H3]; contradiction.
    + assert (Hy : ~ In y seen).
      { intros H. apply existsb_In in H. congruence. }
      simpl. rewrite IH. simpl. split.
      * intros [->|[H1 H2]]; tauto.
      * intros [[->|H1] H2]; [now left|].
        destruct (eqb y x) eqn:Eyx.
        -- apply eqb_eq in Eyx. now left.
        -- right. split; [assumption|]. intros [->|H3]; [|contradiction].
           assert (eqb x x = true) by now apply eqb_eq. congruence.
Qed.

Lemma keep_first_NoDup seen l : NoDup (keep_first eqb seen l).
Proof.
  revert seen. induction l as [|y l IH]; intros seen; simpl; [constructor|].
  destruct (existsb (eqb y) seen); [apply IH|].
  constructor; [|apply IH].
  rewrite keep_first_In. simpl. tauto.
Qed.

Lemma drop_duplicates_In x l : In x (drop_duplicates eqb l) <-> In x l.
Proof. unfold drop_duplicates. rewrite keep_first_In. simpl. tauto. Qed.

Variable leb : A -> A -> bool.

Lemma insert_sorted_perm x l : Permutation (x :: l) (insert_sorted leb x l).
Proof.
  induction l as [|y l IH]; simpl; [reflexivity|].
  destruct (leb x y); [reflexivity|].
  rewrite perm_swap. now constructor.
Qed.

Lemma sort_perm l : Permutation l (sort leb l).
Proof.
  induction l as [|x l IH]; simpl; [constructor|].
  rewrite <- insert_sorted_perm. now constructor.
Qed.

(** The group keys are the distinct values. *)
Lemma group_keys_distinct l :
  NoDup (group_keys eqb leb l) /\ forall x, In x (group_keys eqb leb l) <-> In x l.
Proof.
  unfold group_keys. split.
  - eapply Permutation_NoDup; [apply sort_perm|]. apply keep_first_NoDup.
  - intros x. split; intros H.
    + apply drop_duplicates_In.
      eapply Permutation_in; [symmetry; apply sort_perm | exact H].
    + apply drop_duplicates_In in H.
      eapply Permutation_in; [apply sort_perm | exact H].
Qed.

End Keys.

Lemma valid_In {A} (x : A) l : In x (valid l) <-> In (Some x) l.
Proof.
  induction l as [|[y|] l IH]; simpl.
  - tauto.
  - rewrite IH. split; intros [H|H]; auto; [left; congruence | left; congruence].
  - rewrite IH. split; [auto | intros [H|H]; [discriminate | assumption]].
Qed.

Lemma option_Date_eqb_eq (a b : option Date) :
  option_eqb Date_eqb a b = true <-> a = b.
Proof.
  destruct a as [a|], b as [b|]; simpl.
  - rewrite Date_eqb_eq. split; congruence.
  - split; discriminate.
  - split; discriminate.
  - tauto.
Qed.

(* ================================================================== *)
(** ** The product dimension *)
(* ================================================================== *)

Lemma upsert_product_holds a c :
  holds_product a (dim_products (working (SQL.upsert_product a c))).
Proof.
  unfold SQL.upsert_product. simpl.
  destruct (existsb _ (dim_products (working c))) eqn:E.
  - split.
    + apply existsb_exists in E. destruct E as (r & Hr & Hhit).
      exists (mkProductRow (product_id r) a). split; [|reflexivity].
      apply in_map_iff. exists r. now rewrite Hhit.
    + intros r' Hr' Hcode. apply in_map_iff in Hr'.
      destruct Hr' as (r & <- & Hr).
      destruct (String.eqb (stock_code (product_attrs r)) (stock_code a)) eqn:Hh;
        [reflexivity|].
      apply String.eqb_neq in Hh. contradiction.
  - split.
    + exists (mkProductRow (seq_product_id c) a). split; [|reflexivity].
      apply in_or_app. right. now left.
    + intros r Hr Hcode. apply in_app_or in Hr. destruct Hr as [Hr|[<-|[]]];
        [|reflexivity].
      exfalso. apply not_true_iff_false in E. apply E.
      apply existsb_exists. exists r. split; [assumption|].
      now apply String.eqb_eq.
Qed.

Lemma upsert_product_keeps a b c :
  stock_code a <> stock_code b ->
  holds_product b (dim_products (working c)) ->
  holds_product b (dim_products (working (SQL.upsert_product a c))).
Proof.
  intros Hab [(r0 & Hr0 & Hb0) Hall]. unfold SQL.upsert_product. simpl.
  destruct (existsb _ (dim_products (working c))) eqn:E.
  - split.
    + exists r0. split; [|assumption]. apply in_map_iff. exists r0.
      split; [|assumption].
      replace (String.eqb (stock_code (product_attrs r0)) (stock_code a)) with false;
        [reflexivity|].
      symmetry. apply String.eqb_neq. rewrite Hb0. congruence.
    + intros r' Hr' Hcode. apply in_map_iff in Hr'.
      destruct Hr' as (r & <- & Hr).
      destruct (String.eqb (stock_code (product_attrs r)) (stock_code a)) eqn:Hh.
      * simpl in Hcode. contradiction.
      * now apply Hall.
  - split.
    + exists r0. split; [|assumption]. apply in_or_app. now left.
    + intros r Hr Hcode. apply in_app_or in Hr. destruct Hr as [Hr|[<-|[]]].
      * now apply Hall.
      * simpl in Hcode. contradiction.
Qed.

Lemma upserts_hold rows :
  forall c a,
    In a rows \/ holds_product a (dim_products (working c)) ->
    (forall a', In a' rows -> stock_code a' = stock_code a -> a' = a) ->
    holds_product a
      (dim_products (working (fold_left (fun c r => SQL.upsert_product r c) rows c))).
Proof.
  induction rows as [|r rows IH]; intros c a Ha Hfun; simpl.
  - destruct Ha as [[]|Ha]. exact Ha.
  - apply IH.
    + destruct Ha as [[->|Ha]|Ha].
      * right. apply upsert_product_holds.
      * now left.
      * right. destruct (String.eqb (stock_code r) (stock_code a)) eqn:E.
        -- apply String.eqb_eq in E. rewrite (Hfun r (or_introl eq_refl) E).
           apply upsert_product_holds.
        -- apply String.eqb_neq in E. now apply upsert_product_keeps.
    + intros a' Ha'. apply Hfun. now right.
Qed.

Lemma products_df_code clean a :
  In a (products_df clean) ->
  a = product_agg clean (stock_code a) /\ In (Some (stock_code a)) (map StockCode clean).
Proof.
  unfold products_df. intros H. apply in_map_iff in H.
  destruct H as (k & <- & Hk). split; [reflexivity|]. simpl.
  apply (group_keys_distinct String.eqb String.eqb_eq) in Hk.
  now apply valid_In.
Qed.

Lemma products_df_has clean code :
  In (Some code) (map StockCode clean) -> In (product_agg clean code) (products_df clean).
Proof.
  intros H. unfold products_df. apply in_map.
  apply (group_keys_distinct String.eqb String.eqb_eq). now apply valid_In.
Qed.

(** C8 (as amended).  After a successful [load_dimensions], for every
    item code of the clean batch, storage holds a product row for the
    code, and every product row of that code holds the first non-missing
    description among the batch records of the code, in batch order, and
    the mean of their unit prices, whatever the table held before: on
    conflict both columns are overwritten. *)
Theorem product_rows_hold_first_description :
  forall s s' clean,
    df_clean s = Some clean ->
    load_dimensions s = (Ret true, s') ->
    exists c',
      conn s' = Some c' /\
      forall code,
        In (Some code) (map StockCode clean) ->
        (exists r, In r (dim_products (committed c')) /\
                   stock_code (product_attrs r) = code) /\
        forall r,
          In r (dim_products (committed c')) ->
          stock_code (product_attrs r) = code ->
          description (product_attrs r)
          = first_valid (map Description (product_group clean code)) /\
          unit_price (product_attrs r)
          = mean (map UnitPrice (product_group clean code)).
Proof.
  intros s s' clean Hclean H.
  apply load_dimensions_ok in H.
  destruct H as (c & clean' & attrs & sc & Hc & Ho & Hclean' & Hattrs & ->).
  rewrite Hclean in Hclean'. injection Hclean' as <-.
  eexists. split; [reflexivity|].
  intros code Hcode. simpl.
  pose proof (upserts_hold (products_df clean)
                (loaded_customers clean (loaded_dates attrs c))
                (product_agg clean code)
                (or_introl (products_df_has clean code Hcode))) as Hh.
  destruct Hh as [(r0 & Hr0 & Ha0) Hall].
  { intros a' Ha' E. apply products_df_code in Ha'. destruct Ha' as [-> _].
    simpl in E. now rewrite E. }
  split.
  - exists r0. split; [exact Hr0|]. now rewrite Ha0.
  - intros r Hr Hk. rewrite (Hall r Hr); [split; reflexivity|]. exact Hk.
Qed.

(** C8, as stated, fails: of two clean records of one item code, the
    product row takes the description of the first, not of the latest. *)
Lemma product_row_keeps_first_description :
  fst Sample.renamed_run = true /\
  map Description (Sample.frame_of (snd Sample.renamed_run))
  = [Some "OLD NAME"; Some "NEW NAME"] /\
  last_valid (map Description (Sample.frame_of (snd Sample.renamed_run)))
  = Some "NEW NAME" /\
  option_map (fun t => map (fun r => description (product_attrs r)) (dim_products t))
             (committed_of (snd Sample.renamed_run))
  = Some [Some "OLD NAME"].
Proof.
  vm_compute. repeat split; reflexivity.
Qed.

Lemma product_rows_hold_first_description_witness :
  exists c',
    conn (snd (load_dimensions (Sample.before_dimension_load [] Sample.renamed_rows)))
    = Some c' /\
    exists r, In r (dim_products (committed c')) /\
              stock_code (product_attrs r) = "85123A".
Proof.
  assert (H : load_dimensions (Sample.before_dimension_load [] Sample.renamed_rows)
              = (Ret true,
                 snd (load_dimensions (Sample.before_dimension_load [] Sample.renamed_rows))))
    by (vm_compute; reflexivity).
  destruct (product_rows_hold_first_description
              (Sample.before_dimension_load [] Sample.renamed_rows) _
              (Sample.frame_of (Sample.before_dimension_load [] Sample.renamed_rows))
              eq_refl H) as (c' & Hc & Hall).
  exists c'. split; [exact Hc|].
  destruct (Hall "85123A") as [Hex _]; [|exact Hex].
  vm_compute. left. reflexivity.
Defined.

(* ================================================================== *)
(** ** Counts reported by the dimension load *)
(* ================================================================== *)

Lemma dim_dates_upsert_customers rows c :
  dim_dates (working (fold_left (fun c r => SQL.upsert_customer r c) rows c))
  = dim_dates (working c).
Proof.
  revert c. induction rows as [|r rows IH]; intros c; simpl; [reflexivity|].
  now rewrite IH.
Qed.

Lemma dim_dates_upsert_products rows c :
  dim_dates (working (fold_left (fun c r => SQL.upsert_product r c) rows c))
  = dim_dates (working c).
Proof.
  revert c. induction rows as [|r rows IH]; intros c; simpl; [reflexivity|].
  now rewrite IH.
Qed.

(** Rows of [dim_dates] stay: an insert keeps what is there. *)
Lemma insert_date_keeps row c d :
  rows_for_date d (dim_dates (working c)) <> [] ->
  rows_for_date d (dim_dates (working (SQL.insert_date row c))) <> [].
Proof.
  intros H.
  destruct (rows_for_date (full_date row) (dim_dates (working c))) eqn:E.
  - rewrite (insert_date_absent row c E). unfold rows_for_date in *.
    rewrite filter_app. intros F. apply app_eq_nil in F. tauto.
  - rewrite insert_date_present; [exact H|]. rewrite E. discriminate.
Qed.

Lemma insert_dates_present attrs :
  forall c a,
    In a attrs \/ rows_for_date (full_date a) (dim_dates (working c)) <> [] ->
    rows_for_date (full_date a)
      (dim_dates (working (fold_left (fun c a => SQL.insert_date a c) attrs c))) <> [].
Proof.
  induction attrs as [|b attrs IH]; intros c a Ha; simpl.
  - destruct Ha as [[]|Ha]. exact Ha.
  - apply IH. destruct Ha as [[->|Ha]|Ha].
    + right.
      destruct (rows_for_date (full_date a) (dim_dates (working c))) eqn:E.
      * rewrite (insert_date_absent a c E). unfold rows_for_date in *.
        rewrite filter_app. simpl. rewrite Date_eqb_refl.
        intros F. apply app_eq_nil in F. destruct F as [_ F]. discriminate.
      * rewrite insert_date_present; rewrite E; discriminate.
    + now left.
    + right. now apply insert_date_keeps.
Qed.

(** Loading dates that are all there already changes nothing. *)
Lemma insert_dates_again attrs :
  forall c,
    (forall a, In a attrs -> rows_for_date (full_date a) (dim_dates (working c)) <> []) ->
    dim_dates (working (fold_left (fun c a => SQL.insert_date a c) attrs c))
    = dim_dates (working c).
Proof.
  induction attrs as [|b attrs IH]; intros c H; simpl; [reflexivity|].
  assert (Hb : dim_dates (working (SQL.insert_date b c)) = dim_dates (working c)).
  { apply insert_date_present. apply H. now left. }
  rewrite IH; [exact Hb|].
  intros a Ha. rewrite Hb. apply H. now right.
Qed.

Lemma dim_dates_loaded clean attrs c :
  dim_dates (committed (loaded_dimensions clean attrs c))
  = dim_dates (working (fold_left (fun c a => SQL.insert_date a c) attrs c)) /\
  dim_dates (working (loaded_dimensions clean attrs c))
  = dim_dates (working (fold_left (fun c a => SQL.insert_date a c) attrs c)).
Proof.
  unfold loaded_dimensions, loaded_products, loaded_customers, loaded_dates.
  simpl. rewrite dim_dates_upsert_products. simpl.
  now rewrite dim_dates_upsert_customers.
Qed.

Lemma map_Some_inj {A} (l1 l2 : list A) : map Some l1 = map Some l2 -> l1 = l2.
Proof.
  revert l2. induction l1 as [|x l1 IH]; intros [|y l2] H; try discriminate.
  - reflexivity.
  - simpl in H. injection H as -> H. f_equal. now apply IH.
Qed.

Lemma valid_map_Some {A} (l : list A) : valid (map Some l) = l.
Proof. induction l as [|x l IH]; simpl; [reflexivity | now rewrite IH]. Qed.

(** The dates of a batch whose date rows are all there. *)
Lemma dates_df_distinct clean attrs :
  dates_df clean = map Some attrs ->
  exists dates,
    NoDup dates /\
    (forall d, In d dates <-> In (Some d) (map date_key clean)) /\
    List.length (dates_df clean) = List.length dates.
Proof.
  unfold dates_df. intros H.
  set (uniq := drop_duplicates (option_eqb Date_eqb) (map date_key clean)) in *.
  assert (Hu : uniq = map Some (map full_date attrs)).
  { clearbody uniq. revert attrs H.
    induction uniq as [|[d|] u IH]; intros [|a attrs] H; try discriminate.
    - reflexivity.
    - simpl in H. injection H as <- H. simpl. f_equal. now apply IH. }
  exists (map full_date attrs). split; [|split].
  - assert (N : NoDup uniq) by apply (keep_first_NoDup _ option_Date_eqb_eq).
    rewrite Hu in N. clear -N.
    induction attrs as [|a attrs IH]; simpl in *; [constructor|].
    inversion N as [|? ? Hn N']; subst. constructor; [|now apply IH].
    intros F. apply Hn. now apply in_map.
  - intros d. rewrite <- (drop_duplicates_In _ option_Date_eqb_eq).
    fold uniq. rewrite Hu. split; [apply in_map|].
    intros F. apply in_map_iff in F. destruct F as (x & E & F). congruence.
  - now rewrite !length_map, Hu, !length_map.
Qed.

(** C10.  After a successful [load_dimensions], [dates_loaded],
    [customers_loaded] and [products_loaded] are the numbers of distinct
    calendar dates, customer ids and item codes of the clean batch,
    whatever storage held and whatever was inserted.  Loading the same
    batch again reports the same [dates_loaded] although the date upsert
    then inserts nothing: [dim_dates] is as it was. *)
Theorem loaded_counts_are_distinct_keys :
  forall s s' clean,
    df_clean s = Some clean ->
    load_dimensions s = (Ret true, s') ->
    (exists dates,
       NoDup dates /\ (forall d, In d dates <-> In (Some d) (map date_key clean)) /\
       dates_loaded (stats s') = List.length dates) /\
    (exists ids,
       NoDup ids /\ (forall k, In k ids <-> In k (map CustomerID clean)) /\
       customers_loaded (stats s') = List.length ids) /\
    (exists codes,
       NoDup codes /\ (forall k, In k codes <-> In (Some k) (map StockCode clean)) /\
       products_loaded (stats s') = List.length codes) /\
    forall s'',
      load_dimensions s' = (Ret true, s'') ->
      dates_loaded (stats s'') = dates_loaded (stats s') /\
      option_map dim_dates (committed_of s'') = option_map dim_dates (committed_of s').
Proof.
  intros s s' clean Hclean H.
  apply load_dimensions_ok in H.
  destruct H as (c & clean' & attrs & sc & Hc & Ho & Hclean' & Hattrs & ->).
  rewrite Hclean in Hclean'. injection Hclean' as <-.
  split; [|split; [|split]].
  - destruct (dates_df_distinct clean attrs Hattrs) as (dates & N & Hin & Hlen).
    exists dates. auto.
  - exists (group_keys Z.eqb Z.leb (map CustomerID clean)).
    destruct (group_keys_distinct Z.eqb Z.eqb_eq Z.leb (map CustomerID clean)) as [N Hin].
    repeat split; try apply Hin; auto.
    simpl. unfold customers_df. now rewrite length_map.
  - exists (group_keys String.eqb String.leb (valid (map StockCode clean))).
    destruct (group_keys_distinct String.eqb String.eqb_eq String.leb
                (valid (map StockCode clean))) as [N Hin].
    repeat split; auto.
    + intros F. apply Hin in F. now apply valid_In.
    + intros F. apply Hin. now apply valid_In.
    + simpl. unfold products_df. now rewrite length_map.
  - intros s'' H2. apply load_dimensions_ok in H2.
    destruct H2 as (c2 & clean2 & attrs2 & sc2 & Hc2 & _ & Hclean2 & Hattrs2 & ->).
    simpl in Hc2, Hclean2. injection Hc2 as <-.
    rewrite Hclean in Hclean2. injection Hclean2 as <-.
    rewrite Hattrs in Hattrs2. apply map_Some_inj in Hattrs2. subst attrs2.
    split; [reflexivity|].
    change (Some (dim_dates (committed
                    (loaded_dimensions clean attrs
                       (set_script sc (loaded_dimensions clean attrs c)))))
            = Some (dim_dates (committed (loaded_dimensions clean attrs c)))).
    f_equal.
    destruct (dim_dates_loaded clean attrs c) as [E1 E2].
    destruct (dim_dates_loaded clean attrs
                (set_script sc (loaded_dimensions clean attrs c))) as [E3 _].
    rewrite E3, E1.
    rewrite insert_dates_again; [exact E2|].
    intros a Ha.
    change (rows_for_date (full_date a)
              (dim_dates (working (loaded_dimensions clean attrs c))) <> []).
    rewrite E2. apply insert_dates_present. now left.
Qed.

Lemma loaded_counts_are_distinct_keys_witness :
  exists dates : list Date,
    NoDup dates /\
    dates_loaded (stats (snd (load_dimensions
                                (Sample.before_dimension_load [] Sample.renamed_rows))))
    = List.length dates.
Proof.
  assert (H : load_dimensions (Sample.before_dimension_load [] Sample.renamed_rows)
              = (Ret true,
                 snd (load_dimensions (Sample.before_dimension_load [] Sample.renamed_rows))))
    by (vm_compute; reflexivity).
  destruct (loaded_counts_are_distinct_keys
              (Sample.before_dimension_load [] Sample.renamed_rows) _
              (Sample.frame_of (Sample.before_dimension_load [] Sample.renamed_rows))
              eq_refl H) as ((dates & N & _ & Hn) & _).
  exists dates. split; [exact N | exact Hn].
Defined.

(* ================================================================== *)
(** ** Stages: trace and recorded errors *)
(* ================================================================== *)

Lemma leaves_the_df_clean {X} (view : ETL -> X) : leaves view the_df_clean.
Proof.
  intros s r s'. unfold the_df_clean. destruct (df_clean s); intros H;
    now injection H as _ <-.
Qed.

Lemma leaves_resolve_all {X} (view : ETL -> X) :
  (forall sc b c s, conn s = Some c -> view (set_conn (Some (set_line sc b c)) s) = view s) ->
  forall rows acc, leaves view (resolve_all rows acc).
Proof.
  intros Hv rows. induction rows as [|row rows IH]; intros acc; simpl.
  - apply leaves_ret.
  - apply leaves_bind; [|intros o; apply IH].
    unfold resolve.
    apply leaves_bind; [now apply leaves_fetch|]. intros cr.
    apply leaves_bind.
    { destruct (StockCode row); [now apply leaves_fetch|].
      apply leaves_bind; [now apply leaves_request|]. intros _. apply leaves_raise. }
    intros pr. apply leaves_bind.
    { destruct (InvoiceDate row); [now apply leaves_fetch | apply leaves_raise]. }
    intros dr. destruct cr, pr, dr; apply leaves_ret.
Qed.

(** Decompose a goal [leaves view m] along the structure of [m]; the
    view is concrete and blind to the connection. *)
Ltac leave :=
  unfold execute_batch, execute_insert_date, commit, rollback, record_error;
  repeat first
    [ apply leaves_ret
    | apply leaves_raise
    | apply leaves_read
    | apply leaves_cursor
    | apply leaves_the_conn
    | apply leaves_the_df_clean
    | apply leaves_resolve_all; intros; reflexivity
    | apply leaves_fetch; intros; reflexivity
    | apply leaves_execute; intros; reflexivity
    | apply leaves_update; intros; reflexivity
    | apply leaves_for_each; intros
    | apply leaves_bind; [|intros]
    | apply leaves_try_except; [|intros]
    | apply leaves_staged; [intros; reflexivity|]
    | progress cbv zeta
    | match goal with
      | |- leaves _ (match ?x with _ => _ end) => destruct x
      end ].

Ltac only_true :=
  repeat first
    [ apply returns_only_ret; reflexivity
    | apply returns_only_raise
    | apply returns_only_bind; intros
    | progress cbv zeta
    | match goal with
      | |- returns_only _ (match ?x with _ => _ end) => destruct x
      end ].

(** A stage whose handler records the error and returns [False]. *)
Lemma recording_stage st label (body : M bool) (h : exn -> M bool) s r s' :
  error_label st = Some label ->
  leaves trace body -> leaves errors_of body ->
  returns_only (fun b => b = true) body ->
  (forall e, leaves trace (h e)) ->
  (forall e s1 r1 s2, h e s1 = (r1, s2) ->
     match r1 with
     | Ret true => False
     | Ret false => errors_of s2 = errors_of s1 ++ [(label ++ str e)%string]
     | Raise _ => True
     end) ->
  staged st (fun b => b) (try_except body h) s = (r, s') ->
  stage_step st s r s'.
Proof.
  intros Hl Ht He Hb Hht Hh H. split.
  - eapply staged_trace; [|exact H]. apply leaves_try_except; assumption.
  - apply staged_result in H. destruct H as (s0 & H & ->).
    change (errors_of (set_trace _ s0)) with (errors_of s0).
    unfold try_except in H. destruct (body s) as [[b|e] s1] eqn:Eb.
    + injection H as <- <-. rewrite (Hb _ _ _ Eb). eapply He, Eb.
    + specialize (Hh e s1 r s0 H). destruct r as [[|]|e']; [contradiction| |exact I].
      intros label' E. rewrite Hl in E. injection E as <-.
      exists (str e). rewrite Hh. f_equal. eapply He, Eb.
Qed.

Lemma plain_handler label e s1 r1 s2 :
  (record_error (label ++ str e) ;; ret false) s1 = (r1, s2) ->
  match r1 with
  | Ret true => False
  | Ret false => errors_of s2 = errors_of s1 ++ [(label ++ str e)%string]
  | Raise _ => True
  end.
Proof. intros H. injection H as <- <-. reflexivity. Qed.

Lemma rollback_handler label e s1 r1 s2 :
  (rollback ;; record_error (label ++ str e) ;; ret false) s1 = (r1, s2) ->
  match r1 with
  | Ret true => False
  | Ret false => errors_of s2 = errors_of s1 ++ [(label ++ str e)%string]
  | Raise _ => True
  end.
Proof.
  intros H. apply bind_raises_or_returns in H.
  destruct H as [(e' & _ & ->)|(s3 & Hr & H)]; [exact I|].
  injection H as <- <-.
  change (errors_of s3 ++ [(label ++ str e)%string] = errors_of s1 ++ [(label ++ str e)%string]).
  f_equal. revert Hr. generalize s1, (Ret tt : res unit), s3.
  change (leaves errors_of rollback). leave.
Qed.

Section StageSteps.
Variable to_datetime : string -> option Timestamp.

Lemma connect_step w s r s' : connect w s = (r, s') -> stage_step Connect s r s'.
Proof.
  apply (recording_stage Connect "Connection error: "); try reflexivity.
  - leave.
  - leave.
  - only_true.
  - intros e. leave.
  - apply plain_handler.
Qed.

Lemma extract_step w filepath s r s' :
  extract w filepath s = (r, s') -> stage_step Extract s r s'.
Proof.
  apply (recording_stage Extract "Extraction error: "); try reflexivity.
  - leave.
  - leave.
  - only_true.
  - intros e. leave.
  - apply plain_handler.
Qed.

Lemma transform_step s r s' :
  transform to_datetime s = (r, s') -> stage_step Transform s r s'.
Proof.
  apply (recording_stage Transform "Transformation error: "); try reflexivity.
  - leave.
  - leave.
  - only_true.
  - intros e. leave.
  - apply plain_handler.
Qed.

Lemma load_dimensions_step s r s' :
  load_dimensions s = (r, s') -> stage_step LoadDimensions s r s'.
Proof.
  apply (recording_stage LoadDimensions "Dimension load error: "); try reflexivity.
  - leave.
  - leave.
  - only_true.
  - intros e. leave.
  - apply rollback_handler.
Qed.

Lemma load_facts_step s r s' :
  load_facts s = (r, s') -> stage_step LoadFacts s r s'.
Proof.
  apply (recording_stage LoadFacts "Fact load error: "); try reflexivity.
  - leave.
  - leave.
  - only_true.
  - intros e. leave.
  - apply rollback_handler.
Qed.

(** [refresh_aggregates] records nothing, whatever its ending. *)
Lemma refresh_aggregates_step s r s' :
  refresh_aggregates s = (r, s') ->
  stage_step RefreshAggregates s r s' /\ errors_of s' = errors_of s.
Proof.
  intros H. assert (E : errors_of s' = errors_of s).
  { revert H. generalize s, r, s'. change (leaves errors_of refresh_aggregates).
    unfold refresh_aggregates. leave. }
  split; [|exact E]. split.
  - eapply staged_trace; [|exact H]. leave.
  - destruct r as [[|]|e]; [exact E | intros label F; discriminate | exact I].
Qed.

(** [validate] always returns, records nothing and commits nothing. *)
Lemma validate_step s r s' :
  validate s = (r, s') ->
  exists v, r = Ret v /\
    trace s' = trace s ++ [(Validate, if notna v then Succeeded else Failed)] /\
    stats s' = stats s /\
    committed_of s' = committed_of s.
Proof.
  intros H.
  assert (Hr : exists v, r = Ret v).
  { apply staged_result in H. destruct H as (s0 & H & _).
    unfold try_except in H.
    match type of H with
    | context [match ?body s with _ => _ end] => destruct (body s) as [[v|e] s1]
    end; injection H as <- _; eauto. }
  destruct Hr as (v & ->). exists v. split; [reflexivity|]. split; [|split].
  - pose proof H as H'. unfold validate in H'.
    refine (staged_trace Validate notna _ s (Ret v) s' _ H'). leave.
  - revert H. generalize s, (Ret v : res (option ValidationResults)), s'.
    change (leaves stats validate). unfold validate. leave.
  - revert H. generalize s, (Ret v : res (option ValidationResults)), s'.
    change (leaves committed_of validate). unfold validate.
    apply leaves_staged; [reflexivity|].
    apply leaves_try_except; [|intros e; apply leaves_ret].
    apply leaves_bind; [apply leaves_cursor|]. intros _.
    repeat (apply leaves_bind; [apply committed_fetch|]; intros).
    apply leaves_ret.
Qed.

End StageSteps.

(* ================================================================== *)
(** ** The orchestrated run *)
(* ================================================================== *)

Lemma chain_step (m k : M bool) s r s' :
  (ok <- m ;; if negb ok then ret false else k) s = (r, s') ->
  (exists s1, m s = (Ret true, s1) /\ k s1 = (r, s')) \/
  (exists r0, m s = (r0, s') /\ r0 <> Ret true /\ result_of r = false /\
              r = r0).
Proof.
  unfold bind. destruct (m s) as [[[|]|e] s1]; simpl; intros H.
  - left. eauto.
  - right. injection H as <- <-. exists (Ret false). repeat split. discriminate.
  - right. injection H as <- <-. exists (Raise e). repeat split. discriminate.
Qed.

Lemma step_succeeded st s s0 s1 done :
  trace s0 = succeeded done -> errors_of s0 = errors_of s ->
  stage_step st s0 (Ret true) s1 ->
  trace s1 = succeeded (done ++ [st]) /\ errors_of s1 = errors_of s.
Proof.
  intros Ht He [T E]. split.
  - rewrite T, Ht. unfold succeeded. now rewrite map_app.
  - congruence.
Qed.

Lemma step_failed st rest s s0 r s1 done :
  trace s0 = succeeded done -> errors_of s0 = errors_of s ->
  done ++ st :: rest = stage_order -> st <> Validate ->
  stage_step st s0 r s1 -> r <> Ret true ->
  stopped_at s false s1.
Proof.
  intros Ht He Ho Hv [T E] Hr.
  exists done, st, (ending_of (fun b => b) r), rest.
  split; [now rewrite T, Ht|]. split; [exact Ho|]. split; [exact Hv|].
  split; [|split; [reflexivity|]].
  - destruct r as [[|]|e]; simpl; congruence.
  - destruct r as [[|]|e]; simpl; intros F; try discriminate.
    intros label Hl. destruct (E label Hl) as (msg & Hm). exists msg. congruence.
Qed.

Lemma extract_ok w filepath s s' :
  extract w filepath s = (Ret true, s') ->
  exists raw, df_raw s' = Some raw /\ extracted s' = List.length raw.
Proof.
  unfold extract, staged, try_except, bind, update, ret, raise, record_error.
  destruct (read_csv w filepath) as [raw|]; [|discriminate].
  destruct (comparable (map raw_InvoiceDate raw)); simpl; intros H; [|discriminate H].
  injection H as <-. exists raw. auto.
Qed.

Lemma extracted_load_dimensions : leaves extracted load_dimensions.
Proof. unfold load_dimensions. leave. Qed.

Lemma extracted_load_facts : leaves extracted load_facts.
Proof. unfold load_facts. leave. Qed.

Lemma extracted_refresh_aggregates : leaves extracted refresh_aggregates.
Proof. unfold refresh_aggregates. leave. Qed.

Lemma close_keeps s : trace (close s) = trace s /\ stats (close s) = stats s.
Proof. unfold close. destruct (conn s); split; reflexivity. Qed.

Section RunFacts.
Variable to_datetime : string -> option Timestamp.

(** How the body of [run] can end. *)
Lemma run_body_ends w filepath s r s' :
  trace s = [] ->
  run_body to_datetime w filepath s = (r, s') ->
  stopped_at s (result_of r) s' \/ completed s (result_of r) s'.
Proof.
  intros Ht H. unfold run_body in H.
  assert (T0 : trace s = succeeded []) by exact Ht.
  assert (E0 : errors_of s = errors_of s) by reflexivity.
  (* connect *)
  apply chain_step in H. destruct H as [(s1 & S1 & H)|(r0 & S1 & Hr & -> & ->)].
  2:{ left. apply connect_step in S1.
      exact (step_failed Connect [Extract; Transform; LoadDimensions; LoadFacts; RefreshAggregates; Validate] s s _ _
               [] T0 E0 eq_refl ltac:(discriminate) S1 Hr). }
  apply connect_step in S1.
  destruct (step_succeeded _ _ _ _ _ T0 E0 S1) as [T1 E1].
  (* extract *)
  apply chain_step in H. destruct H as [(s2 & S2 & H)|(r0 & S2 & Hr & -> & ->)].
  2:{ left. apply extract_step in S2.
      exact (step_failed Extract [Transform; LoadDimensions; LoadFacts; RefreshAggregates; Validate] s s1 _ _
               [Connect] T1 E1 eq_refl ltac:(discriminate) S2 Hr). }
  pose proof (extract_ok _ _ _ _ S2) as (raw & Hraw & Hn).
  apply extract_step in S2.
  destruct (step_succeeded _ _ _ _ _ T1 E1 S2) as [T2 E2].
  (* transform *)
  apply chain_step in H. destruct H as [(s3 & S3 & H)|(r0 & S3 & Hr & -> & ->)].
  2:{ left. apply transform_step in S3.
      exact (step_failed Transform [LoadDimensions; LoadFacts; RefreshAggregates; Validate] s s2 _ _
               [Connect; Extract] T2 E2 eq_refl ltac:(discriminate) S3 Hr). }
  assert (N3 : extracted s3 <> 0%nat).
  { pose proof (transform_ok _ _ _ S3) as (raw' & clean & Hraw' & Hne & _ & ->).
    change (extracted s2 <> 0%nat). rewrite Hn.
    rewrite Hraw in Hraw'. injection Hraw' as <-.
    destruct raw; [congruence | discriminate]. }
  apply transform_step in S3.
  destruct (step_succeeded _ _ _ _ _ T2 E2 S3) as [T3 E3].
  (* load_dimensions *)
  apply chain_step in H. destruct H as [(s4 & S4 & H)|(r0 & S4 & Hr & -> & ->)].
  2:{ left. apply load_dimensions_step in S4.
      exact (step_failed LoadDimensions [LoadFacts; RefreshAggregates; Validate] s s3 _ _
               [Connect; Extract; Transform] T3 E3 eq_refl ltac:(discriminate) S4 Hr). }
  pose proof (extracted_load_dimensions _ _ _ S4) as N4.
  apply load_dimensions_step in S4.
  destruct (step_succeeded _ _ _ _ _ T3 E3 S4) as [T4 E4].
  (* load_facts *)
  apply chain_step in H. destruct H as [(s5 & S5 & H)|(r0 & S5 & Hr & -> & ->)].
  2:{ left. apply load_facts_step in S5.
      exact (step_failed LoadFacts [RefreshAggregates; Validate] s s4 _ _
               [Connect; Extract; Transform; LoadDimensions] T4 E4 eq_refl ltac:(discriminate) S5 Hr). }
  pose proof (extracted_load_facts _ _ _ S5) as N5.
  apply load_facts_step in S5.
  destruct (step_succeeded _ _ _ _ _ T4 E4 S5) as [T5 E5].
  (* refresh_aggregates *)
  apply chain_step in H. destruct H as [(s6 & S6 & H)|(r0 & S6 & Hr & -> & ->)].
  2:{ left. apply refresh_aggregates_step in S6. destruct S6 as [S6 _].
      exact (step_failed RefreshAggregates [Validate] s s5 _ _
               [Connect; Extract; Transform; LoadDimensions; LoadFacts] T5 E5 eq_refl ltac:(discriminate) S6 Hr). }
  pose proof (extracted_refresh_aggregates _ _ _ S6) as N6.
  apply refresh_aggregates_step in S6. destruct S6 as [S6 _].
  destruct (step_succeeded _ _ _ _ _ T5 E5 S6) as [T6 E6].
  (* validate, then the summary *)
  right. unfold bind in H.
  destruct (validate s6) as [rv s7] eqn:S7.
  apply validate_step in S7. destruct S7 as (v & -> & T7 & St7 & _).
  unfold read in H.
  assert (N7 : extracted s7 <> 0%nat).
  { unfold extracted in *. rewrite St7. congruence. }
  unfold extracted in N7. apply Nat.eqb_neq in N7. rewrite N7 in H.
  injection H as <- <-.
  exists (if notna v then Succeeded else Failed).
  split; [now rewrite T7, T6|]. split; [destruct (notna v); discriminate|].
  split; [reflexivity|]. unfold errors_of in *. now rewrite St7.
Qed.

Lemma run_ends w filepath s b s' :
  trace s = [] ->
  run to_datetime w filepath s = (b, s') ->
  stopped_at s b s' \/ completed s b s'.
Proof.
  intros Ht H. unfold run, try_except in H.
  destruct (run_body to_datetime w filepath s) as [r s1] eqn:Eb.
  apply (run_body_ends _ _ _ _ _ Ht) in Eb.
  destruct (close_keeps s1) as [Tc Sc].
  assert (Hb : b = result_of r /\ s' = close s1).
  { destruct r as [b0|e]; simpl in H; injection H as <- <-; auto. }
  destruct Hb as [-> ->].
  destruct Eb as [(done & st & e & rest & T & Ho & Hv & He & Hr & Herr)|(e & T & He & Hr & Herr)].
  - left. exists done, st, e, rest. unfold errors_of in *. rewrite Tc, Sc.
    repeat (split; [assumption|]). assumption.
  - right. exists e. unfold errors_of in *. rewrite Tc, Sc.
    repeat (split; [assumption|]). assumption.
Qed.

End RunFacts.

Lemma validate_not_done done st rest :
  done ++ st :: rest = stage_order -> ~ In Validate done.
Proof.
  unfold stage_order. intros H F.
  do 6 (destruct done as [|x done];
        [destruct F|
         simpl in H; injection H as -> H;
         destruct F as [F|F]; [discriminate|]]).
  destruct done as [|x done]; [destruct F|].
  simpl in H. injection H as _ H. destruct done; discriminate.
Qed.

Lemma in_succeeded st e done : In (st, e) (succeeded done) -> e = Succeeded /\ In st done.
Proof.
  unfold succeeded. intros H. apply in_map_iff in H.
  destruct H as (x & E & Hx). injection E as -> <-. auto.
Qed.

Section RunTheorems.
Variable to_datetime : string -> option Timestamp.

(** C5 (as amended).  In a run, the stages run in pipeline order.  If a
    stage before Validate (Connect, Extract, Transform, LoadDimensions,
    LoadFacts, RefreshAggregates) does not succeed, it is the last stage
    that runs and the run result is failure; and when Connect, Extract,
    Transform, LoadDimensions or LoadFacts returns [False], its error is
    recorded in the statistics under the stage's label. *)
Theorem run_stops_at_first_failure :
  forall w filepath s b s',
    trace s = [] ->
    run to_datetime w filepath s = (b, s') ->
    (exists rest, map fst (trace s') ++ rest = stage_order) /\
    forall st e,
      In (st, e) (trace s') -> e <> Succeeded -> st <> Validate ->
      (exists before, trace s' = before ++ [(st, e)]) /\
      b = false /\
      (e = Failed ->
       forall label, error_label st = Some label ->
                     exists msg, errors_of s' = errors_of s ++ [(label ++ msg)%string]).
Proof.
  intros w filepath s b s' Ht H.
  destruct (run_ends to_datetime w filepath s b s' Ht H)
    as [(done & st0 & e0 & rest & T & Ho & Hv & He & Hb & Herr)|(e0 & T & He & Hb & Herr)].
  - split.
    + exists rest. rewrite T, map_app. unfold succeeded. rewrite map_map. simpl.
      rewrite map_id, <- app_assoc. exact Ho.
    + intros st e Hin Hne Hnv. rewrite T in Hin. apply in_app_or in Hin.
      destruct Hin as [Hin|[Hin|[]]].
      * apply in_succeeded in Hin. destruct Hin as [-> _]. congruence.
      * injection Hin as -> ->. split; [eauto|]. split; assumption.
  - split.
    + exists []. rewrite T. reflexivity.
    + intros st e Hin Hne Hnv. rewrite T in Hin. apply in_app_or in Hin.
      destruct Hin as [Hin|[Hin|[]]].
      * apply in_succeeded in Hin. destruct Hin as [-> _]. congruence.
      * injection Hin as <- _. congruence.
Qed.

(** C9 (as amended).  The validator never makes the run fail.  It
    always returns and commits nothing.  On an open connection its
    result is a mapping when storage serves its six queries, and the
    empty mapping as soon as storage does not serve one of them, be it
    the first or the last; it is the empty mapping too when the
    connection is closed or was never made.  In a run, whenever
    validation ran, whatever it found and whether or not storage could
    be reached, validation returned and the run result is success. *)
Theorem validation_never_fails_the_run :
  (forall s r s',
     validate s = (r, s') ->
     exists v, r = Ret v /\ committed_of s' = committed_of s) /\
  (forall s c,
     conn s = Some c -> closed c = false ->
     (serves 6 c = true -> exists v, fst (validate s) = Ret (Some v)) /\
     (serves 6 c = false -> fst (validate s) = Ret None)) /\
  (forall s,
     conn s = None \/ (exists c, conn s = Some c /\ closed c = true) ->
     fst (validate s) = Ret None) /\
  (forall w filepath s b s',
     trace s = [] ->
     run to_datetime w filepath s = (b, s') ->
     forall e, In (Validate, e) (trace s') -> b = true /\ e <> Escaped).
Proof.
  split; [|split; [|split]].
  - intros s r s' H. apply validate_step in H.
    destruct H as (v & -> & _ & Hs & Hc). eauto.
  - intros s c Hc Ho.
    destruct s as [eng cn raw clean st tr]. destruct c as [cm wk sd sp scr cl].
    simpl in Hc, Ho. subst cn cl.
    unfold serves.
    cbv [validate staged try_except bind cursor fetch request the_conn update ret raise
         conn closed script set_conn set_script set_line working committed
         seq_date_id seq_product_id].
    repeat (match goal with
            | |- context [match ?x with [] => _ | _ :: _ => _ end] =>
                is_var x; destruct x as [|[|?|?] ?]
            end; cbn);
      (split; intros H; first [discriminate H | reflexivity | eexists; reflexivity]).
  - intros s Hno. destruct s as [eng cn raw clean st tr].
    destruct Hno as [Hc|(c & Hc & Ho)]; simpl in Hc; subst cn; [reflexivity|].
    destruct c as [cm wk sd sp scr cl]. simpl in Ho. subst cl. reflexivity.
  - intros w filepath s b s' Ht H e Hin.
    destruct (run_ends to_datetime w filepath s b s' Ht H)
      as [(done & st0 & e0 & rest & T & Ho & Hv & He & Hb & Herr)|(e0 & T & He & Hb & Herr)].
    + exfalso. rewrite T in Hin. apply in_app_or in Hin.
      destruct Hin as [Hin|[Hin|[]]].
      * apply in_succeeded in Hin. destruct Hin as [_ Hin].
        exact (validate_not_done done st0 rest Ho Hin).
      * injection Hin as -> _. congruence.
    + rewrite T in Hin. apply in_app_or in Hin.
      destruct Hin as [Hin|[Hin|[]]].
      * apply in_succeeded in Hin. destruct Hin as [_ Hin]. simpl in Hin.
        repeat (destruct Hin as [Hin|Hin]; [discriminate|]). destruct Hin.
      * injection Hin as <-. auto.
Qed.

End RunTheorems.

(** C5, as stated, fails for the stage Validate: storage fails the first
    query of [validate]; the stage ends without success, yet the run
    result is success and no error is recorded. *)
Lemma failed_validation_does_not_fail_the_run :
  fst Sample.unreachable_at_validation = true /\
  trace (snd Sample.unreachable_at_validation)
  = [(Connect, Succeeded); (Extract, Succeeded); (Transform, Succeeded);
     (LoadDimensions, Succeeded); (LoadFacts, Succeeded);
     (RefreshAggregates, Succeeded); (Validate, Failed)] /\
  errors (stats (snd Sample.unreachable_at_validation)) = [].
Proof.
  vm_compute. repeat split; reflexivity.
Qed.

Lemma run_stops_at_first_failure_witness :
  trace init = [] /\
  (exists rest,
     map fst (trace (snd Sample.unreachable_at_validation)) ++ rest = stage_order) /\
  In (LoadFacts, Failed) (trace (snd Sample.no_code_run)) /\
  (exists before, trace (snd Sample.no_code_run) = before ++ [(LoadFacts, Failed)]) /\
  fst Sample.no_code_run = false /\
  exists msg,
    errors_of (snd Sample.no_code_run)
    = errors_of init ++ [("Fact load error: " ++ msg)%string].
Proof.
  split; [reflexivity|]. split.
  - assert (H : run Reference.iso_datetime
                  (Sample.world (repeat Done 13
                                 ++ [Fails "server closed the connection unexpectedly"])
                                Sample.four_rows)
                  Sample.path init
                = (fst Sample.unreachable_at_validation,
                   snd Sample.unreachable_at_validation))
      by (vm_compute; reflexivity).
    destruct (run_stops_at_first_failure Reference.iso_datetime _ _ init _ _ eq_refl H)
      as [Hrest _].
    exact Hrest.
  - assert (H : run Reference.iso_datetime
                  (Sample.world [] [Sample.row_a; Sample.row_no_code]) Sample.path init
                = (fst Sample.no_code_run, snd Sample.no_code_run))
      by (vm_compute; reflexivity).
    assert (Hin : In (LoadFacts, Failed) (trace (snd Sample.no_code_run)))
      by (vm_compute; do 4 right; left; reflexivity).
    split; [exact Hin|].
    destruct (run_stops_at_first_failure Reference.iso_datetime _ _ init _ _ eq_refl H)
      as [_ Hstop].
    destruct (Hstop LoadFacts Failed Hin ltac:(discriminate) ltac:(discriminate))
      as (Hlast & Hb & Herr).
    split; [exact Hlast|]. split; [exact Hb|].
    exact (Herr eq_refl _ eq_refl).
Defined.

(** C9, as stated, fails: storage is lost during validation (its last
    query fails); [validate] gives the empty mapping, the run result is
    success and no error is recorded. *)
Lemma lost_storage_is_not_signalled :
  fst (validate Sample.before_validation) = Ret None /\
  fst Sample.lost_during_validation = true /\
  In (Validate, Failed) (trace (snd Sample.lost_during_validation)) /\
  errors (stats (snd Sample.lost_during_validation)) = [].
Proof.
  vm_compute. repeat split; try reflexivity. do 6 right. left. reflexivity.
Qed.

Lemma validation_never_fails_the_run_witness :
  trace init = [] /\
  option_map (serves 5) (conn Sample.before_validation) = Some true /\
  fst (validate Sample.before_validation) = Ret None /\
  In (Validate, Failed) (trace (snd Sample.lost_during_validation)) /\
  fst Sample.lost_during_validation = true.
Proof.
  split; [reflexivity|]. split; [vm_compute; reflexivity|].
  destruct (validation_never_fails_the_run Reference.iso_datetime)
    as (_ & Hquery & _ & Hrun).
  split.
  { destruct (conn Sample.before_validation) as [c|] eqn:Ec;
      [|vm_compute in Ec; discriminate Ec].
    pose proof Ec as Ec'. vm_compute in Ec'. injection Ec' as Ec'. subst c.
    exact (proj2 (Hquery _ _ Ec eq_refl) eq_refl). }
  assert (H : run Reference.iso_datetime
                (Sample.world (repeat Done 23 ++ [Fails "could not receive data from server"])
                              Sample.renamed_rows)
                Sample.path init
              = (fst Sample.lost_during_validation, snd Sample.lost_during_validation))
    by (vm_compute; reflexivity).
  assert (Hin : In (Validate, Failed) (trace (snd Sample.lost_during_validation)))
    by (vm_compute; do 6 right; left; reflexivity).
  split; [exact Hin|].
  destruct (Hrun _ _ init _ _ eq_refl H Failed Hin) as (Hb & _).
  exact Hb.
Defined.


(* ================================================================== *)
(** ** The pipeline when storage serves every request *)
(* ================================================================== *)

Lemma for_each_insert_dates attrs s :
  for_each (map Some attrs) execute_insert_date s
  = for_each attrs (fun a => execute (SQL.insert_date a)) s.
Proof.
  revert s. induction attrs as [|a attrs IH]; intros s; [reflexivity|].
  simpl. unfold bind. destruct (execute (SQL.insert_date a) s) as [[[]|e] s1];
    [apply IH | reflexivity].
Qed.

Lemma fold_frame {A} (f : A -> Connection -> Connection) rows c :
  (forall r c, script (f r c) = script c /\ closed (f r c) = closed c) ->
  script (fold_left (fun c r => f r c) rows c) = script c /\
  closed (fold_left (fun c r => f r c) rows c) = closed c.
Proof.
  intros Hf. revert c. induction rows as [|r rows IH]; intros c; simpl; [auto|].
  destruct (IH (f r c)) as [H1 H2]. destruct (Hf r c) as [H3 H4].
  split; congruence.
Qed.

Lemma loaded_dates_idle attrs c :
  closed c = false -> script c = [] ->
  closed (loaded_dates attrs c) = false /\ script (loaded_dates attrs c) = [].
Proof.
  intros Ho Hs. unfold loaded_dates.
  destruct (fold_frame SQL.insert_date attrs c (fun r c0 => conj eq_refl eq_refl))
    as [H1 H2].
  simpl. split; congruence.
Qed.

Lemma loaded_customers_idle clean c :
  closed c = false -> script c = [] ->
  closed (loaded_customers clean c) = false /\ script (loaded_customers clean c) = [].
Proof.
  intros Ho Hs. unfold loaded_customers.
  destruct (fold_frame SQL.upsert_customer (customers_df clean) c
              (fun r c0 => conj eq_refl eq_refl)) as [H1 H2].
  simpl. split; congruence.
Qed.

Lemma loaded_products_idle clean c :
  closed c = false -> script c = [] ->
  closed (loaded_products clean c) = false /\ script (loaded_products clean c) = [].
Proof.
  intros Ho Hs. unfold loaded_products.
  destruct (fold_frame SQL.upsert_product (products_df clean) c
              (fun r c0 => conj eq_refl eq_refl)) as [H1 H2].
  simpl. split; congruence.
Qed.

Lemma fold_idle {A} (f : A -> Connection -> Connection) rows c :
  (forall r c, script (f r c) = script c /\ closed (f r c) = closed c) ->
  closed c = false -> script c = [] ->
  closed (fold_left (fun c r => f r c) rows c) = false /\
  script (fold_left (fun c r => f r c) rows c) = [].
Proof.
  intros Hf Ho Hs. destruct (fold_frame f rows c Hf) as [H1 H2]. split; congruence.
Qed.

Lemma commit_idle s c :
  conn s = Some c -> closed c = false -> script c = [] ->
  commit s = (Ret tt, set_conn (Some (publish c)) s).
Proof. apply execute_idle. Qed.

Lemma load_dimensions_idle s c clean attrs :
  conn s = Some c -> closed c = false -> script c = [] ->
  df_clean s = Some clean ->
  dates_df clean = map Some attrs ->
  load_dimensions s
  = (Ret true,
     set_trace (trace s ++ [(LoadDimensions, Succeeded)])
       (set_conn (Some (loaded_dimensions clean attrs c))
          (set_stats
             (with_products_loaded (List.length (products_df clean))
                (with_customers_loaded (List.length (customers_df clean))
                   (with_dates_loaded (List.length (dates_df clean)) (stats s))))
             s))).
Proof.
  intros Hc Ho Hs Hclean Hattrs.
  destruct (fold_idle SQL.insert_date attrs c (fun r c0 => conj eq_refl eq_refl) Ho Hs)
    as [Ho0 Hs0].
  destruct (loaded_dates_idle attrs c Ho Hs) as [Ho1 Hs1].
  destruct (fold_idle SQL.upsert_customer (customers_df clean) _
              (fun r c0 => conj eq_refl eq_refl) Ho1 Hs1) as [Ho1' Hs1'].
  destruct (loaded_customers_idle clean _ Ho1 Hs1) as [Ho2 Hs2].
  destruct (fold_idle SQL.upsert_product (products_df clean) _
              (fun r c0 => conj eq_refl eq_refl) Ho2 Hs2) as [Ho2' Hs2'].
  unfold load_dimensions, staged, try_except.
  unfold bind at 1. unfold cursor, bind at 1, the_conn. rewrite Hc, Ho. simpl.
  unfold bind at 1, the_df_clean. rewrite Hclean.
  rewrite Hattrs.
  (* dates *)
  unfold bind at 1. rewrite for_each_insert_dates.
  rewrite (for_each_execute_idle SQL.insert_date attrs s c
             (fun r c0 => conj eq_refl eq_refl) Hc Ho Hs).
  unfold bind at 1.
  rewrite (commit_idle (set_conn (Some _) s) _ eq_refl Ho0 Hs0).
  fold (loaded_dates attrs c).
  unfold bind at 1, update at 1.
  (* customers *)
  unfold bind at 1.
  rewrite (for_each_execute_idle SQL.upsert_customer (customers_df clean)
             (set_stats _ (set_conn (Some (loaded_dates attrs c)) s))
             (loaded_dates attrs c) (fun r c0 => conj eq_refl eq_refl) eq_refl Ho1 Hs1).
  unfold bind at 1.
  rewrite (commit_idle (set_conn (Some _) _) _ eq_refl Ho1' Hs1').
  fold (loaded_customers clean (loaded_dates attrs c)).
  unfold bind at 1, update at 1.
  (* products *)
  unfold bind at 1.
  rewrite (for_each_execute_idle SQL.upsert_product (products_df clean)
             (set_stats _ (set_conn (Some (loaded_customers clean (loaded_dates attrs c))) _))
             (loaded_customers clean (loaded_dates attrs c))
             (fun r c0 => conj eq_refl eq_refl) eq_refl Ho2 Hs2).
  unfold bind at 1.
  rewrite (commit_idle (set_conn (Some _) _) _ eq_refl Ho2' Hs2').
  reflexivity.
Qed.

Lemma load_facts_idle s c clean :
  conn s = Some c -> closed c = false -> script c = [] ->
  df_clean s = Some clean ->
  Forall (fun row => StockCode row <> None /\ InvoiceDate row <> None) clean ->
  load_facts s
  = (Ret true,
     set_trace (trace s ++ [(LoadFacts, Succeeded)])
       (set_conn
          (Some (publish (fold_left (fun c p => SQL.insert_facts p c)
                            (paginate 1000 [] (valid (map (resolved (working c)) clean)))
                            c)))
          (set_stats
             (with_transactions_loaded
                (List.length (valid (map (resolved (working c)) clean))) (stats s))
             s))).
Proof.
  intros Hc Ho Hs Hclean Hkeys.
  destruct (fold_idle SQL.insert_facts
              (paginate 1000 [] (valid (map (resolved (working c)) clean))) c
              (fun r c0 => conj eq_refl eq_refl) Ho Hs) as [Ho1 Hs1].
  unfold load_facts, staged, try_except.
  unfold bind at 1. unfold cursor, bind at 1, the_conn. rewrite Hc, Ho. simpl.
  unfold bind at 1, the_df_clean. rewrite Hclean.
  unfold bind at 1. rewrite (resolve_all_idle clean [] s c Hc Ho Hs Hkeys). simpl.
  unfold bind at 1, execute_batch.
  rewrite (for_each_execute_idle SQL.insert_facts _ s c
             (fun r c0 => conj eq_refl eq_refl) Hc Ho Hs).
  unfold bind at 1.
  rewrite (commit_idle (set_conn (Some _) s) _ eq_refl Ho1 Hs1).
  reflexivity.
Qed.

Lemma refresh_aggregates_idle s c :
  conn s = Some c -> closed c = false -> script c = [] ->
  refresh_aggregates s
  = (Ret true,
     set_trace (trace s ++ [(RefreshAggregates, Succeeded)])
       (set_conn (Some (publish c)) s)).
Proof.
  intros Hc Ho Hs.
  unfold refresh_aggregates, staged, try_except.
  unfold bind at 1. unfold cursor, bind at 1, the_conn. rewrite Hc, Ho. simpl.
  unfold bind at 1. rewrite (execute_idle (fun c => c) s c Hc Ho Hs).
  unfold bind at 1.
  rewrite (commit_idle (set_conn (Some c) s) c eq_refl Ho Hs).
  reflexivity.
Qed.

Lemma validate_idle s c :
  conn s = Some c -> closed c = false -> script c = [] ->
  exists v,
    validate s = (Ret (Some v), set_trace (trace s ++ [(Validate, Succeeded)]) s).
Proof.
  intros Hc Ho Hs. eexists.
  unfold validate, staged, try_except.
  unfold bind at 1. unfold cursor, bind at 1, the_conn. rewrite Hc, Ho. simpl.
  do 6 (unfold bind at 1; rewrite (fetch_idle _ s c Hc Ho Hs)).
  reflexivity.
Qed.

Lemma connect_served w srv s :
  server w = Some srv ->
  connect w s
  = (Ret true,
     set_trace (trace s ++ [(Connect, Succeeded)])
       (set_conn (Some (mkConnection (srv_tables srv) (srv_tables srv)
                          (srv_seq_date_id srv) (srv_seq_product_id srv)
                          (srv_script srv) false))
          (set_engine true s))).
Proof.
  intros H. unfold connect, staged, try_except, bind, update. rewrite H. reflexivity.
Qed.

Lemma extract_read w filepath df s :
  read_csv w filepath = Some df ->
  comparable (map raw_InvoiceDate df) = true ->
  extract w filepath s
  = (Ret true,
     set_trace (trace s ++ [(Extract, Succeeded)])
       (set_stats (with_rows_extracted (List.length df) (stats s))
          (set_df_raw (Some df) s))).
Proof.
  intros H Hc. unfold extract, staged, try_except, bind, update.
  rewrite H. cbn. rewrite Hc. reflexivity.
Qed.

Lemma RawRecord_eqb_refl a : RawRecord_eqb a a = true.
Proof.
  unfold RawRecord_eqb.
  assert (S : forall o : option string, option_eqb String.eqb o o = true)
    by (intros [x|]; simpl; [apply String.eqb_refl | reflexivity]).
  assert (Q : forall o : option Q, option_eqb Qeq_bool o o = true)
    by (intros [x|]; simpl; [apply Qeq_bool_refl | reflexivity]).
  now rewrite !S, Q, Z.eqb_refl.
Qed.

Section Scenario.
Variable to_datetime : string -> option Timestamp.

Lemma transform_cleaned s raw clean :
  df_raw s = Some raw -> raw <> [] ->
  clean_frame to_datetime raw = Some clean ->
  transform to_datetime s
  = (Ret true,
     set_trace (trace s ++ [(Transform, Succeeded)])
       (set_stats (with_rows_after_cleaning (List.length clean) (stats s))
          (set_df_clean (Some clean) s))).
Proof.
  intros Hraw Hne Hc. unfold transform, staged, try_except, bind, read.
  rewrite Hraw, Hc. destruct raw; [congruence | reflexivity].
Qed.

Lemma convert_all_fails l :
  convert_all to_datetime l = None -> exists x, In x l /\ convert to_datetime x = None.
Proof.
  induction l as [|r l IH]; simpl; [discriminate|].
  destruct (convert to_datetime r) eqn:E; [|intros _; exists r; auto].
  destruct (convert_all to_datetime l); [discriminate|].
  intros _. destruct (IH eq_refl) as (x & Hx & Hn). exists x. auto.
Qed.

(** The four rows of the scenario clean to the record of the normal row. *)
Lemma scenario_clean_frame a c d ca :
  keeps a = true -> clean_row to_datetime a = Some ca ->
  raw_CustomerID c = None ->
  raw_InvoiceNo d = Some "C1001" ->
  (notna (raw_CustomerID d) = true -> notna (raw_Description d) = true ->
   convert to_datetime d <> None) ->
  clean_frame to_datetime [a; a; c; d] = Some [ca].
Proof.
  intros Ka Hca Hc Hd Hconv.
  assert (Kc : keeps c = false) by (unfold keeps; now rewrite Hc).
  assert (Kd : keeps d = false).
  { unfold keeps, raw_not_cancelled. rewrite Hd.
    destruct (notna (raw_CustomerID d)), (notna (raw_Description d)); reflexivity. }
  assert (Hdd : filter keeps (drop_duplicates RawRecord_eqb [a; a; c; d]) = [a]).
  { assert (E1 : drop_duplicates RawRecord_eqb [a; a; c; d]
                 = a :: keep_first RawRecord_eqb [a; a] [c; d]).
    { unfold drop_duplicates. simpl. rewrite RawRecord_eqb_refl. reflexivity. }
    rewrite E1.
    assert (F : Forall (fun x => keeps x = false)
                  (keep_first RawRecord_eqb [a; a] [c; d])).
    { apply Forall_forall. intros x Hx.
      apply (subframe_In _ _ _ (subframe_keep_first RawRecord_eqb [a; a] [c; d])) in Hx.
      destruct Hx as [<-|[<-|[]]]; assumption. }
    set (K := keep_first RawRecord_eqb [a; a] [c; d]) in *. clearbody K.
    cbn [filter]. rewrite Ka. f_equal. clear E1.
    induction F as [|x l Hx F IH]; cbn [filter]; [reflexivity|]. now rewrite Hx. }
  destruct (clean_frame to_datetime [a; a; c; d]) as [clean|] eqn:E.
  - pose proof (clean_frame_rows to_datetime _ _ E) as F. rewrite Hdd in F.
    inversion F as [|? ca' ? l' Hca' Hl]; subst. inversion Hl; subst.
    congruence.
  - exfalso. unfold clean_frame in E.
    destruct (convert_all to_datetime _) eqn:Ec; [discriminate|].
    apply convert_all_fails in Ec. destruct Ec as (x & Hx & Hn).
    apply filter_In in Hx. destruct Hx as [Hx Hdesc].
    apply filter_In in Hx. destruct Hx as [Hx Hcust].
    apply (subframe_In _ _ _ (subframe_keep_first RawRecord_eqb [] [a; a; c; d])) in Hx.
    destruct Hx as [<-|[<-|[<-|[<-|[]]]]].
    + unfold clean_row in Hca. rewrite Hn in Hca. discriminate.
    + unfold clean_row in Hca. rewrite Hn in Hca. discriminate.
    + rewrite Hc in Hcust. discriminate.
    + exact (Hconv Hcust Hdesc Hn).
Qed.

End Scenario.

(* ================================================================== *)
(** ** The date dimension under repeated loads *)
(* ================================================================== *)

Lemma filter_none {A} (f : A -> bool) l :
  (forall x, In x l -> f x = false) -> filter f l = [].
Proof.
  induction l as [|x l IH]; intros H; simpl; [reflexivity|].
  rewrite (H x (or_introl eq_refl)). apply IH. intros y Hy. apply H. now right.
Qed.

Lemma Date_eqb_neq a b : a <> b -> Date_eqb a b = false.
Proof.
  intros H. destruct (Date_eqb a b) eqn:E; [|reflexivity].
  apply Date_eqb_eq in E. contradiction.
Qed.

(** The rows the date loop appends: one for each date of [attrs] that
    had no row, none for a date that had one. *)
Lemma insert_dates_new attrs :
  forall c,
    NoDup (map full_date attrs) ->
    exists new,
      dim_dates (working (fold_left (fun c a => SQL.insert_date a c) attrs c))
      = dim_dates (working c) ++ new /\
      (forall r, In r new ->
         rows_for_date (full_date (date_attrs r)) (dim_dates (working c)) = [] /\
         In (date_attrs r) attrs) /\
      (forall a, In a attrs ->
         rows_for_date (full_date a) (dim_dates (working c)) = [] ->
         List.length (rows_for_date (full_date a) new) = 1%nat).
Proof.
  induction attrs as [|b attrs IH]; intros c N.
  - exists []. simpl. rewrite app_nil_r. split; [reflexivity|].
    split; intros ? [].
  - inversion N as [|? ? Hb N']; subst. simpl.
    destruct (IH (SQL.insert_date b c) N') as (new1 & E1 & P1 & Q1).
    destruct (rows_for_date (full_date b) (dim_dates (working c))) as [|r0 rs] eqn:E.
    + (* no row for the date: it is appended *)
      rewrite (insert_date_absent b c E) in E1, P1, Q1.
      set (rb := mkDateRow (seq_date_id c) b) in *.
      assert (Hnew1 : forall r, In r new1 ->
                Date_eqb (full_date (date_attrs r)) (full_date b) = false).
      { intros r Hr. destruct (P1 r Hr) as [H _].
        unfold rows_for_date in H. rewrite filter_app in H.
        apply app_eq_nil in H. destruct H as [_ H]. simpl in H.
        destruct (Date_eqb (full_date b) (full_date (date_attrs r))) eqn:Eb;
          [discriminate|].
        apply Date_eqb_neq. intros F. rewrite F, Date_eqb_refl in Eb. discriminate. }
      exists (rb :: new1). split; [|split].
      * rewrite E1, <- app_assoc. reflexivity.
      * intros r [<-|Hr].
        { split; [exact E | now left]. }
        destruct (P1 r Hr) as [H Hin]. split; [|now right].
        unfold rows_for_date in *. rewrite filter_app in H.
        apply app_eq_nil in H. tauto.
      * intros a [<-|Ha] Habs.
        { unfold rows_for_date. simpl. rewrite Date_eqb_refl. simpl.
          now rewrite (filter_none _ new1 Hnew1). }
        assert (Hab : Date_eqb (full_date b) (full_date a) = false).
        { apply Date_eqb_neq. intros F. apply Hb. rewrite F. now apply in_map. }
        unfold rows_for_date. simpl. rewrite Hab.
        apply Q1; [exact Ha|].
        unfold rows_for_date in *. rewrite filter_app, Habs. simpl. now rewrite Hab.
    + (* a row for the date: nothing changes *)
      assert (Hne : rows_for_date (full_date b) (dim_dates (working c)) <> [])
        by (rewrite E; discriminate).
      rewrite (insert_date_present b c Hne) in E1, P1, Q1.
      exists new1. split; [exact E1|]. split.
      * intros r Hr. destruct (P1 r Hr) as [H Hin]. split; [exact H | now right].
      * intros a [<-|Ha] Habs; [congruence | now apply Q1].
Qed.

Lemma insert_dates_unique attrs :
  forall c,
    unique_dates (dim_dates (working c)) ->
    unique_dates (dim_dates (working (fold_left (fun c a => SQL.insert_date a c) attrs c))).
Proof.
  induction attrs as [|b attrs IH]; intros c U; simpl; [exact U|].
  apply IH. now apply insert_date_once.
Qed.

(** The rows of [dates_df] when no date of the batch is missing: one
    for each calendar date of the batch, built from the date. *)
Lemma dates_df_rows clean attrs :
  dates_df clean = map Some attrs ->
  NoDup (map full_date attrs) /\
  (forall a, In a attrs ->
     a = date_attrs_of (full_date a) /\ In (Some (full_date a)) (map date_key clean)) /\
  (forall d, In (Some d) (map date_key clean) -> In (date_attrs_of d) attrs).
Proof.
  unfold dates_df. intros H.
  set (uniq := drop_duplicates (option_eqb Date_eqb) (map date_key clean)) in *.
  assert (Hin : forall x, In x uniq <-> In x (map date_key clean))
    by (intros x; apply (drop_duplicates_In _ option_Date_eqb_eq)).
  assert (N : NoDup uniq) by apply (keep_first_NoDup _ option_Date_eqb_eq).
  clearbody uniq.
  assert (Hu : uniq = map Some (map full_date attrs) /\
               Forall (fun a => a = date_attrs_of (full_date a)) attrs).
  { clear Hin N. revert attrs H.
    induction uniq as [|[d|] u IH]; intros [|a attrs] H; try discriminate.
    - split; [reflexivity | constructor].
    - simpl in H. injection H as <- H. destruct (IH _ H) as [E1 E2].
      split; [simpl; now rewrite <- E1 | constructor; [reflexivity | exact E2]]. }
  destruct Hu as [Hu Hrows]. subst uniq. split; [|split].
  - clear -N. induction attrs as [|a attrs IH]; simpl in *; [constructor|].
    inversion N as [|? ? Hn N']; subst. constructor; [|now apply IH].
    intros F. apply Hn. now apply in_map.
  - intros a Ha. split.
    + rewrite Forall_forall in Hrows. now apply Hrows.
    + apply Hin. now apply in_map, in_map.
  - intros d Hd. apply Hin in Hd. apply in_map_iff in Hd.
    destruct Hd as (x & E & Hx). injection E as ->.
    apply in_map_iff in Hx. destruct Hx as (a & <- & Ha).
    rewrite Forall_forall in Hrows. now rewrite <- (Hrows a Ha).
Qed.

Lemma loaded_dimensions_closed clean attrs c :
  closed (loaded_dimensions clean attrs c) = closed c.
Proof.
  unfold loaded_dimensions, loaded_products, loaded_customers, loaded_dates. simpl.
  rewrite (proj2 (fold_frame SQL.upsert_product _ _ (fun r c0 => conj eq_refl eq_refl))).
  simpl.
  rewrite (proj2 (fold_frame SQL.upsert_customer _ _ (fun r c0 => conj eq_refl eq_refl))).
  simpl.
  apply (proj2 (fold_frame SQL.insert_date _ _ (fun r c0 => conj eq_refl eq_refl))).
Qed.

(** A load of a batch whose dates all have a row leaves [dim_dates] as
    it was. *)
Lemma load_dimensions_again s s' c clean :
  conn s = Some c -> df_clean s = Some clean ->
  (forall d, In (Some d) (map date_key clean) ->
             rows_for_date d (dim_dates (working c)) <> []) ->
  load_dimensions s = (Ret true, s') ->
  exists c',
    conn s' = Some c' /\ df_clean s' = Some clean /\
    dim_dates (working c') = dim_dates (working c) /\
    dim_dates (committed c') = dim_dates (working c).
Proof.
  intros Hc Hclean Hall H. apply load_dimensions_ok in H.
  destruct H as (c0 & clean0 & attrs & sc & Hc0 & _ & Hclean0 & Hattrs & ->).
  rewrite Hc in Hc0. injection Hc0 as <-.
  rewrite Hclean in Hclean0. injection Hclean0 as <-.
  destruct (dates_df_rows clean attrs Hattrs) as (_ & Ha & _).
  destruct (dim_dates_loaded clean attrs c) as [E1 E2].
  assert (E : dim_dates (working (fold_left (fun c a => SQL.insert_date a c) attrs c))
              = dim_dates (working c)).
  { apply insert_dates_again. intros a Hin. apply Hall. now apply Ha. }
  eexists. split; [reflexivity|]. split; [exact Hclean|].
  split; [exact (eq_trans E2 E) | exact (eq_trans E1 E)].
Qed.

Lemma repeated_loads_keep_dates n :
  forall s c clean s'',
    conn s = Some c -> df_clean s = Some clean ->
    dim_dates (committed c) = dim_dates (working c) ->
    (forall d, In (Some d) (map date_key clean) ->
               rows_for_date d (dim_dates (working c)) <> []) ->
    repeatedly n load_dimensions s = Some s'' ->
    option_map dim_dates (committed_of s'') = Some (dim_dates (working c)).
Proof.
  induction n as [|n IH]; intros s c clean s'' Hc Hclean Hcw Hall H.
  - simpl in H. injection H as <-. unfold committed_of. rewrite Hc. simpl. now rewrite Hcw.
  - simpl in H. destruct (load_dimensions s) as [[[|]|e] s1] eqn:E1; try discriminate.
    destruct (load_dimensions_again s s1 c clean Hc Hclean Hall E1)
      as (c1 & Hc1 & Hclean1 & Hw1 & Hm1).
    rewrite <- Hw1. apply (IH s1 c1 clean s'' Hc1 Hclean1); [congruence| |exact H].
    intros d Hd. rewrite Hw1. now apply Hall.
Qed.

Lemma repeated_loads_idle n :
  forall s c clean attrs,
    conn s = Some c -> closed c = false -> script c = [] ->
    df_clean s = Some clean -> dates_df clean = map Some attrs ->
    exists s'', repeatedly n load_dimensions s = Some s''.
Proof.
  induction n as [|n IH]; intros s c clean attrs Hc Ho Hs Hclean Hattrs.
  - now exists s.
  - simpl. rewrite (load_dimensions_idle s c clean attrs Hc Ho Hs Hclean Hattrs).
    destruct (loaded_dates_idle attrs c Ho Hs) as [Ho1 Hs1].
    destruct (loaded_customers_idle clean _ Ho1 Hs1) as [Ho2 Hs2].
    destruct (loaded_products_idle clean _ Ho2 Hs2) as [Ho3 Hs3].
    eapply IH; [reflexivity | exact Ho3 | exact Hs3 | exact Hclean | exact Hattrs].
Qed.

(** C7.  The date load of [load_dimensions] is idempotent.  A dimension
    load that succeeds keeps every row of [dim_dates] as it is and
    appends rows after them; a row is appended only for a calendar date
    of the batch that had no row, and exactly one for each such date,
    however many clean records carry it; no row is appended for a date
    that had one.  Hence on a table that holds at most one row per date
    the table still does, and holds exactly one row for every date of
    the batch.  Loading the same batch again any number of times leaves
    [dim_dates] as the first load left it; when storage serves every
    request, every one of these loads succeeds. *)
Theorem date_dimension_load_is_idempotent :
  forall s s' c clean,
    conn s = Some c -> df_clean s = Some clean ->
    load_dimensions s = (Ret true, s') ->
    exists c' new,
      conn s' = Some c' /\ df_clean s' = Some clean /\
      dim_dates (committed c') = dim_dates (working c) ++ new /\
      (forall r, In r new ->
         rows_for_date (full_date (date_attrs r)) (dim_dates (working c)) = [] /\
         In (Some (full_date (date_attrs r))) (map date_key clean) /\
         date_attrs r = date_attrs_of (full_date (date_attrs r))) /\
      (forall d, In (Some d) (map date_key clean) ->
         rows_for_date d (dim_dates (working c)) = [] ->
         List.length (rows_for_date d new) = 1%nat) /\
      (unique_dates (dim_dates (working c)) ->
       unique_dates (dim_dates (committed c')) /\
       forall d, In (Some d) (map date_key clean) ->
                 List.length (rows_for_date d (dim_dates (committed c'))) = 1%nat) /\
      (forall n s'',
         repeatedly n load_dimensions s' = Some s'' ->
         option_map dim_dates (committed_of s'') = Some (dim_dates (committed c'))) /\
      (script c' = [] ->
       forall n, exists s'', repeatedly n load_dimensions s' = Some s'').
Proof.
  intros s s' c clean Hc Hclean H.
  apply load_dimensions_ok in H.
  destruct H as (c0 & clean0 & attrs & sc & Hc0 & Ho & Hclean0 & Hattrs & ->).
  rewrite Hc in Hc0. injection Hc0 as <-.
  rewrite Hclean in Hclean0. injection Hclean0 as <-.
  destruct (dates_df_rows clean attrs Hattrs) as (N & Ha & Hd).
  destruct (insert_dates_new attrs c N) as (new & E & P & Q).
  destruct (dim_dates_loaded clean attrs c) as [E1 E2].
  set (c' := set_script sc (loaded_dimensions clean attrs c)).
  assert (Ef : dim_dates (committed c')
               = dim_dates (working (fold_left (fun c a => SQL.insert_date a c) attrs c)))
    by exact E1.
  assert (Em : dim_dates (committed c') = dim_dates (working c) ++ new)
    by exact (eq_trans E1 E).
  assert (Ew : dim_dates (working c') = dim_dates (committed c'))
    by exact (eq_trans E2 (eq_sym E1)).
  assert (Hall : forall d, In (Some d) (map date_key clean) ->
                           rows_for_date d (dim_dates (working c')) <> []).
  { intros d Hin. rewrite Ew, Ef.
    apply (insert_dates_present attrs c (date_attrs_of d)). left. now apply (Hd d). }
  exists c', new.
  split; [reflexivity|]. split; [exact Hclean|]. split; [exact Em|].
  split; [|split; [|split; [|split]]].
  - intros r Hr. destruct (P r Hr) as [Habs Hin]. destruct (Ha _ Hin) as [Hrow Hkey].
    auto.
  - intros d Hin Habs. now apply (Q (date_attrs_of d) (Hd d Hin)).
  - intros U.
    assert (U' : unique_dates (dim_dates (committed c'))).
    { rewrite Ef. now apply insert_dates_unique. }
    split; [exact U'|]. intros d Hin.
    specialize (U' d). specialize (Hall d Hin). rewrite Ew in Hall.
    destruct (rows_for_date d (dim_dates (committed c'))) as [|r [|r' l]];
      [congruence | reflexivity | simpl in U'; lia].
  - intros n s'' Hn. rewrite <- Ew.
    match type of Hn with
    | repeatedly _ _ ?st = _ =>
        apply (repeated_loads_keep_dates n st c' clean s'' eq_refl Hclean);
          [now rewrite Ew | exact Hall | exact Hn]
    end.
  - intros Hs n.
    match goal with
    | |- exists _, repeatedly _ _ ?st = _ =>
        apply (repeated_loads_idle n st c' clean attrs eq_refl); auto
    end.
    exact (eq_trans (loaded_dimensions_closed clean attrs c) Ho).
Qed.

Lemma date_dimension_load_is_idempotent_witness :
  exists s' s'' c'',
    load_dimensions (Sample.before_dimension_load [] Sample.renamed_rows) = (Ret true, s') /\
    repeatedly 3 load_dimensions s' = Some s'' /\
    conn s'' = Some c'' /\
    List.length (rows_for_date (mkDate 2010 12 1) (dim_dates (committed c''))) = 1%nat /\
    List.length (dim_dates (committed c'')) = 2%nat.
Proof.
  set (s := Sample.before_dimension_load [] Sample.renamed_rows).
  assert (H : load_dimensions s = (Ret true, snd (load_dimensions s)))
    by (vm_compute; reflexivity).
  destruct (date_dimension_load_is_idempotent s _
              (mkConnection Sample.empty_tables Sample.empty_tables 1 1 [] false)
              (Sample.frame_of s) eq_refl eq_refl H)
    as (c' & new & Hc' & _ & _ & _ & _ & Hone & Hsame & Hruns).
  vm_compute in Hc'. injection Hc' as Hc'. subst c'.
  destruct (Hruns eq_refl 3%nat) as (s'' & Hrep).
  specialize (Hsame 3%nat s'' Hrep).
  destruct (Hone (fun d => Nat.le_0_l 1)) as [_ Hrow].
  unfold committed_of in Hsame.
  destruct (conn s'') as [c''|] eqn:Ec; [|discriminate Hsame].
  simpl in Hsame. injection Hsame as Hsame.
  exists (snd (load_dimensions s)), s'', c''.
  split; [exact H|]. split; [exact Hrep|]. split; [exact Ec|].
  rewrite Hsame. split.
  - apply Hrow. vm_compute. now left.
  - reflexivity.
Defined.

Section ScenarioRun.
Variable to_datetime : string -> option Timestamp.

(** C2.  On a four-row input made of (a) a normal row with quantity 3,
    unit price 2.50 and customer 101, (b) its exact duplicate, (c) a row
    without customer id and (d) a row with invoice id "C1001", run
    against an empty warehouse that serves every request, the pipeline
    succeeds, keeps exactly one clean record, the one of row (a),
    reports 1 customer, 1 product, 1 date and 1 transaction loaded, and
    storage holds one row in each dimension and one fact, of quantity 3
    and total amount 7.50.  Row (a) is any row that is not a cancellation
    and whose date the parser reads.  Rows (c) and (d) carry an invoice
    date, as row (a) does: extraction logs the range of the date column
    and fails on a column that mixes dates and missing cells.  Row (d) is
    converted before the cancellations are removed: when it carries a
    customer id and a description, its cells are ones the conversions
    read. *)
Theorem four_row_scenario :
  forall w filepath seq_d seq_p a c d no code desc t ts p,
    server w = Some (mkServer Sample.empty_tables seq_d seq_p []) ->
    read_csv w filepath = Some [a; a; c; d] ->
    raw_InvoiceNo a = Some no -> PyStr.startswith no "C" = false ->
    raw_StockCode a = Some code ->
    raw_Description a = Some desc ->
    raw_Quantity a = 3 ->
    raw_InvoiceDate a = Some t -> to_datetime t = Some ts ->
    raw_UnitPrice a = Some p -> (p == 5 # 2)%Q ->
    raw_CustomerID a = Some "101" ->
    raw_CustomerID c = None ->
    raw_InvoiceDate c <> None ->
    raw_InvoiceNo d = Some "C1001" ->
    raw_InvoiceDate d <> None ->
    (notna (raw_CustomerID d) = true -> notna (raw_Description d) = true ->
     convert to_datetime d <> None) ->
    exists s' ca cn f,
      run to_datetime w filepath init = (true, s') /\
      df_clean s' = Some [ca] /\
      clean_row to_datetime a = Some ca /\
      CustomerID ca = 101 /\ Quantity ca = 3 /\
      stats s' = mkStats 4 1 1 1 1 1 [] /\
      conn s' = Some cn /\
      List.length (dim_customers (committed cn)) = 1%nat /\
      List.length (dim_products (committed cn)) = 1%nat /\
      List.length (dim_dates (committed cn)) = 1%nat /\
      fact_transactions (committed cn) = [f] /\
      f_customer_id f = 101 /\ f_quantity f = 3 /\
      exists total, SQL.total_amount f = Some total /\ (total == 75 # 10)%Q.
Proof.
  intros w filepath seq_d seq_p a c d no code desc t ts p
         Hsrv Hread Hno Hnc Hcode Hdesc Hq Hdate Hts Hprice Hp Hcust Hc Hcd Hd Hdd Hconv.
  assert (Hcmp : comparable (map raw_InvoiceDate [a; a; c; d]) = true).
  { cbn [map]. rewrite Hdate.
    destruct (raw_InvoiceDate c); [|contradiction].
    destruct (raw_InvoiceDate d); [|contradiction]. reflexivity. }
  set (ca := mkClean (Some no) (Some code) (Some (PyStr.upper (PyStr.strip desc))) 3
               (Some ts) (Some p) 101 (option_map PyStr.strip (raw_Country a))
               (Some (inject_Z 3 * p)%Q)
               (Some (year (ts_date ts))) (Some (month (ts_date ts)))
               (Some (day (ts_date ts))) (Some (Calendar.dayofweek (ts_date ts)))
               (Some (hour ts))).
  assert (Hca : clean_row to_datetime a = Some ca).
  { unfold clean_row, convert. rewrite Hdate, Hts, Hcust. simpl.
    unfold engineer, clean_text. simpl. rewrite Hno, Hcode, Hdesc, Hq, Hprice.
    reflexivity. }
  assert (Ka : keeps a = true).
  { unfold keeps, raw_not_cancelled, raw_positive, raw_not_outlier.
    rewrite Hcust, Hdesc, Hno, Hnc, Hq, Hprice. simpl.
    apply andb_true_iff. split; [|reflexivity].
    apply Qpos_b_spec. rewrite Hp. reflexivity. }
  pose proof (scenario_clean_frame to_datetime a c d ca Ka Hca Hc Hd Hconv) as Hframe.
  (* the stages, one after the other *)
  set (c0 := mkConnection (mkTables [] [] [] []) (mkTables [] [] [] []) seq_d seq_p [] false).
  pose proof (connect_served w _ init Hsrv) as E1. simpl in E1. fold c0 in E1.
  set (s1 := set_trace _ _) in E1.
  pose proof (extract_read w filepath _ s1 Hread Hcmp) as E2.
  set (s2 := set_trace _ _) in E2.
  assert (E3 := transform_cleaned to_datetime s2 [a; a; c; d] [ca] eq_refl
                  ltac:(discriminate) Hframe).
  set (s3 := set_trace _ _) in E3.
  assert (E4 := load_dimensions_idle s3 c0 [ca] [date_attrs_of (ts_date ts)]
                  eq_refl eq_refl eq_refl eq_refl eq_refl).
  set (c4 := loaded_dimensions [ca] [date_attrs_of (ts_date ts)] c0) in E4.
  set (s4 := set_trace _ _) in E4.
  set (T := mkTables [mkDateRow seq_d (date_attrs_of (ts_date ts))]
                     [customer_agg [ca] 101]
                     [mkProductRow seq_p (product_agg [ca] code)] []).
  assert (Hc4 : c4 = mkConnection T T (seq_d + 1) (seq_p + 1) [] false) by reflexivity.
  set (f := mkFactRow (Some no) 101 seq_p seq_d (Some ts) 3 (Some p)).
  assert (Hf : resolved (working c4) ca = Some f).
  { rewrite Hc4. unfold resolved, SQL.select_customer, SQL.select_product, SQL.select_date.
    cbn [working T dim_customers dim_products dim_dates find ca CustomerID StockCode
         InvoiceDate customer_agg customer_id product_attrs product_agg stock_code
         date_attrs full_date date_attrs_of option_map].
    rewrite String.eqb_refl, Date_eqb_refl. reflexivity. }
  assert (E5 := load_facts_idle s4 c4 [ca] eq_refl eq_refl eq_refl eq_refl
                  ltac:(repeat constructor; discriminate)).
  cbn [map] in E5. rewrite Hf in E5.
  change (paginate 1000 [] (valid [Some f])) with [[f]] in E5.
  change (valid [Some f]) with [f] in E5.
  cbn [fold_left] in E5.
  set (c5 := publish (SQL.insert_facts [f] c4)) in E5.
  set (s5 := set_trace _ _) in E5.
  assert (E6 := refresh_aggregates_idle s5 c5 eq_refl eq_refl eq_refl).
  set (s6 := set_trace _ _) in E6.
  destruct (validate_idle s6 (publish c5) eq_refl eq_refl eq_refl) as [v E7].
  set (s7 := set_trace _ _) in E7.
  exists (close s7), ca, (mkConnection (working c5) (working c5) (seq_d + 1) (seq_p + 1) [] true), f.
  split.
  { unfold run, try_except, run_body.
    unfold bind at 1. rewrite E1. cbn [negb].
    unfold bind at 1. rewrite E2. cbn [negb].
    unfold bind at 1. rewrite E3. cbn [negb].
    unfold bind at 1. rewrite E4. cbn [negb].
    unfold bind at 1. rewrite E5. cbn [negb].
    unfold bind at 1. rewrite E6. cbn [negb].
    unfold bind at 1. rewrite E7.
    reflexivity. }
  split; [reflexivity|]. split; [exact Hca|]. split; [reflexivity|].
  split; [reflexivity|]. split; [reflexivity|].
  split; [reflexivity|]. split; [reflexivity|]. split; [reflexivity|].
  split; [reflexivity|]. split; [reflexivity|]. split; [reflexivity|].
  split; [reflexivity|].
  exists (inject_Z 3 * p)%Q. split; [reflexivity|]. rewrite Hp. reflexivity.
Qed.

End ScenarioRun.

Lemma four_row_scenario_witness :
  read_csv (Sample.world [] Sample.four_rows) Sample.path
  = Some [Sample.row_a; Sample.row_a; Sample.row_c; Sample.row_d] /\
  exists s' ca cn f,
    run Reference.iso_datetime (Sample.world [] Sample.four_rows) Sample.path init
    = (true, s') /\
    df_clean s' = Some [ca] /\
    clean_row Reference.iso_datetime Sample.row_a = Some ca /\
    CustomerID ca = 101 /\ Quantity ca = 3 /\
    stats s' = mkStats 4 1 1 1 1 1 [] /\
    conn s' = Some cn /\
    List.length (dim_customers (committed cn)) = 1%nat /\
    List.length (dim_products (committed cn)) = 1%nat /\
    List.length (dim_dates (committed cn)) = 1%nat /\
    fact_transactions (committed cn) = [f] /\
    f_customer_id f = 101 /\ f_quantity f = 3 /\
    exists total, SQL.total_amount f = Some total /\ (total == 75 # 10)%Q.
Proof.
  split; [reflexivity|].
  apply (four_row_scenario Reference.iso_datetime
           (Sample.world [] Sample.four_rows) Sample.path 1 1
           Sample.row_a Sample.row_c Sample.row_d
           "536365" "85123A" "white hanging heart t-light holder"
           "2010-12-01 08:26:00" (mkTimestamp (mkDate 2010 12 1) 8 26 0) (250 # 100)%Q);
    try reflexivity; try (intros _ _; vm_compute; discriminate); discriminate.
Defined.

(* ================================================================== *)
(** * Further properties of the pipeline *)
(* ================================================================== *)

(** ** A run that succeeds, stage by stage *)

Lemma refresh_aggregates_ok s s' :
  refresh_aggregates s = (Ret true, s') ->
  exists c sc,
    conn s = Some c /\ closed c = false /\
    s' = set_trace (trace s ++ [(RefreshAggregates, Succeeded)])
           (set_conn (Some (set_script sc (publish c))) s).
Proof.
  intros H. apply staged_result in H. destruct H as (s0 & H & ->).
  unfold try_except in H.
  match type of H with
  | context [match ?body s with _ => _ end] => destruct (body s) as [[b|e] s1] eqn:Eb
  end.
  2:{ discriminate. }
  injection H as -> ->.
  apply bind_returns in Eb. destruct Eb as ([] & sA & H1 & Eb).
  apply cursor_ok in H1. destruct H1 as (-> & c & Hc & Ho).
  rewrite (state_eta s c Hc) in Eb.
  apply bind_returns in Eb. destruct Eb as ([] & sB & H2 & Eb).
  apply (execute_step (fun c => c)) in H2; [|intros sc0 c0; reflexivity].
  destruct H2 as (sc1 & ->).
  apply bind_returns in Eb. destruct Eb as ([] & sC & H3 & Eb).
  apply execute_step in H3; [|apply blind_publish]. destruct H3 as (sc2 & ->).
  injection Eb as <-.
  exists c, sc2. repeat split; auto.
Qed.

Section RunSucceeds.
Variable to_datetime : string -> option Timestamp.

(** A run gives [True] only when its seven stages ran and the first six
    returned [True]. *)
Lemma run_true w filepath s s' :
  run to_datetime w filepath s = (true, s') ->
  exists s1 s2 s3 s4 s5 s6 s7 v,
    connect w s = (Ret true, s1) /\
    extract w filepath s1 = (Ret true, s2) /\
    transform to_datetime s2 = (Ret true, s3) /\
    load_dimensions s3 = (Ret true, s4) /\
    load_facts s4 = (Ret true, s5) /\
    refresh_aggregates s5 = (Ret true, s6) /\
    validate s6 = (Ret v, s7) /\
    s' = close s7.
Proof.
  unfold run, try_except. intros H.
  destruct (run_body to_datetime w filepath s) as [[b|e] s0] eqn:Eb.
  2:{ simpl in H. discriminate. }
  injection H as -> <-.
  unfold run_body in Eb.
  apply chain_step in Eb. destruct Eb as [(s1 & E1 & Eb)|(r0 & _ & _ & F & _)];
    [|discriminate].
  apply chain_step in Eb. destruct Eb as [(s2 & E2 & Eb)|(r0 & _ & _ & F & _)];
    [|discriminate].
  apply chain_step in Eb. destruct Eb as [(s3 & E3 & Eb)|(r0 & _ & _ & F & _)];
    [|discriminate].
  apply chain_step in Eb. destruct Eb as [(s4 & E4 & Eb)|(r0 & _ & _ & F & _)];
    [|discriminate].
  apply chain_step in Eb. destruct Eb as [(s5 & E5 & Eb)|(r0 & _ & _ & F & _)];
    [|discriminate].
  apply chain_step in Eb. destruct Eb as [(s6 & E6 & Eb)|(r0 & _ & _ & F & _)];
    [|discriminate].
  apply bind_returns in Eb. destruct Eb as (v & s7 & E7 & Eb).
  unfold bind, read in Eb.
  destruct (rows_extracted (stats s7) =? 0)%nat; [discriminate|].
  injection Eb as <-.
  exists s1, s2, s3, s4, s5, s6, s7, v. repeat split; assumption.
Qed.

End RunSucceeds.

(* ================================================================== *)
(** ** Stored rows and the dimension load *)
(* ================================================================== *)

Lemma extends_refl {A} (l : list A) : extends l l.
Proof. exists []. now rewrite app_nil_r. Qed.

Lemma extends_trans {A} (l1 l2 l3 : list A) :
  extends l1 l2 -> extends l2 l3 -> extends l1 l3.
Proof.
  intros [a ->] [b ->]. exists (a ++ b). now rewrite app_assoc.
Qed.

Lemma extends_fold {A} (view : Connection -> list A) {R}
      (f : R -> Connection -> Connection) rows :
  (forall r c, extends (view c) (view (f r c))) ->
  forall c, extends (view c) (view (fold_left (fun c r => f r c) rows c)).
Proof.
  intros Hf. induction rows as [|r rows IH]; intros c; simpl.
  - apply extends_refl.
  - eapply extends_trans; [apply Hf | apply IH].
Qed.

Lemma same_fold {A} (view : Connection -> A) {R}
      (f : R -> Connection -> Connection) rows :
  (forall r c, view (f r c) = view c) ->
  forall c, view (fold_left (fun c r => f r c) rows c) = view c.
Proof.
  intros Hf. induction rows as [|r rows IH]; intros c; simpl; [reflexivity|].
  now rewrite IH.
Qed.

Lemma insert_date_extends a c :
  extends (dim_dates (working c)) (dim_dates (working (SQL.insert_date a c))).
Proof.
  unfold SQL.insert_date. simpl.
  destruct (existsb _ (dim_dates (working c))); simpl.
  - apply extends_refl.
  - eexists. reflexivity.
Qed.

Lemma upsert_customer_extends r c :
  extends (map customer_key (dim_customers (working c)))
          (map customer_key (dim_customers (working (SQL.upsert_customer r c)))).
Proof.
  unfold SQL.upsert_customer. simpl.
  destruct (existsb _ (dim_customers (working c))).
  - rewrite map_map.
    match goal with
    | |- extends _ (map ?f _) => rewrite (map_ext f customer_key); [apply extends_refl|]
    end.
    intros x. destruct (customer_id x =? customer_id r); reflexivity.
  - rewrite map_app. eexists. reflexivity.
Qed.

Lemma upsert_product_extends a c :
  extends (map product_key (dim_products (working c)))
          (map product_key (dim_products (working (SQL.upsert_product a c)))).
Proof.
  unfold SQL.upsert_product. simpl.
  destruct (existsb _ (dim_products (working c))).
  - rewrite map_map.
    match goal with
    | |- extends _ (map ?f _) => rewrite (map_ext f product_key); [apply extends_refl|]
    end.
    intros x.
    destruct (String.eqb (stock_code (product_attrs x)) (stock_code a)) eqn:E;
      [|reflexivity].
    apply String.eqb_eq in E. unfold product_key. simpl. now rewrite E.
  - rewrite map_app. eexists. reflexivity.
Qed.

(** The tables after the statements of a successful dimension load. *)
Lemma loaded_dimensions_extends clean attrs c :
  let c' := loaded_dimensions clean attrs c in
  committed c' = working c' /\
  extends (dim_dates (working c)) (dim_dates (working c')) /\
  extends (map customer_key (dim_customers (working c)))
          (map customer_key (dim_customers (working c'))) /\
  extends (map product_key (dim_products (working c)))
          (map product_key (dim_products (working c'))) /\
  fact_transactions (working c') = fact_transactions (working c).
Proof.
  unfold loaded_dimensions, loaded_products, loaded_customers, loaded_dates.
  set (c1 := fold_left (fun c a => SQL.insert_date a c) attrs c).
  set (c2 := fold_left (fun c r => SQL.upsert_customer r c) (customers_df clean) (publish c1)).
  set (c3 := fold_left (fun c r => SQL.upsert_product r c) (products_df clean) (publish c2)).
  cbv zeta. split; [reflexivity|].
  change (working (publish c3)) with (working c3).
  split; [|split; [|split]].
  - unfold c3.
    rewrite (same_fold (fun c => dim_dates (working c)) SQL.upsert_product
               (products_df clean) (fun r c => eq_refl) (publish c2)).
    change (dim_dates (working (publish c2))) with (dim_dates (working c2)).
    unfold c2.
    rewrite (same_fold (fun c => dim_dates (working c)) SQL.upsert_customer
               (customers_df clean) (fun r c => eq_refl) (publish c1)).
    apply (extends_fold (fun c => dim_dates (working c)) SQL.insert_date attrs
             insert_date_extends).
  - unfold c3.
    rewrite (same_fold (fun c => map customer_key (dim_customers (working c)))
               SQL.upsert_product (products_df clean) (fun r c => eq_refl) (publish c2)).
    change (working (publish c2)) with (working c2).
    eapply extends_trans;
      [|apply (extends_fold (fun c => map customer_key (dim_customers (working c)))
                 SQL.upsert_customer (customers_df clean) upsert_customer_extends)].
    change (working (publish c1)) with (working c1). unfold c1.
    rewrite (same_fold (fun c => map customer_key (dim_customers (working c)))
               SQL.insert_date attrs).
    + apply extends_refl.
    + intros r c0. unfold SQL.insert_date. simpl.
      destruct (existsb _ (dim_dates (working c0))); reflexivity.
  - unfold c3. eapply extends_trans;
      [|apply (extends_fold (fun c => map product_key (dim_products (working c)))
                 SQL.upsert_product (products_df clean) upsert_product_extends)].
    change (working (publish c2)) with (working c2). unfold c2.
    rewrite (same_fold (fun c => map product_key (dim_products (working c)))
               SQL.upsert_customer (customers_df clean) (fun r c => eq_refl) (publish c1)).
    change (working (publish c1)) with (working c1). unfold c1.
    rewrite (same_fold (fun c => map product_key (dim_products (working c)))
               SQL.insert_date attrs).
    + apply extends_refl.
    + intros r c0. unfold SQL.insert_date. simpl.
      destruct (existsb _ (dim_dates (working c0))); reflexivity.
  - unfold c3.
    rewrite (same_fold (fun c => fact_transactions (working c)) SQL.upsert_product
               (products_df clean) (fun r c => eq_refl) (publish c2)).
    change (working (publish c2)) with (working c2). unfold c2.
    rewrite (same_fold (fun c => fact_transactions (working c)) SQL.upsert_customer
               (customers_df clean) (fun r c => eq_refl) (publish c1)).
    change (working (publish c1)) with (working c1). unfold c1.
    rewrite (same_fold (fun c => fact_transactions (working c)) SQL.insert_date attrs).
    + reflexivity.
    + intros r c0. unfold SQL.insert_date. simpl.
      destruct (existsb _ (dim_dates (working c0))); reflexivity.
Qed.

(** *** Lookups read the keys only *)

Lemma select_customer_found k t :
  In k (map customer_id (dim_customers t)) -> SQL.select_customer k t = Some k.
Proof.
  unfold SQL.select_customer. induction (dim_customers t) as [|r l IH]; simpl.
  - intros [].
  - destruct (customer_id r =? k) eqn:E.
    + intros _. simpl. f_equal. now apply Z.eqb_eq.
    + intros [H|H]; [|now apply IH]. apply Z.eqb_neq in E. contradiction.
Qed.

Lemma select_customer_some k t id :
  SQL.select_customer k t = Some id ->
  id = k /\ In k (map customer_id (dim_customers t)).
Proof.
  unfold SQL.select_customer. induction (dim_customers t) as [|r l IH]; simpl.
  - discriminate.
  - destruct (customer_id r =? k) eqn:E.
    + simpl. intros H. injection H as <-. apply Z.eqb_eq in E. auto.
    + intros H. destruct (IH H). auto.
Qed.

Lemma customer_ids_of_keys l :
  map customer_id l = map (fun k => fst (fst k)) (map customer_key l).
Proof. rewrite map_map. reflexivity. Qed.

Lemma select_customer_stable t t' k id :
  extends (map customer_key (dim_customers t)) (map customer_key (dim_customers t')) ->
  SQL.select_customer k t = Some id -> SQL.select_customer k t' = Some id.
Proof.
  intros [added E] H. apply select_customer_some in H. destruct H as [-> H].
  apply select_customer_found.
  rewrite customer_ids_of_keys in *. rewrite E, map_app. apply in_or_app. now left.
Qed.

Lemma select_product_keys code t :
  SQL.select_product code t
  = option_map fst (find (fun k => String.eqb (snd k) code)
                         (map product_key (dim_products t))).
Proof.
  unfold SQL.select_product. induction (dim_products t) as [|r l IH]; simpl.
  - reflexivity.
  - destruct (String.eqb (stock_code (product_attrs r)) code); [reflexivity | exact IH].
Qed.

Lemma find_extends {A} (f : A -> bool) l l' x :
  extends l l' -> find f l = Some x -> find f l' = Some x.
Proof.
  intros [added ->]. induction l as [|y l IH]; simpl; [discriminate|].
  destruct (f y); [auto | exact IH].
Qed.

Lemma select_product_stable t t' code id :
  extends (map product_key (dim_products t)) (map product_key (dim_products t')) ->
  SQL.select_product code t = Some id -> SQL.select_product code t' = Some id.
Proof.
  intros E. rewrite !select_product_keys.
  destruct (find _ (map product_key (dim_products t))) as [k|] eqn:F; [|discriminate].
  now rewrite (find_extends _ _ _ _ E F).
Qed.

Lemma select_date_stable t t' d id :
  extends (dim_dates t) (dim_dates t') ->
  SQL.select_date d t = Some id -> SQL.select_date d t' = Some id.
Proof.
  intros E. unfold SQL.select_date.
  destruct (find _ (dim_dates t)) as [r|] eqn:F; [|discriminate].
  now rewrite (find_extends _ _ _ _ E F).
Qed.

Lemma select_product_found code t :
  (exists r, In r (dim_products t) /\ stock_code (product_attrs r) = code) ->
  notna (SQL.select_product code t) = true.
Proof.
  intros (r & Hr & E). unfold SQL.select_product.
  destruct (find _ (dim_products t)) as [x|] eqn:F; [reflexivity|].
  apply (find_none _ _ F) in Hr. rewrite E, String.eqb_refl in Hr. discriminate.
Qed.

Lemma select_date_found d t :
  rows_for_date d (dim_dates t) <> [] -> notna (SQL.select_date d t) = true.
Proof.
  unfold SQL.select_date, rows_for_date.
  induction (dim_dates t) as [|r l IH]; simpl; [congruence|].
  destruct (Date_eqb (full_date (date_attrs r)) d); [reflexivity | exact IH].
Qed.

(** *** Every key of the batch is stored by the load *)

Lemma upsert_customer_stores r c :
  In (customer_id r) (map customer_id (dim_customers (working (SQL.upsert_customer r c)))).
Proof.
  unfold SQL.upsert_customer. simpl.
  destruct (existsb _ (dim_customers (working c))) eqn:E.
  - apply existsb_exists in E. destruct E as (x & Hx & Hhit).
    apply in_map_iff. eexists. split; [|apply in_map_iff; exists x; split; [reflexivity|exact Hx]].
    rewrite Hhit. simpl. now apply Z.eqb_eq.
  - rewrite map_app. apply in_or_app. right. now left.
Qed.

Lemma customer_ids_stay r c k :
  In k (map customer_id (dim_customers (working c))) ->
  In k (map customer_id (dim_customers (working (SQL.upsert_customer r c)))).
Proof.
  destruct (upsert_customer_extends r c) as [added E].
  rewrite !customer_ids_of_keys, E, map_app. intros H. apply in_or_app. now left.
Qed.

Lemma upsert_customers_store rows :
  forall c k,
    In k (map customer_id rows) \/ In k (map customer_id (dim_customers (working c))) ->
    In k (map customer_id
            (dim_customers (working (fold_left (fun c r => SQL.upsert_customer r c) rows c)))).
Proof.
  induction rows as [|r rows IH]; intros c k H; simpl.
  - destruct H as [[]|H]. exact H.
  - apply IH. simpl in H. destruct H as [[<-|H]|H].
    + right. apply upsert_customer_stores.
    + now left.
    + right. now apply customer_ids_stay.
Qed.

Lemma customers_df_ids clean k :
  In k (map CustomerID clean) -> In k (map customer_id (customers_df clean)).
Proof.
  intros H. unfold customers_df. rewrite map_map. simpl. rewrite map_id.
  now apply (group_keys_distinct Z.eqb Z.eqb_eq).
Qed.

Lemma dates_df_all clean attrs row ts :
  dates_df clean = map Some attrs -> In row clean -> InvoiceDate row = Some ts ->
  In (date_attrs_of (ts_date ts)) attrs.
Proof.
  unfold dates_df. intros H Hrow Hts.
  assert (Hin : In (Some (date_attrs_of (ts_date ts))) (map Some attrs)).
  { rewrite <- H. apply in_map_iff. exists (Some (ts_date ts)). split; [reflexivity|].
    apply (drop_duplicates_In _ option_Date_eqb_eq).
    apply in_map_iff. exists row. split; [|exact Hrow].
    unfold date_key. now rewrite Hts. }
  apply in_map_iff in Hin. destruct Hin as (a & E & Ha). now injection E as <-.
Qed.

Lemma dates_df_no_missing clean attrs row :
  dates_df clean = map Some attrs -> In row clean -> InvoiceDate row <> None.
Proof.
  unfold dates_df. intros H Hrow Hts.
  assert (Hin : In None (map Some attrs)).
  { rewrite <- H. apply in_map_iff. exists None. split; [reflexivity|].
    apply (drop_duplicates_In _ option_Date_eqb_eq).
    apply in_map_iff. exists row. split; [|exact Hrow].
    unfold date_key. now rewrite Hts. }
  apply in_map_iff in Hin. destruct Hin as (a & E & _). discriminate.
Qed.

(** After the statements of a successful dimension load, the three
    lookups of every record of the batch that has an item code find a
    row. *)
Lemma loaded_dimensions_found clean attrs c row :
  dates_df clean = map Some attrs ->
  In row clean -> StockCode row <> None ->
  all_found (working (loaded_dimensions clean attrs c)) row = true.
Proof.
  intros Hattrs Hrow Hcode. unfold all_found.
  apply andb_true_iff. split; [apply andb_true_iff; split|].
  - (* customer *)
    rewrite select_customer_found; [reflexivity|].
    unfold loaded_dimensions, loaded_products.
    change (working (publish ?x)) with (working x).
    rewrite (same_fold (fun c => map customer_id (dim_customers (working c)))
               SQL.upsert_product (products_df clean) (fun r c => eq_refl)).
    unfold loaded_customers. change (working (publish ?x)) with (working x).
    apply upsert_customers_store. left. apply customers_df_ids.
    now apply in_map.
  - (* product *)
    destruct (StockCode row) as [code|] eqn:E; [|congruence].
    apply select_product_found.
    unfold loaded_dimensions, loaded_products.
    change (working (publish ?x)) with (working x).
    assert (Hin : In (Some code) (map StockCode clean)).
    { rewrite <- E. now apply in_map. }
    pose proof (upserts_hold (products_df clean)
                  (loaded_customers clean (loaded_dates attrs c))
                  (product_agg clean code)
                  (or_introl (products_df_has clean code Hin))) as Hh.
    destruct Hh as [(r0 & Hr0 & Ha0) _].
    { intros a' Ha' Ea. apply products_df_code in Ha'. destruct Ha' as [-> _].
      simpl in Ea. now rewrite Ea. }
    exists r0. split; [exact Hr0|]. now rewrite Ha0.
  - (* date *)
    destruct (InvoiceDate row) as [ts|] eqn:E.
    2:{ exfalso. now apply (dates_df_no_missing clean attrs row Hattrs Hrow). }
    apply select_date_found.
    destruct (dim_dates_loaded clean attrs c) as [_ ->].
    change (ts_date ts) with (full_date (date_attrs_of (ts_date ts))).
    apply insert_dates_present. left.
    now apply (dates_df_all clean attrs row ts Hattrs Hrow).
Qed.

Lemma resolved_fact_of t row f : resolved t row = Some f -> fact_of row f.
Proof.
  unfold resolved, fact_of.
  destruct (SQL.select_customer (CustomerID row) t) as [k|] eqn:Ek; [|discriminate].
  destruct (match StockCode row with Some code => _ | None => _ end); [|discriminate].
  destruct (match InvoiceDate row with Some ts => _ | None => _ end); [|discriminate].
  intros H. injection H as <-. simpl.
  apply select_customer_some in Ek. destruct Ek as [-> _]. repeat split.
Qed.

Lemma resolved_frame t rows :
  Forall (fun row => all_found t row = true) rows ->
  Forall2 fact_of rows (valid (map (resolved t) rows)).
Proof.
  induction 1 as [|row rows H _ IH]; simpl; [constructor|].
  destruct (resolved t row) as [f|] eqn:E.
  - constructor; [eapply resolved_fact_of, E | exact IH].
  - apply resolved_all_found in E. congruence.
Qed.

Lemma connect_ok w s s' :
  connect w s = (Ret true, s') ->
  exists srv,
    server w = Some srv /\
    s' = set_trace (trace s ++ [(Connect, Succeeded)])
           (set_conn (Some (mkConnection (srv_tables srv) (srv_tables srv)
                              (srv_seq_date_id srv) (srv_seq_product_id srv)
                              (srv_script srv) false))
              (set_engine true s)).
Proof.
  unfold connect, staged, try_except, bind, update, ret, raise, record_error.
  destruct (server w) as [srv|]; simpl; intros H; [|discriminate].
  injection H as <-. exists srv. auto.
Qed.

Lemma extract_returns w filepath s s' :
  extract w filepath s = (Ret true, s') ->
  exists raw,
    read_csv w filepath = Some raw /\
    s' = set_trace (trace s ++ [(Extract, Succeeded)])
           (set_stats (with_rows_extracted (List.length raw) (stats s))
              (set_df_raw (Some raw) s)).
Proof.
  intros H. apply extract_true in H. destruct H as (raw & Hraw & _ & ->).
  exists raw. auto.
Qed.

Lemma df_clean_validate : leaves df_clean validate.
Proof. unfold validate. leave. Qed.

Lemma validate_conn s r s' c :
  validate s = (r, s') -> conn s = Some c ->
  exists sc b, conn s' = Some (set_line sc b c).
Proof.
  intros H Hc.
  assert (L : leaves (fun s => option_map (set_line [] false) (conn s)) validate).
  { unfold validate. apply leaves_staged; [reflexivity|].
    apply leaves_try_except; [|intros e; apply leaves_ret].
    apply leaves_bind; [apply leaves_cursor|]. intros _.
    repeat (apply leaves_bind;
              [apply leaves_fetch; intros sc b c0 s0 E; simpl; now rewrite E|];
            intros).
    apply leaves_ret. }
  specialize (L _ _ _ H). simpl in L. rewrite Hc in L.
  destruct (conn s') as [c'|]; [|discriminate]. simpl in L.
  exists (script c'), (closed c'). destruct c, c'. unfold set_line in *. simpl in *.
  injection L as L.
  now subst.
Qed.

Section SuccessfulRun.
Variable to_datetime : string -> option Timestamp.

(** X1.  A run that returns [True] has loaded one fact per clean record,
    in frame order: no record was skipped.  The facts are appended to
    what storage held and each carries the invoice number, customer id,
    timestamp, quantity and unit price of its record, so that
    [transactions_loaded] equals [rows_after_cleaning]; the connection
    is closed with nothing uncommitted and no error was recorded. *)
Theorem successful_run_loads_every_clean_record :
  forall w filepath s s',
    run to_datetime w filepath s = (true, s') ->
    exists srv raw clean cn facts,
      server w = Some srv /\ read_csv w filepath = Some raw /\
      clean_frame to_datetime raw = Some clean /\
      df_clean s' = Some clean /\
      rows_extracted (stats s') = List.length raw /\
      rows_after_cleaning (stats s') = List.length clean /\
      transactions_loaded (stats s') = List.length clean /\
      errors (stats s') = errors (stats s) /\
      conn s' = Some cn /\ closed cn = true /\ working cn = committed cn /\
      fact_transactions (committed cn) = fact_transactions (srv_tables srv) ++ facts /\
      Forall2 fact_of clean facts.
Proof.
  intros w filepath s s' H.
  apply run_true in H.
  destruct H as (s1 & s2 & s3 & s4 & s5 & s6 & s7 & v
                 & E1 & E2 & E3 & E4 & E5 & E6 & E7 & ->).
  apply connect_ok in E1. destruct E1 as (srv & Hsrv & ->).
  apply extract_returns in E2. destruct E2 as (raw & Hraw & ->).
  apply transform_ok in E3.
  destruct E3 as (raw' & clean & Hraw' & _ & Hclean & ->).
  simpl in Hraw'. injection Hraw' as <-.
  pose proof (load_facts_keys s4 s5 clean) as Hkeys.
  apply load_dimensions_ok in E4.
  destruct E4 as (c & clean' & attrs & sc4 & Hc & _ & Hclean' & Hattrs & ->).
  simpl in Hc, Hclean'. injection Hc as <-. injection Hclean' as <-.
  specialize (Hkeys eq_refl E5).
  set (c0 := mkConnection (srv_tables srv) (srv_tables srv) (srv_seq_date_id srv)
               (srv_seq_product_id srv) (srv_script srv) false) in *.
  set (c4 := loaded_dimensions clean attrs c0) in *.
  assert (Hfound : Forall (fun row => all_found (working c4) row = true) clean).
  { apply Forall_forall. intros row Hrow.
    apply loaded_dimensions_found; [exact Hattrs | exact Hrow|].
    rewrite Forall_forall in Hkeys. now apply Hkeys. }
  apply load_facts_ok in E5.
  destruct E5 as (c' & clean' & sc5 & Hc & _ & Hclean' & E5).
  simpl in Hc, Hclean'. injection Hc as <-. injection Hclean' as <-.
  cbv zeta in E5. change (working (set_script sc4 c4)) with (working c4) in E5.
  set (facts := valid (map (resolved (working c4)) clean)) in *.
  assert (Hlen : List.length facts = List.length clean).
  { unfold facts. rewrite resolved_count. now rewrite (filter_all _ _ Hfound). }
  subst s5.
  apply refresh_aggregates_ok in E6. destruct E6 as (c6 & sc6 & Hc6 & _ & ->).
  simpl in Hc6. injection Hc6 as <-.
  pose proof (df_clean_validate _ _ _ E7) as Hdf.
  destruct (validate_conn _ _ _ _ E7 eq_refl) as (sc7 & b7 & Hc7).
  apply validate_step in E7. destruct E7 as (v' & _ & _ & Hstats & _).
  exists srv, raw, clean.
  eexists. exists facts.
  split; [exact Hsrv|]. split; [exact Hraw|]. split; [exact Hclean|].
  unfold close. rewrite Hc7.
  split; [exact Hdf|].
  change (stats (set_conn _ s7)) with (stats s7). rewrite Hstats.
  split; [reflexivity|]. split; [reflexivity|]. split; [exact Hlen|].
  split; [reflexivity|]. split; [reflexivity|]. split; [reflexivity|].
  split; [reflexivity|]. split.
  - simpl. rewrite insert_pages_facts, paginate_concat. simpl.
    f_equal. unfold c4.
    destruct (loaded_dimensions_extends clean attrs c0) as (_ & _ & _ & _ & Hf).
    exact Hf.
  - now apply resolved_frame.
Qed.

End SuccessfulRun.

Lemma successful_run_loads_every_clean_record_witness :
  fst Cases.four_row_run = true /\
  transactions_loaded (stats (snd Cases.four_row_run))
  = rows_after_cleaning (stats (snd Cases.four_row_run)).
Proof.
  assert (H : run Reference.iso_datetime (Sample.world [] Sample.four_rows) Sample.path init
              = (true, snd Cases.four_row_run)) by (vm_compute; reflexivity).
  split; [vm_compute; reflexivity|].
  destruct (successful_run_loads_every_clean_record Reference.iso_datetime _ _ _ _ H)
    as (srv & raw & clean & cn & facts & _ & _ & _ & _ & _ & Ha & Ht & _).
  now rewrite Ha, Ht.
Defined.

(** X2.  A successful dimension load never deletes, reorders or renumbers
    what is stored: the rows of [dim_dates] stay as they are, the
    customer rows keep their id, country and first purchase date, the
    product rows their id and item code, and new rows come after them;
    the facts are untouched.  Hence a lookup that found a key before the
    load finds the same key after it. *)
Theorem dimension_load_keeps_stored_keys :
  forall s s' c,
    conn s = Some c ->
    load_dimensions s = (Ret true, s') ->
    exists c',
      conn s' = Some c' /\ working c' = committed c' /\
      extends (dim_dates (working c)) (dim_dates (committed c')) /\
      extends (map customer_key (dim_customers (working c)))
              (map customer_key (dim_customers (committed c'))) /\
      extends (map product_key (dim_products (working c)))
              (map product_key (dim_products (committed c'))) /\
      fact_transactions (committed c') = fact_transactions (working c) /\
      (forall k id, SQL.select_customer k (working c) = Some id ->
                    SQL.select_customer k (committed c') = Some id) /\
      (forall code id, SQL.select_product code (working c) = Some id ->
                       SQL.select_product code (committed c') = Some id) /\
      (forall d id, SQL.select_date d (working c) = Some id ->
                    SQL.select_date d (committed c') = Some id).
Proof.
  intros s s' c Hc H.
  apply load_dimensions_ok in H.
  destruct H as (c0 & clean & attrs & sc & Hc0 & _ & _ & _ & ->).
  rewrite Hc in Hc0. injection Hc0 as <-.
  destruct (loaded_dimensions_extends clean attrs c) as (E0 & Ed & Ec & Ep & Ef).
  cbv zeta in *.
  exists (set_script sc (loaded_dimensions clean attrs c)).
  split; [reflexivity|].
  change (working (set_script sc ?x)) with (working x).
  change (committed (set_script sc ?x)) with (committed x).
  rewrite E0.
  split; [reflexivity|]. split; [exact Ed|]. split; [exact Ec|]. split; [exact Ep|].
  split; [exact Ef|]. split; [|split].
  - intros k id. now apply select_customer_stable.
  - intros code id. now apply select_product_stable.
  - intros d id. now apply select_date_stable.
Qed.

Lemma dimension_load_keeps_stored_keys_witness :
  fst Cases.partial_load = Ret true /\
  SQL.select_product "71053" (working Sample.partial_conn) = Some 7 /\
  option_map (SQL.select_product "71053") (committed_of (snd Cases.partial_load))
  = Some (Some 7).
Proof.
  assert (H : load_dimensions Sample.unresolved_row = (Ret true, snd Cases.partial_load))
    by (vm_compute; reflexivity).
  split; [vm_compute; reflexivity|]. split; [reflexivity|].
  destruct (dimension_load_keeps_stored_keys Sample.unresolved_row _ Sample.partial_conn
              eq_refl H) as (c' & Hc' & _ & _ & _ & _ & _ & _ & Hp & _).
  unfold committed_of. rewrite Hc'. simpl. f_equal. apply Hp. reflexivity.
Defined.

(* ================================================================== *)
(** ** The customer dimension *)
(* ================================================================== *)

(** After the upsert of [a], every row of its id carries its measures. *)
Lemma upsert_customer_measures a c r :
  In r (dim_customers (working (SQL.upsert_customer a c))) ->
  customer_id r = customer_id a ->
  customer_measures r = customer_measures a.
Proof.
  unfold SQL.upsert_customer. simpl.
  destruct (existsb _ (dim_customers (working c))) eqn:E.
  - intros Hr Hid. apply in_map_iff in Hr. destruct Hr as (x & <- & Hx).
    destruct (customer_id x =? customer_id a) eqn:Hh; [reflexivity|].
    apply Z.eqb_neq in Hh. contradiction.
  - intros Hr Hid. apply in_app_or in Hr. destruct Hr as [Hr|[<-|[]]]; [|reflexivity].
    exfalso. apply not_true_iff_false in E. apply E.
    apply existsb_exists. exists r. split; [assumption | now apply Z.eqb_eq].
Qed.

(** The upsert of [a] leaves the rows of other ids as they are. *)
Lemma upsert_customer_others a c r :
  In r (dim_customers (working (SQL.upsert_customer a c))) ->
  customer_id r <> customer_id a ->
  In r (dim_customers (working c)).
Proof.
  unfold SQL.upsert_customer. simpl.
  destruct (existsb _ (dim_customers (working c))) eqn:E.
  - intros Hr Hid. apply in_map_iff in Hr. destruct Hr as (x & <- & Hx).
    destruct (customer_id x =? customer_id a) eqn:Hh; [|exact Hx].
    simpl in Hid. apply Z.eqb_eq in Hh. contradiction.
  - intros Hr Hid. apply in_app_or in Hr. destruct Hr as [Hr|[<-|[]]]; [exact Hr|].
    contradiction.
Qed.

Lemma upserts_customer_measures rows :
  forall c a,
    In a rows \/
    (forall r, In r (dim_customers (working c)) -> customer_id r = customer_id a ->
               customer_measures r = customer_measures a) ->
    (forall a', In a' rows -> customer_id a' = customer_id a -> a' = a) ->
    forall r,
      In r (dim_customers
              (working (fold_left (fun c r => SQL.upsert_customer r c) rows c))) ->
      customer_id r = customer_id a ->
      customer_measures r = customer_measures a.
Proof.
  induction rows as [|b rows IH]; intros c a Ha Hfun; simpl.
  - destruct Ha as [[]|Ha]. exact Ha.
  - apply IH; [|intros a' Ha'; apply Hfun; now right].
    destruct (Z.eq_dec (customer_id b) (customer_id a)) as [E|E].
    + right. rewrite (Hfun b (or_introl eq_refl) E). apply upsert_customer_measures.
    + destruct Ha as [[->|Ha]|Ha]; [congruence | now left |].
      right. intros r Hr Hid. apply Ha; [|exact Hid].
      eapply upsert_customer_others; [exact Hr | congruence].
Qed.

(** A customer the table did not know is stored as the batch gives it. *)
Lemma upserts_customer_new rows :
  forall c a,
    (In a rows /\ ~ In (customer_id a) (map customer_id (dim_customers (working c)))) \/
    (forall r, In r (dim_customers (working c)) -> customer_id r = customer_id a -> r = a) ->
    (forall a', In a' rows -> customer_id a' = customer_id a -> a' = a) ->
    forall r,
      In r (dim_customers
              (working (fold_left (fun c r => SQL.upsert_customer r c) rows c))) ->
      customer_id r = customer_id a -> r = a.
Proof.
  induction rows as [|b rows IH]; intros c a Ha Hfun; simpl.
  - destruct Ha as [[[] _]|Ha]. exact Ha.
  - apply IH; [|intros a' Ha'; apply Hfun; now right].
    destruct (Z.eq_dec (customer_id b) (customer_id a)) as [E|E].
    + right. rewrite (Hfun b (or_introl eq_refl) E).
      assert (Hall : forall r, In r (dim_customers (working c)) ->
                               customer_id r = customer_id a -> r = a).
      { destruct Ha as [[_ Hno]|Ha]; [|exact Ha].
        intros r Hr Hid. exfalso. apply Hno. rewrite <- Hid. now apply in_map. }
      intros r. unfold SQL.upsert_customer. simpl.
      destruct (existsb _ (dim_customers (working c))) eqn:Ex.
      * intros Hr Hid. apply in_map_iff in Hr. destruct Hr as (x & <- & Hx).
        destruct (customer_id x =? customer_id a) eqn:Hh.
        -- apply Z.eqb_eq in Hh. rewrite (Hall x Hx Hh). now destruct a.
        -- apply Z.eqb_neq in Hh. contradiction.
      * intros Hr Hid. apply in_app_or in Hr. destruct Hr as [Hr|[<-|[]]]; [|reflexivity].
        now apply Hall.
    + destruct Ha as [[[->|Ha] Hno]|Ha]; [congruence | |].
      * left. split; [exact Ha|]. intros F. apply Hno.
        apply in_map_iff in F. destruct F as (r & Hid & Hr).
        apply upsert_customer_others in Hr; [|congruence].
        rewrite <- Hid. now apply in_map.
      * right. intros r Hr Hid. apply Ha; [|exact Hid].
        eapply upsert_customer_others; [exact Hr | congruence].
Qed.

Lemma customers_df_id clean a :
  In a (customers_df clean) ->
  a = customer_agg clean (customer_id a) /\ In (customer_id a) (map CustomerID clean).
Proof.
  unfold customers_df. intros H. apply in_map_iff in H.
  destruct H as (k & <- & Hk). split; [reflexivity|]. simpl.
  now apply (group_keys_distinct Z.eqb Z.eqb_eq) in Hk.
Qed.

Lemma customers_df_has clean k :
  In k (map CustomerID clean) -> In (customer_agg clean k) (customers_df clean).
Proof.
  intros H. unfold customers_df. apply in_map.
  now apply (group_keys_distinct Z.eqb Z.eqb_eq).
Qed.

(** X3.  After a successful dimension load, every customer of the batch
    has a row, and every row of that customer carries the measures of
    this batch alone: last purchase date the latest timestamp, orders the
    number of distinct invoices and lifetime value the sum of the totals
    of the customer's records in the batch.  What was stored is
    overwritten, not added to.  A customer storage did not know is stored
    with the first country and the earliest timestamp of the batch. *)
Theorem customer_rows_hold_batch_measures :
  forall s s' c clean,
    conn s = Some c -> df_clean s = Some clean ->
    load_dimensions s = (Ret true, s') ->
    exists c',
      conn s' = Some c' /\
      forall k,
        In k (map CustomerID clean) ->
        let g := customer_group clean k in
        (exists r, In r (dim_customers (committed c')) /\ customer_id r = k) /\
        forall r,
          In r (dim_customers (committed c')) -> customer_id r = k ->
          last_purchase_date r = ts_max (map InvoiceDate g) /\
          total_orders r = nunique (map InvoiceNo g) /\
          lifetime_value r = Qsum (valid (map TotalAmount g)) /\
          (SQL.select_customer k (working c) = None ->
           country r = first_valid (map Country g) /\
           first_purchase_date r = ts_min (map InvoiceDate g)).
Proof.
  intros s s' c clean Hc Hclean H.
  apply load_dimensions_ok in H.
  destruct H as (c0 & clean' & attrs & sc & Hc0 & _ & Hclean' & _ & ->).
  rewrite Hc in Hc0. injection Hc0 as <-.
  rewrite Hclean in Hclean'. injection Hclean' as <-.
  eexists. split; [reflexivity|].
  intros k Hk g.
  change (committed (set_script sc (loaded_dimensions clean attrs c)))
    with (working (fold_left (fun c r => SQL.upsert_product r c) (products_df clean)
                     (loaded_customers clean (loaded_dates attrs c)))).
  rewrite (same_fold (fun c => dim_customers (working c)) SQL.upsert_product
             (products_df clean) (fun r c => eq_refl)).
  unfold loaded_customers. change (working (publish ?x)) with (working x).
  assert (Hfun : forall a', In a' (customers_df clean) ->
                            customer_id a' = customer_id (customer_agg clean k) ->
                            a' = customer_agg clean k).
  { intros a' Ha' E. apply customers_df_id in Ha'. destruct Ha' as [-> _].
    simpl in E. now rewrite E. }
  split.
  - pose proof (upsert_customers_store (customers_df clean) (loaded_dates attrs c) k
                  (or_introl (customers_df_ids clean k Hk))) as Hin.
    apply in_map_iff in Hin. destruct Hin as (r & Hid & Hr). eauto.
  - intros r Hr Hid.
    pose proof (upserts_customer_measures (customers_df clean) (loaded_dates attrs c)
                  (customer_agg clean k) (or_introl (customers_df_has clean k Hk))
                  Hfun r Hr Hid) as Hm.
    unfold customer_measures in Hm. simpl in Hm.
    injection Hm as H1 H2 H3.
    split; [exact H1|]. split; [exact H2|]. split; [exact H3|].
    intros Hnew.
    assert (Hno : ~ In k (map customer_id (dim_customers (working (loaded_dates attrs c))))).
    { intros F.
      unfold loaded_dates in F. change (working (publish ?x)) with (working x) in F.
      rewrite (same_fold (fun c => map customer_id (dim_customers (working c)))
                 SQL.insert_date attrs) in F.
      - apply select_customer_found in F. congruence.
      - intros a c1. unfold SQL.insert_date. simpl.
        destruct (existsb _ (dim_dates (working c1))); reflexivity. }
    pose proof (upserts_customer_new (customers_df clean) (loaded_dates attrs c)
                  (customer_agg clean k)
                  (or_introl (conj (customers_df_has clean k Hk) Hno))
                  Hfun r Hr Hid) as Hr'.
    rewrite Hr'. split; reflexivity.
Qed.

Lemma customer_rows_hold_batch_measures_witness :
  fst Cases.partial_load = Ret true /\
  exists c' r,
    conn (snd Cases.partial_load) = Some c' /\
    In r (dim_customers (committed c')) /\ customer_id r = 101 /\
    (lifetime_value r == 2784 # 100)%Q.
Proof.
  assert (H : load_dimensions Sample.unresolved_row = (Ret true, snd Cases.partial_load))
    by (vm_compute; reflexivity).
  split; [vm_compute; reflexivity|].
  destruct (customer_rows_hold_batch_measures Sample.unresolved_row _ Sample.partial_conn
              (Sample.frame_of Sample.unresolved_row) eq_refl eq_refl H)
    as (c' & Hc' & Hk).
  destruct (Hk 101) as [(r & Hr & Hid) Hall]; [vm_compute; left; reflexivity|].
  exists c', r. split; [exact Hc'|]. split; [exact Hr|]. split; [exact Hid|].
  destruct (Hall r Hr Hid) as (_ & _ & -> & _). vm_compute. reflexivity.
Defined.

(** *** Sums of a column *)

Lemma Qsum_from acc l :
  (fold_left (fun a b => Qred (a + b)) l acc == acc + Qtotal l)%Q.
Proof.
  revert acc. induction l as [|x l IH]; intros acc; simpl.
  - ring.
  - rewrite IH. rewrite (Qred_correct (acc + x)). ring.
Qed.

Lemma Qsum_total l : (Qsum l == Qtotal l)%Q.
Proof. unfold Qsum. rewrite Qsum_from. ring. Qed.

(** *** The customer groups partition the batch *)

Lemma customer_group_cons r clean k :
  customer_group (r :: clean) k
  = if CustomerID r =? k then r :: customer_group clean k else customer_group clean k.
Proof. reflexivity. Qed.

Lemma groups_without r clean keys :
  ~ In (CustomerID r) keys ->
  map (customer_group (r :: clean)) keys = map (customer_group clean) keys.
Proof.
  intros H. apply map_ext_in. intros k Hk. rewrite customer_group_cons.
  destruct (CustomerID r =? k) eqn:E; [|reflexivity].
  apply Z.eqb_eq in E. subst k. contradiction.
Qed.

(** The groups of distinct keys that cover the ids of a frame hold its
    records, each one once. *)
Lemma groups_partition clean :
  forall keys,
    NoDup keys ->
    (forall r, In r clean -> In (CustomerID r) keys) ->
    Permutation (List.concat (map (customer_group clean) keys)) clean.
Proof.
  induction clean as [|r clean IH]; intros keys N Hin.
  - replace (List.concat (map (customer_group []) keys)) with (@nil CleanRecord);
      [constructor|].
    clear. induction keys as [|k keys IHk]; simpl; [reflexivity | exact IHk].
  - assert (IH' := IH keys N (fun r' Hr' => Hin r' (or_intror Hr'))).
    destruct (in_split (CustomerID r) keys (Hin r (or_introl eq_refl)))
      as (k1 & k2 & ->).
    apply NoDup_remove in N. destruct N as [_ Hn].
    rewrite map_app, concat_app in *. cbn [map List.concat] in *.
    rewrite customer_group_cons, Z.eqb_refl.
    rewrite (groups_without r clean k1), (groups_without r clean k2);
      try (intros F; apply Hn; apply in_or_app; tauto).
    rewrite <- app_comm_cons.
    apply Permutation_sym, Permutation_cons_app, Permutation_sym. exact IH'.
Qed.

(** X4.  The groups behind [customers_df] partition the batch.  The
    frame holds one row per customer id of the batch and no other; the
    group of every row is not empty and the row is the aggregate of its
    group; and the groups of the rows, one after the other, hold the
    clean records of the batch, each record exactly once: every record
    is counted for one customer, none is counted twice or left out. *)
Theorem customer_groups_partition_the_batch :
  forall clean,
    let ids := map customer_id (customers_df clean) in
    NoDup ids /\
    (forall k, In k ids <-> In k (map CustomerID clean)) /\
    (forall row, In row (customers_df clean) ->
       customer_group clean (customer_id row) <> [] /\
       row = customer_agg clean (customer_id row)) /\
    Permutation (List.concat (map (customer_group clean) ids)) clean.
Proof.
  intros clean ids.
  assert (E : ids = group_keys Z.eqb Z.leb (map CustomerID clean)).
  { unfold ids, customers_df. rewrite map_map. simpl. apply map_id. }
  destruct (group_keys_distinct Z.eqb Z.eqb_eq Z.leb (map CustomerID clean)) as [N Hin].
  rewrite E. split; [exact N|]. split; [exact Hin|]. split.
  - intros row Hrow. unfold customers_df in Hrow. apply in_map_iff in Hrow.
    destruct Hrow as (k & <- & Hk). split; [|reflexivity].
    apply Hin in Hk. apply in_map_iff in Hk. destruct Hk as (r & Hr & Hrin).
    simpl. intros F.
    assert (Hg : In r (customer_group clean k)).
    { apply filter_In. split; [exact Hrin|]. now apply Z.eqb_eq. }
    rewrite F in Hg. destruct Hg.
  - apply groups_partition; [exact N|].
    intros r Hr. apply Hin. now apply in_map.
Qed.

(* ================================================================== *)
(** ** Transform on frames it cannot clean *)
(* ================================================================== *)

Section TransformEdges.
Variable to_datetime : string -> option Timestamp.

(** X5.  On an empty raw frame [transform] returns [False] and records
    the error of a division by zero, raised by its closing log line;
    by then it has stored the empty clean frame and set
    [rows_after_cleaning] to 0. *)
Theorem transform_of_empty_frame :
  forall s,
    df_raw s = Some [] ->
    exists s',
      transform to_datetime s = (Ret false, s') /\
      df_clean s' = Some [] /\
      rows_after_cleaning (stats s') = 0%nat /\
      errors (stats s') = errors (stats s) ++ ["Transformation error: division by zero"] /\
      trace s' = trace s ++ [(Transform, Failed)] /\
      conn s' = conn s.
Proof.
  intros s H. eexists.
  unfold transform, staged, try_except, bind, read. rewrite H. simpl.
  repeat split.
Qed.

Lemma eqb_same_cells a b : RawRecord_eqb a b = true -> same_cells a b.
Proof.
  unfold RawRecord_eqb, same_cells. rewrite !andb_true_iff.
  intros (((((((_ & _) & Hd) & _) & Hdate) & _) & Hcust) & _).
  assert (E : forall x y : option string, option_eqb String.eqb x y = true -> x = y).
  { intros [x|] [y|]; simpl; try discriminate; [|reflexivity].
    intros F. apply String.eqb_eq in F. now subst. }
  auto.
Qed.

Lemma same_cells_trans a b c : same_cells a b -> same_cells b c -> same_cells a c.
Proof. unfold same_cells. intros (H1 & H2 & H3) (H4 & H5 & H6). repeat split; congruence. Qed.

(** Every row has a row of the same cells among those kept. *)
Lemma keep_first_represents l :
  forall seen kept,
    (forall y, In y seen -> exists k, In k kept /\ same_cells y k) ->
    forall x, In x l ->
      exists k, In k (kept ++ keep_first RawRecord_eqb seen l) /\ same_cells x k.
Proof.
  induction l as [|y l IH]; intros seen kept Hseen x Hx; [destruct Hx|].
  simpl. destruct (existsb (RawRecord_eqb y) seen) eqn:E.
  - assert (Hy : exists k, In k kept /\ same_cells y k).
    { apply existsb_exists in E. destruct E as (z & Hz & Ez).
      destruct (Hseen z Hz) as (k & Hk & Hzk). exists k. split; [exact Hk|].
      eapply same_cells_trans; [apply eqb_same_cells, Ez | exact Hzk]. }
    destruct Hx as [<-|Hx].
    + destruct Hy as (k & Hk & Hyk). exists k. split; [|exact Hyk].
      apply in_or_app. now left.
    + apply (IH (y :: seen) kept); [|exact Hx].
      intros z [<-|Hz]; [exact Hy | now apply Hseen].
  - assert (Hkept : forall z, In z (y :: seen) ->
                              exists k, In k (kept ++ [y]) /\ same_cells z k).
    { intros z [<-|Hz].
      - exists y. split; [apply in_or_app; right; now left | repeat split].
      - destruct (Hseen z Hz) as (k & Hk & Hzk). exists k. split; [|exact Hzk].
        apply in_or_app. now left. }
    replace (kept ++ y :: keep_first RawRecord_eqb (y :: seen) l)
      with ((kept ++ [y]) ++ keep_first RawRecord_eqb (y :: seen) l)
      by (rewrite <- app_assoc; reflexivity).
    destruct Hx as [<-|Hx].
    + exists y. split; [|repeat split].
      apply in_or_app. left. apply in_or_app. right. now left.
    + now apply (IH (y :: seen) (kept ++ [y])).
Qed.

Lemma convert_same_cells a b :
  same_cells a b -> convert to_datetime a = None -> convert to_datetime b = None.
Proof.
  unfold convert. intros (H1 & H2 & _). rewrite H1, H2.
  destruct (match raw_InvoiceDate b with Some s => _ | None => _ end); [|reflexivity].
  destruct (raw_CustomerID b) as [sid|]; [|reflexivity].
  destruct (PyStr.int sid) as [id|]; [|reflexivity].
  destruct (int64 id); [discriminate | reflexivity].
Qed.

Lemma convert_all_none l x :
  In x l -> convert to_datetime x = None -> convert_all to_datetime l = None.
Proof.
  induction l as [|r l IH]; intros Hx Hn; [destruct Hx|].
  simpl. destruct Hx as [->|Hx].
  - now rewrite Hn.
  - rewrite (IH Hx Hn). now destruct (convert to_datetime r).
Qed.

Lemma clean_frame_unreadable raw r :
  In r raw -> notna (raw_CustomerID r) = true -> notna (raw_Description r) = true ->
  convert to_datetime r = None ->
  clean_frame to_datetime raw = None.
Proof.
  intros Hr Hc Hd Hn. unfold clean_frame.
  destruct (keep_first_represents raw [] [] (fun y F => match F with end) r Hr)
    as (k & Hk & Hrk).
  simpl in Hk. fold (drop_duplicates RawRecord_eqb raw) in Hk.
  rewrite (convert_all_none _ k); [reflexivity | |].
  - destruct Hrk as (_ & E2 & E3).
    apply filter_In. split; [apply filter_In; split; [exact Hk|] |]; congruence.
  - now apply (convert_same_cells r k).
Qed.

(** X6.  One cell that cannot be converted fails the whole transform,
    also when it stands in a row the later filters would drop (a
    cancellation, a non-positive quantity or price): the conversions of
    step 3 run before the filters of step 4.  When the raw frame holds a
    row with a customer id and a description whose customer id is no
    integer or whose date cannot be read, [transform] returns [False],
    records one error and stores no clean frame. *)
Theorem unreadable_cell_fails_transform :
  forall s raw r,
    df_raw s = Some raw ->
    In r raw ->
    notna (raw_CustomerID r) = true -> notna (raw_Description r) = true ->
    convert to_datetime r = None ->
    exists s' msg,
      transform to_datetime s = (Ret false, s') /\
      df_clean s' = df_clean s /\
      rows_after_cleaning (stats s') = rows_after_cleaning (stats s) /\
      errors (stats s') = errors (stats s) ++ [("Transformation error: " ++ msg)%string].
Proof.
  intros s raw r Hraw Hr Hc Hd Hn.
  pose proof (clean_frame_unreadable raw r Hr Hc Hd Hn) as Hf.
  eexists. exists (str ValueError).
  unfold transform, staged, try_except, bind, read. rewrite Hraw, Hf. simpl.
  repeat split.
Qed.

End TransformEdges.

Lemma transform_of_empty_frame_witness :
  df_raw Cases.extracted_nothing = Some [] /\
  fst (transform Reference.iso_datetime Cases.extracted_nothing) = Ret false.
Proof.
  split; [reflexivity|].
  destruct (transform_of_empty_frame Reference.iso_datetime Cases.extracted_nothing eq_refl)
    as (s' & -> & _).
  reflexivity.
Defined.

Lemma unreadable_cell_fails_transform_witness :
  raw_not_cancelled Cases.row_bad_date = false /\
  fst (transform Reference.iso_datetime
         (Sample.loaded [Sample.row_a; Cases.row_bad_date])) = Ret false.
Proof.
  split; [reflexivity|].
  destruct (unreadable_cell_fails_transform Reference.iso_datetime
              (Sample.loaded [Sample.row_a; Cases.row_bad_date])
              [Sample.row_a; Cases.row_bad_date] Cases.row_bad_date
              eq_refl (or_intror (or_introl eq_refl)) eq_refl eq_refl eq_refl)
    as (s' & msg & -> & _).
  reflexivity.
Defined.

(* ================================================================== *)
(** ** Runs that end before anything is loaded *)
(* ================================================================== *)

Section EarlyEnd.
Variable to_datetime : string -> option Timestamp.

(** X7.  When the input cannot be cleaned (the file cannot be read, it
    holds no row, or a conversion fails), [run] returns [False] and
    storage has not been asked anything: the tables are those the server
    held, no request was made, the connection is closed, and exactly one
    error was recorded. *)
Theorem run_that_cannot_clean_asks_storage_nothing :
  forall w filepath s srv,
    server w = Some srv ->
    (read_csv w filepath = None \/
     exists raw, read_csv w filepath = Some raw /\
                 (raw = [] \/ clean_frame to_datetime raw = None)) ->
    exists s' msg,
      run to_datetime w filepath s = (false, s') /\
      errors (stats s') = errors (stats s) ++ [msg] /\
      conn s' = Some (mkConnection (srv_tables srv) (srv_tables srv)
                        (srv_seq_date_id srv) (srv_seq_product_id srv)
                        (srv_script srv) true).
Proof.
  intros w filepath s srv Hsrv Hin.
  unfold run, try_except, run_body.
  unfold bind at 1. rewrite (connect_served w srv s Hsrv). cbn [negb].
  set (s1 := set_trace _ _).
  unfold bind at 1.
  destruct Hin as [Hno|(raw & Hraw & Hbad)].
  - (* the file cannot be read *)
    unfold extract, staged, try_except, bind, record_error, update, ret, raise.
    rewrite Hno. simpl.
    eexists. eexists. repeat split.
  - destruct (comparable (map raw_InvoiceDate raw)) eqn:Hcmp.
    2:{ (* the log line of the date range fails *)
        unfold extract, staged, try_except, bind, record_error, update, ret, raise.
        rewrite Hraw. cbn. rewrite Hcmp. simpl.
        eexists. eexists. repeat split. }
    rewrite (extract_read w filepath raw s1 Hraw Hcmp). cbn [negb].
    set (s2 := set_trace _ _).
    unfold bind at 1.
    unfold transform, staged, try_except, bind, read, record_error, update, ret, raise.
    change (df_raw s2) with (Some raw).
    destruct Hbad as [->|Hbad].
    + (* no row *)
      simpl. eexists. eexists. repeat split.
    + (* a conversion fails *)
      rewrite Hbad. simpl. eexists. eexists. repeat split.
Qed.

(** X8.  When no connection can be made, [run] returns [False] after
    [connect] alone: the file is not read, one connection error is
    recorded and the object has no connection. *)
Theorem run_without_server_reads_nothing :
  forall w filepath s,
    server w = None ->
    conn s = None ->
    exists s' msg,
      run to_datetime w filepath s = (false, s') /\
      df_raw s' = df_raw s /\ df_clean s' = df_clean s /\
      conn s' = None /\
      trace s' = trace s ++ [(Connect, Failed)] /\
      errors (stats s') = errors (stats s) ++ [("Connection error: " ++ msg)%string].
Proof.
  intros w filepath s Hsrv Hc.
  unfold run, try_except, run_body, bind, connect, staged, try_except, bind,
    record_error, update, ret, raise.
  rewrite Hsrv. simpl. unfold close. simpl. rewrite Hc.
  eexists. eexists. repeat split. exact Hc.
Qed.

End EarlyEnd.

Lemma run_that_cannot_clean_asks_storage_nothing_witness :
  server Cases.no_file = Some (Sample.fresh_server []) /\
  fst (run Reference.iso_datetime Cases.no_file Sample.path init) = false.
Proof.
  split; [reflexivity|].
  destruct (run_that_cannot_clean_asks_storage_nothing Reference.iso_datetime
              Cases.no_file Sample.path init (Sample.fresh_server []) eq_refl
              (or_introl eq_refl)) as (s' & msg & -> & _).
  reflexivity.
Defined.

Lemma run_without_server_reads_nothing_witness :
  server Cases.no_server = None /\
  fst (run Reference.iso_datetime Cases.no_server Sample.path init) = false.
Proof.
  split; [reflexivity|].
  destruct (run_without_server_reads_nothing Reference.iso_datetime
              Cases.no_server Sample.path init eq_refl eq_refl) as (s' & msg & -> & _).
  reflexivity.
Defined.

(* ================================================================== *)
(** ** Methods on an object without a usable connection *)
(* ================================================================== *)

(** X9.  On an object that has no connection, or whose connection is
    closed, [load_dimensions] and [load_facts] do not return [False]:
    the rollback of their handlers raises again, the exception leaves the
    method and no error is recorded.  [refresh_aggregates] and
    [validate], whose handlers do not touch the connection, return
    [False] and the empty mapping.  None of them changes the object. *)
Theorem loads_raise_without_usable_connection :
  forall s e,
    unusable s = Some e ->
    load_dimensions s
    = (Raise e, set_trace (trace s ++ [(LoadDimensions, Escaped)]) s) /\
    load_facts s = (Raise e, set_trace (trace s ++ [(LoadFacts, Escaped)]) s) /\
    refresh_aggregates s
    = (Ret false, set_trace (trace s ++ [(RefreshAggregates, Failed)]) s) /\
    validate s = (Ret None, set_trace (trace s ++ [(Validate, Failed)]) s).
Proof.
  intros s e. unfold unusable.
  destruct (conn s) as [c|] eqn:Hc; [destruct (closed c) eqn:Ho; [|discriminate]|];
    intros H; injection H as <-.
  - unfold load_dimensions, load_facts, refresh_aggregates, validate, staged, try_except,
      rollback, execute, request, cursor, bind, the_conn, raise.
    repeat (progress (rewrite ?Hc; cbn; rewrite ?Ho; cbn)). repeat split.
  - unfold load_dimensions, load_facts, refresh_aggregates, validate, staged, try_except,
      rollback, execute, request, cursor, bind, the_conn.
    repeat (progress (rewrite ?Hc; cbn)). repeat split.
Qed.

Lemma loads_raise_without_usable_connection_witness :
  fst Cases.four_row_run = true /\
  unusable (snd Cases.four_row_run) = Some InterfaceError /\
  fst (load_facts (snd Cases.four_row_run)) = Raise InterfaceError.
Proof.
  split; [vm_compute; reflexivity|].
  assert (H : unusable (snd Cases.four_row_run) = Some InterfaceError)
    by (vm_compute; reflexivity).
  split; [exact H|].
  destruct (loads_raise_without_usable_connection (snd Cases.four_row_run) _ H)
    as (_ & -> & _).
  reflexivity.
Defined.

(* ================================================================== *)
(** ** Loading the facts of a batch again *)
(* ================================================================== *)

Lemma resolved_dims t t' row :
  dim_dates t' = dim_dates t -> dim_customers t' = dim_customers t ->
  dim_products t' = dim_products t ->
  resolved t' row = resolved t row.
Proof.
  intros Hd Hcu Hp.
  unfold resolved, SQL.select_customer, SQL.select_product, SQL.select_date.
  now rewrite Hd, Hcu, Hp.
Qed.

Lemma insert_pages_dims pages c :
  let c' := fold_left (fun c p => SQL.insert_facts p c) pages c in
  dim_dates (working c') = dim_dates (working c) /\
  dim_customers (working c') = dim_customers (working c) /\
  dim_products (working c') = dim_products (working c).
Proof.
  cbv zeta. split; [|split].
  - apply (same_fold (fun c => dim_dates (working c)) SQL.insert_facts pages).
    reflexivity.
  - apply (same_fold (fun c => dim_customers (working c)) SQL.insert_facts pages).
    reflexivity.
  - apply (same_fold (fun c => dim_products (working c)) SQL.insert_facts pages).
    reflexivity.
Qed.

(** X10.  The fact load is not idempotent.  On a connection that serves
    every request, loading the facts of the same clean frame a second
    time succeeds and appends the same facts once more: storage then
    holds them twice, while [transactions_loaded] still counts them
    once and the dimension tables are as they were. *)
Theorem fact_load_repeated_appends_again :
  forall s c clean,
    conn s = Some c -> closed c = false -> script c = [] ->
    df_clean s = Some clean ->
    Forall (fun row => StockCode row <> None /\ InvoiceDate row <> None) clean ->
    exists s1 s2 c2,
      load_facts s = (Ret true, s1) /\
      load_facts s1 = (Ret true, s2) /\
      conn s2 = Some c2 /\
      let facts := valid (map (resolved (working c)) clean) in
      fact_transactions (committed c2) = fact_transactions (working c) ++ facts ++ facts /\
      transactions_loaded (stats s2) = List.length facts /\
      dim_dates (committed c2) = dim_dates (working c) /\
      dim_customers (committed c2) = dim_customers (working c) /\
      dim_products (committed c2) = dim_products (working c).
Proof.
  intros s c clean Hc Ho Hs Hclean Hkeys.
  set (facts := valid (map (resolved (working c)) clean)).
  set (c1 := publish (fold_left (fun c p => SQL.insert_facts p c)
                        (paginate 1000 [] facts) c)).
  destruct (insert_pages_frame (paginate 1000 [] facts) c) as (Hs1 & Ho1 & _).
  destruct (insert_pages_dims (paginate 1000 [] facts) c) as (Hd1 & Hcu1 & Hp1).
  cbv zeta in *.
  pose proof (load_facts_idle s c clean Hc Ho Hs Hclean Hkeys) as E1.
  fold facts in E1. fold c1 in E1.
  set (s1 := set_trace _ _) in E1.
  assert (Hr : valid (map (resolved (working c1)) clean) = facts).
  { unfold facts. f_equal. apply map_ext. intros row.
    apply resolved_dims; assumption. }
  assert (E2 := load_facts_idle s1 c1 clean eq_refl).
  rewrite Hr in E2.
  assert (Ho' : closed c1 = false) by (rewrite <- Ho; exact Ho1).
  assert (Hs' : script c1 = []) by (rewrite <- Hs; exact Hs1).
  specialize (E2 Ho' Hs' Hclean Hkeys).
  destruct (insert_pages_dims (paginate 1000 [] facts) c1) as (Hd2 & Hcu2 & Hp2).
  cbv zeta in *.
  eexists. eexists. eexists.
  split; [exact E1|]. split; [exact E2|]. split; [reflexivity|].
  cbv zeta. simpl.
  rewrite !insert_pages_facts, !paginate_concat. simpl.
  rewrite insert_pages_facts, paginate_concat. simpl.
  split; [now rewrite <- app_assoc|]. split; [reflexivity|].
  split; [|split].
  - etransitivity; [exact Hd2 | exact Hd1].
  - etransitivity; [exact Hcu2 | exact Hcu1].
  - etransitivity; [exact Hp2 | exact Hp1].
Qed.

Lemma fact_load_repeated_appends_again_witness :
  exists c2,
    conn (snd (load_facts (snd (load_facts Cases.ready_for_facts)))) = Some c2 /\
    List.length (fact_transactions (committed c2)) = 2%nat.
Proof.
  assert (Hc : exists c, conn Cases.ready_for_facts = Some c /\ closed c = false /\
                         script c = [] /\ fact_transactions (working c) = [] /\
                         List.length (valid (map (resolved (working c))
                                               (Sample.frame_of Cases.ready_for_facts)))
                         = 1%nat).
  { vm_compute. eexists. repeat split. }
  destruct Hc as (c & Hc & Ho & Hs & Hf & Hl).
  assert (Hkeys : Forall (fun row => StockCode row <> None /\ InvoiceDate row <> None)
                         (Sample.frame_of Cases.ready_for_facts)).
  { vm_compute. repeat constructor; discriminate. }
  destruct (fact_load_repeated_appends_again Cases.ready_for_facts c
              (Sample.frame_of Cases.ready_for_facts) Hc Ho Hs eq_refl Hkeys)
    as (s1 & s2 & c2 & E1 & E2 & Hc2 & Hfacts & _).
  exists c2. rewrite E1. simpl. rewrite E2. simpl. split; [exact Hc2|].
  rewrite Hfacts, Hf, !length_app, Hl. reflexivity.
Defined.

(* ================================================================== *)
(** ** The refresh of the aggregates *)
(* ================================================================== *)

Lemma working_execute stmt :
  (forall c, working (stmt c) = working c) -> leaves working_of (execute stmt).
Proof.
  intros H. apply leaves_execute; [apply working_script|].
  intros c s Hc. unfold working_of. simpl. now rewrite Hc, H.
Qed.

Lemma refresh_body_raised :
  leaves_if_raised committed_of (cursor ;; execute (fun c => c) ;; commit ;; ret true).
Proof.
  apply raised_bind.
  { apply leaves_cursor. }
  intros _. apply raised_bind.
  { apply committed_execute. reflexivity. }
  intros _ s e s' H. apply bind_raises in H.
  destruct H as [H|(a & s1 & _ & H)]; [|discriminate].
  eapply commit_raised, H.
Qed.

(** X11.  [refresh_aggregates] never raises and records no error,
    whatever storage answers.  It changes no table of the open
    transaction.  When it returns [True] the transaction has been
    committed; when it returns [False] nothing has been committed and
    nothing rolled back: what storage holds is what it held. *)
Theorem refresh_returns_and_records_nothing :
  forall s r s',
    refresh_aggregates s = (r, s') ->
    exists b,
      r = Ret b /\
      stats s' = stats s /\
      working_of s' = working_of s /\
      (b = true -> committed_of s' = working_of s) /\
      (b = false -> committed_of s' = committed_of s).
Proof.
  intros s r s' H.
  assert (Hstats : stats s' = stats s).
  { revert H. generalize s, r, s'. change (leaves stats refresh_aggregates).
    unfold refresh_aggregates. leave. }
  assert (Hwork : working_of s' = working_of s).
  { revert H. generalize s, r, s'. change (leaves working_of refresh_aggregates).
    unfold refresh_aggregates. apply leaves_staged; [reflexivity|].
    apply leaves_try_except; [|intros e; apply leaves_ret].
    apply leaves_bind; [apply leaves_cursor|]. intros _.
    apply leaves_bind; [apply working_execute; reflexivity|]. intros _.
    apply leaves_bind; [apply working_execute; reflexivity|]. intros _.
    apply leaves_ret. }
  destruct r as [[|]|e].
  - exists true. repeat split; try assumption; [|discriminate].
    intros _. apply refresh_aggregates_ok in H.
    destruct H as (c & sc & Hc & _ & ->).
    unfold committed_of, working_of. simpl. now rewrite Hc.
  - exists false. repeat split; try assumption; [discriminate|].
    intros _. apply staged_result in H. destruct H as (s0 & H & ->).
    change (committed_of (set_trace _ s0)) with (committed_of s0).
    unfold try_except in H.
    match type of H with
    | context [match ?body s with _ => _ end] => destruct (body s) as [[b|e] s1] eqn:Eb
    end.
    + injection H as -> ->.
      assert (F : returns_only (fun b => b = true)
                    (cursor ;; execute (fun c => c) ;; commit ;; ret true)) by only_true.
      specialize (F _ _ _ Eb). discriminate.
    + injection H as <-. eapply refresh_body_raised, Eb.
  - exfalso. apply staged_result in H. destruct H as (s0 & H & _).
    unfold try_except in H.
    match type of H with
    | context [match ?body s with _ => _ end] => destruct (body s) as [[b|e'] s1]
    end; discriminate.
Qed.

Lemma refresh_returns_and_records_nothing_witness :
  fst (refresh_aggregates Cases.before_failing_refresh) = Ret false /\
  committed_of (snd (refresh_aggregates Cases.before_failing_refresh))
  = committed_of Cases.before_failing_refresh /\
  option_map (fun t => List.length (fact_transactions t))
             (committed_of Cases.before_failing_refresh) = Some 1%nat.
Proof.
  assert (H : refresh_aggregates Cases.before_failing_refresh
              = (Ret false, snd (refresh_aggregates Cases.before_failing_refresh)))
    by (vm_compute; reflexivity).
  split; [vm_compute; reflexivity|].
  destruct (refresh_returns_and_records_nothing _ _ _ H) as (b & Hb & _ & _ & _ & Hf).
  injection Hb as <-.
  split; [exact (Hf eq_refl) | vm_compute; reflexivity].
Defined.

(* ================================================================== *)
(** ** A dimension load that fails half way *)
(* ================================================================== *)

Lemma execute_served stmt s c rest :
  conn s = Some c -> closed c = false -> script c = Done :: rest ->
  execute stmt s = (Ret tt, set_conn (Some (stmt (set_script rest c))) s).
Proof.
  intros Hc Ho Hs. unfold execute, request, bind, the_conn, update.
  rewrite Hc, Ho, Hs. reflexivity.
Qed.

Lemma execute_refused stmt s c msg rest :
  conn s = Some c -> closed c = false -> script c = Fails msg :: rest ->
  execute stmt s = (Raise (OperationalError msg), set_conn (Some (set_script rest c)) s).
Proof.
  intros Hc Ho Hs. unfold execute, request, bind, the_conn, update, raise.
  rewrite Hc, Ho, Hs. reflexivity.
Qed.

Lemma set_conn_twice a b s : set_conn a (set_conn b s) = set_conn a s.
Proof. reflexivity. Qed.

(** A loop of statements that the server serves one by one. *)
Lemma for_each_execute_served {A} (f : A -> Connection -> Connection) rows :
  (forall r, script_blind (f r)) ->
  (forall r c, closed (f r c) = closed c) ->
  forall s c rest,
    conn s = Some c -> closed c = false ->
    script c = repeat Done (List.length rows) ++ rest ->
    for_each rows (fun r => execute (f r)) s
    = (Ret tt, set_conn (Some (set_script rest (fold_left (fun c r => f r c) rows c))) s).
Proof.
  intros Hb Hcl. induction rows as [|r rows IH]; intros s c rest Hc Ho Hs.
  - simpl in *. rewrite <- Hs. now rewrite <- state_eta.
  - rewrite for_each_cons. unfold bind.
    rewrite (execute_served (f r) s c (repeat Done (List.length rows) ++ rest) Hc Ho Hs).
    rewrite (IH (set_conn (Some (f r (set_script (repeat Done (List.length rows) ++ rest) c))) s)
               (f r (set_script (repeat Done (List.length rows) ++ rest) c)) rest eq_refl).
    + rewrite set_conn_twice. simpl. rewrite (Hb r).
      rewrite (blind_fold f rows Hb). reflexivity.
    + now rewrite Hcl.
    + now rewrite (Hb r).
Qed.

Lemma customers_df_nonempty clean : clean <> [] -> customers_df clean <> [].
Proof.
  destruct clean as [|row clean]; [congruence|]. intros _ F.
  assert (H : In (customer_agg (row :: clean) (CustomerID row))
                 (customers_df (row :: clean))).
  { apply customers_df_has. now left. }
  rewrite F in H. destruct H.
Qed.

(** What the handler of a load leaves alone. *)
Lemma rollback_handler_leaves {X} (view : ETL -> X) label e :
  (forall c s, conn s = Some c -> forall c', committed c' = committed c ->
               view (set_conn (Some c') s) = view s) ->
  (forall msg s, view (set_stats (with_error msg (stats s)) s) = view s) ->
  leaves view (rollback ;; record_error (label ++ str e) ;; ret false).
Proof.
  intros Hconn Hstats.
  apply leaves_bind; [|intros _; apply leaves_bind; [|intros _; apply leaves_ret]].
  - apply leaves_execute.
    + intros sc b c s Hc. now apply (Hconn c).
    + intros c s Hc. now apply (Hconn c).
  - apply leaves_update. intros s. apply Hstats.
Qed.

(** X12.  [load_dimensions] commits after each dimension, so a failure
    in a later dimension leaves the earlier ones in storage.  When
    storage serves the date inserts and their commit and fails the first
    customer upsert, the load does not succeed, yet the dates of the
    batch are committed and [dates_loaded] is set; no customer is stored
    and [customers_loaded] is as it was. *)
Theorem failed_customer_load_keeps_the_dates :
  forall s c clean attrs msg sc,
    conn s = Some c -> closed c = false ->
    df_clean s = Some clean -> clean <> [] ->
    dates_df clean = map Some attrs ->
    script c = repeat Done (List.length attrs + 1) ++ Fails msg :: sc ->
    exists r s' c',
      load_dimensions s = (r, s') /\ r <> Ret true /\
      conn s' = Some c' /\
      dim_dates (committed c')
      = dim_dates (working (fold_left (fun c a => SQL.insert_date a c) attrs c)) /\
      dim_customers (committed c') = dim_customers (working c) /\
      dates_loaded (stats s') = List.length attrs /\
      customers_loaded (stats s') = customers_loaded (stats s).
Proof.
  intros s c clean attrs msg sc Hc Ho Hclean Hne Hattrs Hs.
  destruct (customers_df clean) as [|r0 rows] eqn:Ecust;
    [now apply customers_df_nonempty in Ecust|].
  set (c1 := fold_left (fun c a => SQL.insert_date a c) attrs c).
  set (V := fun s => (committed_of s, dates_loaded (stats s), customers_loaded (stats s))).
  destruct (load_dimensions s) as [r s'] eqn:E.
  apply staged_result in E. destruct E as (s0 & E & ->).
  unfold try_except in E.
  match type of E with
  | context [match ?body s with _ => _ end] =>
      assert (Eb : body s
                   = (Raise (OperationalError msg),
                      set_conn (Some (set_script sc (publish c1)))
                        (set_stats (with_dates_loaded (List.length (dates_df clean))
                                      (stats s)) s)))
  end.
  { unfold bind at 1. unfold cursor, bind at 1, the_conn. rewrite Hc, Ho. simpl.
    unfold bind at 1, the_df_clean. rewrite Hclean.
    rewrite Hattrs, Ecust.
    unfold bind at 1. rewrite for_each_insert_dates.
    rewrite Nat.add_1_r in Hs.
    replace (repeat Done (S (List.length attrs)))
      with (repeat Done (List.length attrs) ++ [Done]) in Hs
      by (rewrite <- repeat_cons; reflexivity).
    rewrite <- app_assoc in Hs.
    rewrite (for_each_execute_served SQL.insert_date attrs blind_insert_date
               (fun r c => eq_refl) s c _ Hc Ho Hs).
    fold c1.
    assert (Ho1 : closed c1 = false).
    { unfold c1. rewrite (same_fold closed SQL.insert_date attrs); [exact Ho|reflexivity]. }
    unfold bind at 1. unfold commit at 1.
    match goal with
    | |- context [execute publish ?st] =>
        rewrite (execute_served publish st (set_script ([Done] ++ Fails msg :: sc) c1)
                   (Fails msg :: sc) eq_refl Ho1 eq_refl)
    end.
    rewrite set_conn_twice.
    unfold bind at 1, update at 1.
    unfold bind at 1. rewrite for_each_cons. unfold bind at 1.
    match goal with
    | |- context [execute (SQL.upsert_customer r0) ?st] =>
        rewrite (execute_refused (SQL.upsert_customer r0) st
                   (publish (set_script (Fails msg :: sc)
                               (set_script ([Done] ++ Fails msg :: sc) c1)))
                   msg sc eq_refl Ho1 eq_refl)
    end.
    rewrite length_map. reflexivity. }
  rewrite Eb in E.
  assert (L : leaves V (rollback ;; record_error ("Dimension load error: "
                                                   ++ str (OperationalError msg)) ;;
                        ret false)).
  { apply rollback_handler_leaves.
    - intros c0 s1 Hc0 c' Hc'. unfold V, committed_of. simpl. now rewrite Hc0, Hc'.
    - intros m s1. reflexivity. }
  pose proof (L _ _ _ E) as HV. unfold V in HV. simpl in HV.
  injection HV as H1 H2 H3.
  change (committed_of (set_trace _ s0)) with (committed_of s0) in *.
  unfold committed_of in H1.
  destruct (conn s0) as [c'|] eqn:Ec'; [|discriminate]. simpl in H1. injection H1 as H1.
  exists r, (set_trace (trace s0 ++ [(LoadDimensions, ending_of (fun b => b) r)]) s0), c'.
  split; [reflexivity|]. split.
  - intros ->. apply rollback_handler_never_true in E. discriminate.
  - split; [exact Ec'|]. rewrite H1. simpl.
    split; [reflexivity|]. split.
    + unfold c1.
      apply (same_fold (fun c => dim_customers (working c)) SQL.insert_date attrs).
      intros a c0. unfold SQL.insert_date. simpl.
      destruct (existsb _ (dim_dates (working c0))); reflexivity.
    + split; [rewrite H2; now rewrite Hattrs, length_map | exact H3].
Qed.

Lemma failed_customer_load_keeps_the_dates_witness :
  fst (load_dimensions Cases.before_failing_customers) = Ret false /\
  exists c',
    conn (snd (load_dimensions Cases.before_failing_customers)) = Some c' /\
    map (fun r => full_date (date_attrs r)) (dim_dates (committed c')) = [mkDate 2010 12 1] /\
    dim_customers (committed c') = [].
Proof.
  split; [vm_compute; reflexivity|].
  assert (Hc : exists c,
             conn Cases.before_failing_customers = Some c /\ closed c = false /\
             script c = repeat Done (1 + 1) ++ Fails "disk full" :: [] /\
             dim_customers (working c) = [] /\
             map (fun r => full_date (date_attrs r))
                 (dim_dates (working (fold_left (fun c a => SQL.insert_date a c)
                                        [date_attrs_of (mkDate 2010 12 1)] c)))
             = [mkDate 2010 12 1]).
  { vm_compute. eexists. repeat split. }
  destruct Hc as (c & Hc & Ho & Hs & Hcu & Hd).
  destruct (failed_customer_load_keeps_the_dates Cases.before_failing_customers c
              (Sample.frame_of Cases.before_failing_customers)
              [date_attrs_of (mkDate 2010 12 1)] "disk full" []
              Hc Ho eq_refl ltac:(discriminate) eq_refl Hs)
    as (r & s' & c' & E & _ & Hc' & Hdates & Hcust & _).
  exists c'. rewrite E. simpl. split; [exact Hc'|].
  rewrite Hdates, Hcust. split; [exact Hd | exact Hcu].
Defined.

(* ================================================================== *)
(** ** Text cleaning *)
(* ================================================================== *)

Ltac each_char c :=
  destruct c as [[] [] [] [] [] [] [] []]; reflexivity.

Lemma upper_char_twice c : PyStr.upper_char (PyStr.upper_char c) = PyStr.upper_char c.
Proof. each_char c. Qed.

Lemma isspace_upper_char c : PyStr.isspace (PyStr.upper_char c) = PyStr.isspace c.
Proof. each_char c. Qed.

Lemma upper_twice s : PyStr.upper (PyStr.upper s) = PyStr.upper s.
Proof.
  induction s as [|c s IH]; simpl; [reflexivity|]. now rewrite IH, upper_char_twice.
Qed.

Lemma lstrip_upper s : PyStr.lstrip (PyStr.upper s) = PyStr.upper (PyStr.lstrip s).
Proof.
  induction s as [|c s IH]; simpl; [reflexivity|].
  rewrite isspace_upper_char. destruct (PyStr.isspace c); [exact IH | reflexivity].
Qed.

Lemma rstrip_upper s : PyStr.rstrip (PyStr.upper s) = PyStr.upper (PyStr.rstrip s).
Proof.
  induction s as [|c s IH]; simpl; [reflexivity|].
  rewrite IH, isspace_upper_char. destruct (PyStr.rstrip s); simpl; [|reflexivity].
  destruct (PyStr.isspace c); reflexivity.
Qed.

Lemma rstrip_twice s : PyStr.rstrip (PyStr.rstrip s) = PyStr.rstrip s.
Proof.
  induction s as [|c s IH]; simpl; [reflexivity|].
  destruct (PyStr.rstrip s) as [|c' r'] eqn:E.
  - destruct (PyStr.isspace c) eqn:Ec; simpl; [reflexivity|]. now rewrite Ec.
  - change (PyStr.rstrip (String c (String c' r')))
      with (match PyStr.rstrip (String c' r') with
            | EmptyString => if PyStr.isspace c then EmptyString else String c EmptyString
            | r0 => String c r0
            end).
    now rewrite IH.
Qed.

(** A text that does not begin with a blank still does not after
    [rstrip], unless nothing is left. *)
Lemma lstrip_rstrip s : PyStr.lstrip (PyStr.rstrip (PyStr.lstrip s)) = PyStr.rstrip (PyStr.lstrip s).
Proof.
  induction s as [|c s IH]; simpl; [reflexivity|].
  destruct (PyStr.isspace c) eqn:Ec; [exact IH|].
  simpl. destruct (PyStr.rstrip s); rewrite ?Ec; simpl; now rewrite Ec.
Qed.

Lemma strip_twice s : PyStr.strip (PyStr.strip s) = PyStr.strip s.
Proof. unfold PyStr.strip. now rewrite lstrip_rstrip, rstrip_twice. Qed.

Lemma strip_upper s : PyStr.strip (PyStr.upper s) = PyStr.upper (PyStr.strip s).
Proof. unfold PyStr.strip. now rewrite lstrip_upper, rstrip_upper. Qed.

Section TextCleaning.
Variable to_datetime : string -> option Timestamp.

(** X13.  After a successful [transform] every description of the clean
    frame is normalised: it has no blank at either end and no lower-case
    ASCII letter, so stripping it or upper-casing it again changes
    nothing; every country is stripped. *)
Theorem clean_text_is_normalised :
  forall s s' clean,
    transform to_datetime s = (Ret true, s') ->
    df_clean s' = Some clean ->
    forall c, In c clean ->
      (forall d, Description c = Some d -> normal_text d) /\
      (forall k, Country c = Some k -> PyStr.strip k = k).
Proof.
  intros s s' clean H Hclean c Hc.
  apply transform_ok in H. destruct H as (raw & clean' & _ & _ & Hf & ->).
  simpl in Hclean. injection Hclean as ->.
  pose proof (clean_frame_rows to_datetime raw clean Hf) as F.
  destruct (Forall2_In_r _ _ _ c F Hc) as (r & _ & Hr).
  unfold clean_row in Hr. destruct (convert to_datetime r) as [t|]; [|discriminate].
  simpl in Hr. injection Hr as <-. simpl. split.
  - intros d Hd. destruct (t_Description t) as [d0|]; [|discriminate].
    simpl in Hd. injection Hd as <-. split.
    + now rewrite strip_upper, strip_twice.
    + apply upper_twice.
  - intros k Hk. destruct (t_Country t) as [k0|]; [|discriminate].
    simpl in Hk. injection Hk as <-. apply strip_twice.
Qed.

End TextCleaning.

Lemma clean_text_is_normalised_witness :
  fst (transform Reference.iso_datetime (Sample.loaded Sample.four_rows)) = Ret true /\
  normal_text "WHITE HANGING HEART T-LIGHT HOLDER".
Proof.
  assert (H : transform Reference.iso_datetime (Sample.loaded Sample.four_rows)
              = (Ret true,
                 snd (transform Reference.iso_datetime (Sample.loaded Sample.four_rows))))
    by (vm_compute; reflexivity).
  split; [vm_compute; reflexivity|].
  assert (Hin : exists c,
             In c (Sample.frame_of
                     (snd (transform Reference.iso_datetime
                             (Sample.loaded Sample.four_rows)))) /\
             Description c = Some "WHITE HANGING HEART T-LIGHT HOLDER").
  { vm_compute. eexists. split; [left; reflexivity | reflexivity]. }
  destruct Hin as (c & Hin & Hd).
  exact (proj1 (clean_text_is_normalised Reference.iso_datetime _ _ _ H eq_refl c Hin) _ Hd).
Defined.

(* ================================================================== *)
(** ** The customers of a cleaned batch *)
(* ================================================================== *)

Lemma Timestamp_leb_key a b : Timestamp_leb a b = (ts_key a <=? ts_key b).
Proof. reflexivity. Qed.

Lemma fold_min_below r :
  forall t, ts_key (fold_left (fun m x => if Timestamp_leb x m then x else m) r t)
            <= ts_key t.
Proof.
  induction r as [|x r IH]; intros t; simpl; [lia|].
  rewrite Timestamp_leb_key. destruct (ts_key x <=? ts_key t) eqn:E.
  - apply Z.leb_le in E. specialize (IH x). lia.
  - apply IH.
Qed.

Lemma fold_max_above r :
  forall t, ts_key t
            <= ts_key (fold_left (fun m x => if Timestamp_leb m x then x else m) r t).
Proof.
  induction r as [|x r IH]; intros t; simpl; [lia|].
  rewrite Timestamp_leb_key. destruct (ts_key t <=? ts_key x) eqn:E.
  - apply Z.leb_le in E. specialize (IH x). lia.
  - apply IH.
Qed.

Lemma ts_min_before_max l a b :
  ts_min l = Some a -> ts_max l = Some b -> Timestamp_leb a b = true.
Proof.
  unfold ts_min, ts_max. destruct (valid l) as [|t r]; [discriminate|].
  intros Ha Hb. injection Ha as <-. injection Hb as <-.
  rewrite Timestamp_leb_key. apply Z.leb_le.
  pose proof (fold_min_below r t). pose proof (fold_max_above r t). lia.
Qed.

Lemma Qtotal_positive l :
  l <> [] -> Forall (fun q => 0 < q)%Q l -> (0 < Qtotal l)%Q.
Proof.
  intros Hne H. induction H as [|q l Hq H IH]; [congruence|].
  simpl. destruct l as [|q' l'].
  - simpl. now rewrite Qplus_0_r.
  - rewrite <- (Qplus_0_r 0). apply Qplus_lt_le_compat; [exact Hq|].
    apply Qlt_le_weak. apply IH. discriminate.
Qed.

Section BatchCustomers.
Variable to_datetime : string -> option Timestamp.

(** The total of a clean record is its quantity times its unit price,
    and positive. *)
Lemma clean_total_positive raw clean c :
  clean_frame to_datetime raw = Some clean -> In c clean ->
  exists p, UnitPrice c = Some p /\
            TotalAmount c = Some (inject_Z (Quantity c) * p)%Q /\
            (0 < inject_Z (Quantity c) * p)%Q.
Proof.
  intros Hf Hc.
  pose proof (clean_frame_rows to_datetime raw clean Hf) as F.
  destruct (Forall2_In_r _ _ _ c F Hc) as (r & Hr & Hrc).
  apply filter_In in Hr. destruct Hr as [_ Hk].
  unfold clean_row in Hrc. destruct (convert to_datetime r) as [t|] eqn:Et; [|discriminate].
  simpl in Hrc. injection Hrc as <-.
  apply convert_fields in Et. destruct Et as (_ & _ & _ & Hq & Hp & _).
  unfold keeps, raw_positive in Hk. rewrite !andb_true_iff in Hk.
  destruct Hk as (((_ & _) & (Hq0 & Hp0)) & _).
  simpl. rewrite Hp, Hq.
  destruct (raw_UnitPrice r) as [p|]; [|discriminate].
  exists p. split; [reflexivity|]. split; [reflexivity|].
  apply Qmult_lt_0_compat.
  - unfold Qlt. simpl. apply Z.gtb_lt in Hq0. lia.
  - now apply Qpos_b_spec.
Qed.

(** X14.  For a batch that [transform] has cleaned, every row of the
    customer aggregation has a positive lifetime value, the sum of
    quantity times unit price over the customer's records, and a first
    purchase that is not after the last. *)
Theorem batch_customers_have_positive_value :
  forall s s' clean,
    transform to_datetime s = (Ret true, s') ->
    df_clean s' = Some clean ->
    forall row,
      In row (customers_df clean) ->
      In (customer_id row) (map CustomerID clean) /\
      (0 < lifetime_value row)%Q /\
      forall a b,
        first_purchase_date row = Some a -> last_purchase_date row = Some b ->
        Timestamp_leb a b = true.
Proof.
  intros s s' clean H Hclean row Hrow.
  apply transform_ok in H. destruct H as (raw & clean' & _ & _ & Hf & ->).
  simpl in Hclean. injection Hclean as ->.
  apply customers_df_id in Hrow. destruct Hrow as [E Hk].
  rewrite E. clear E. generalize dependent (customer_id row). clear row.
  intros k Hk.
  change (customer_id (customer_agg clean k)) with k.
  split; [exact Hk|]. split.
  - simpl. rewrite Qsum_total. apply Qtotal_positive.
    + apply in_map_iff in Hk. destruct Hk as (c & Hid & Hc).
      destruct (clean_total_positive raw clean c Hf Hc) as (p & _ & Ht & _).
      intros F.
      assert (Hin : In (inject_Z (Quantity c) * p)%Q
                       (valid (map TotalAmount (customer_group clean k)))).
      { apply valid_In. rewrite <- Ht. apply in_map.
        unfold customer_group. apply filter_In. split; [exact Hc|].
        now apply Z.eqb_eq. }
      rewrite F in Hin. destruct Hin.
    + apply Forall_forall. intros q Hq. apply valid_In in Hq.
      apply in_map_iff in Hq. destruct Hq as (c & Ht & Hc).
      unfold customer_group in Hc. apply filter_In in Hc. destruct Hc as [Hc _].
      destruct (clean_total_positive raw clean c Hf Hc) as (p & _ & Ht' & Hpos).
      rewrite Ht' in Ht. injection Ht as <-. exact Hpos.
  - simpl. intros a b Ha Hb. eapply ts_min_before_max; eassumption.
Qed.

End BatchCustomers.

Lemma batch_customers_have_positive_value_witness :
  exists row,
    In row (customers_df
              (Sample.frame_of (snd (transform Reference.iso_datetime
                                       (Sample.loaded Sample.four_rows))))) /\
    customer_id row = 101 /\ (0 < lifetime_value row)%Q.
Proof.
  assert (H : transform Reference.iso_datetime (Sample.loaded Sample.four_rows)
              = (Ret true,
                 snd (transform Reference.iso_datetime (Sample.loaded Sample.four_rows))))
    by (vm_compute; reflexivity).
  assert (Hin : exists row,
             In row (customers_df
                       (Sample.frame_of (snd (transform Reference.iso_datetime
                                                (Sample.loaded Sample.four_rows))))) /\
             customer_id row = 101).
  { vm_compute. eexists. split; [left; reflexivity | reflexivity]. }
  destruct Hin as (row & Hin & Hid).
  exists row. split; [exact Hin|]. split; [exact Hid|].
  exact (proj1 (proj2 (batch_customers_have_positive_value Reference.iso_datetime
                         _ _ _ H eq_refl row Hin))).
Defined.

(* ================================================================== *)
(** ** Validation of an empty fact table *)
(* ================================================================== *)

(** X15.  [validate] copes with an empty fact table.  When storage
    serves its queries and holds no fact, it returns the complete
    mapping: the counts, no negative amount, a revenue and a date range
    that are missing; the object is unchanged. *)
Theorem validate_of_empty_fact_table :
  forall s c,
    conn s = Some c -> closed c = false -> script c = [] ->
    fact_transactions (working c) = [] ->
    validate s
    = (Ret (Some (mkValidationResults 0
                    (List.length (dim_customers (working c)))
                    (List.length (dim_products (working c)))
                    0 None (None, None))),
       set_trace (trace s ++ [(Validate, Succeeded)]) s).
Proof.
  intros s c Hc Ho Hs Hf.
  unfold validate, staged, try_except.
  unfold bind at 1. unfold cursor, bind at 1, the_conn. rewrite Hc, Ho. simpl.
  do 6 (unfold bind at 1; rewrite (fetch_idle _ s c Hc Ho Hs)).
  rewrite Hf. reflexivity.
Qed.

Lemma validate_of_empty_fact_table_witness :
  exists v,
    fst (validate (Sample.before_dimension_load [] Sample.four_rows)) = Ret (Some v) /\
    total_revenue v = None.
Proof.
  assert (Hc : exists c,
             conn (Sample.before_dimension_load [] Sample.four_rows) = Some c /\
             closed c = false /\ script c = [] /\ fact_transactions (working c) = []).
  { vm_compute. eexists. repeat split. }
  destruct Hc as (c & Hc & Ho & Hs & Hf).
  eexists.
  rewrite (validate_of_empty_fact_table _ c Hc Ho Hs Hf).
  split; reflexivity.
Defined.

(* ================================================================== *)
(** ** The rows of the date dimension *)
(* ================================================================== *)

Lemma weeks_in_year_bounds y : 52 <= Calendar.weeks_in_year y <= 53.
Proof. unfold Calendar.weeks_in_year. destruct (_ || _); lia. Qed.

Lemma isoweek_bounds d : 1 <= Calendar.isoweek d <= 53.
Proof.
  unfold Calendar.isoweek.
  set (w := (_ - _ + 10) / 7).
  pose proof (weeks_in_year_bounds (year d)).
  pose proof (weeks_in_year_bounds (year d - 1)).
  destruct (w <? 1) eqn:E1; [lia|].
  destruct (w >? Calendar.weeks_in_year (year d)) eqn:E2; [lia|].
  apply Z.ltb_ge in E1. rewrite Z.gtb_ltb in E2. apply Z.ltb_ge in E2. lia.
Qed.

Lemma dayofweek_bounds d : 0 <= Calendar.dayofweek d <= 6.
Proof.
  unfold Calendar.dayofweek.
  pose proof (Z.mod_pos_bound (Calendar.days_from_civil d + 3) 7 ltac:(lia)). lia.
Qed.

Lemma weekend_names d :
  Calendar.is_weekend d = true <->
  Calendar.day_name d = "Saturday" \/ Calendar.day_name d = "Sunday".
Proof.
  unfold Calendar.is_weekend, Calendar.day_name.
  pose proof (dayofweek_bounds d) as B.
  assert (C : Calendar.dayofweek d = 0 \/ Calendar.dayofweek d = 1 \/
              Calendar.dayofweek d = 2 \/ Calendar.dayofweek d = 3 \/
              Calendar.dayofweek d = 4 \/ Calendar.dayofweek d = 5 \/
              Calendar.dayofweek d = 6) by lia.
  destruct C as [E|[E|[E|[E|[E|[E|E]]]]]]; rewrite E; simpl;
    split; intros H; try discriminate; try (destruct H; discriminate); auto.
Qed.

(** X16.  Every row that [load_dimensions] builds for the date dimension
    is coherent with its date, whatever the date: year, month and day
    are those of the date, the day of week lies between 0 and 6, the ISO
    week between 1 and 53, and the weekend flag is set exactly on the
    rows named Saturday or Sunday. *)
Theorem date_rows_are_coherent :
  forall clean a,
    In (Some a) (dates_df clean) ->
    (exists row ts, In row clean /\ InvoiceDate row = Some ts /\
                    full_date a = ts_date ts) /\
    d_year a = year (full_date a) /\ d_month a = month (full_date a) /\
    d_day_of_month a = day (full_date a) /\
    0 <= d_day_of_week a <= 6 /\
    1 <= d_week a <= 53 /\
    (d_is_weekend a = true <-> d_day_name a = "Saturday" \/ d_day_name a = "Sunday").
Proof.
  intros clean a H. unfold dates_df in H. apply in_map_iff in H.
  destruct H as ([d|] & E & Hd); [|discriminate].
  simpl in E. injection E as <-.
  apply (proj1 (drop_duplicates_In _ option_Date_eqb_eq _ _)) in Hd.
  apply in_map_iff in Hd. destruct Hd as (row & Hk & Hrow).
  unfold date_key in Hk. destruct (InvoiceDate row) as [ts|] eqn:Ets; [|discriminate].
  simpl in Hk. injection Hk as <-. simpl.
  split; [exists row, ts; auto|].
  split; [reflexivity|]. split; [reflexivity|]. split; [reflexivity|].
  split; [apply dayofweek_bounds|]. split; [apply isoweek_bounds|].
  apply weekend_names.
Qed.

Lemma date_rows_are_coherent_witness :
  In (Some (date_attrs_of (mkDate 2010 12 1)))
     (dates_df (Sample.frame_of Cases.ready_for_facts)) /\
  1 <= d_week (date_attrs_of (mkDate 2010 12 1)) <= 53.
Proof.
  assert (H : In (Some (date_attrs_of (mkDate 2010 12 1)))
                 (dates_df (Sample.frame_of Cases.ready_for_facts)))
    by (vm_compute; left; reflexivity).
  split; [exact H|].
  destruct (date_rows_are_coherent _ _ H) as (_ & _ & _ & _ & _ & Hw & _).
  exact Hw.
Defined.

(* ================================================================== *)
(** * The stand-alone validator *)
(* ================================================================== *)

Section ValidatorFacts.
Import Validation.

Lemma revenue_of_nothing d :
  Forall (fun t => total_amount t = None) (transactions d) -> revenue d = None.
Proof.
  unfold revenue. intros H.
  replace (valid (map total_amount (transactions d))) with (@nil Q); [reflexivity|].
  induction H as [|t l Ht _ IH]; simpl; [reflexivity|]. now rewrite Ht.
Qed.

(** X17.  [validate_all] closes its connection only when it reaches its
    end.  When it returns, the connection is closed and the complete
    report was printed: the three counts, the count of negative amounts,
    the date range and the revenue, which is then not NULL.  When it
    raises, the lines printed are a report cut before its revenue line,
    and the connection is left as it was, with one exception: a query
    during which the connection is lost raises the driver's error and
    the driver marks the connection closed.  It never changes the
    database. *)
Theorem validator_closes_only_at_its_end :
  forall v r v',
    validate_all v = (r, v') ->
    db v' = db v /\
    match r with
    | Returns _ =>
        closed v = false /\ closed v' = true /\
        exists q, revenue (db v) = Some q /\
                  printed v' = printed v ++ report (db v) q
    | Raises e =>
        (closed v' = closed v \/
         closed v' = true /\
         exists msg, e = Driver (OperationalError msg) /\ In (Lost msg) (script v)) /\
        exists n, (n <= 8)%nat /\
                  printed v' = printed v ++ firstn n (report (db v) (0 # 1)%Q)
    end.
Proof.
  intros [d sc cl pr] r v'. unfold validate_all, vbind, print, query, format_revenue,
    close_connection. cbn [db script closed printed].
  destruct cl.
  - cbn. intros H. apply pair_equal_spec in H. destruct H as [<- <-]. cbn.
    split; [reflexivity|]. split; [now left|].
    exists 3%nat. split; [lia|]. now rewrite <- !app_assoc.
  - destruct (revenue d) as [q|] eqn:Er.
    + repeat (match goal with
              | |- context [match ?x with [] => _ | _ :: _ => _ end] =>
                  is_var x; destruct x as [|[|?|?] ?]
              end; cbn; rewrite ?Er; cbn);
        intros H; apply pair_equal_spec in H; destruct H as [<- <-];
        cbn; rewrite <- ?app_assoc; cbn;
        (split; [reflexivity|]);
        first [ split; [reflexivity|]; split; [reflexivity|];
                exists q; split; reflexivity
              | split; [first [ left; reflexivity
                              | right; split; [reflexivity|]; eexists;
                                split; [reflexivity|];
                                repeat (first [left; reflexivity | right]) ]|];
                first [ exists 3%nat; split; [lia|reflexivity]
                      | exists 4%nat; split; [lia|reflexivity]
                      | exists 5%nat; split; [lia|reflexivity]
                      | exists 6%nat; split; [lia|reflexivity]
                      | exists 7%nat; split; [lia|reflexivity]
                      | exists 8%nat; split; [lia|reflexivity] ] ].
    + repeat (match goal with
              | |- context [match ?x with [] => _ | _ :: _ => _ end] =>
                  is_var x; destruct x as [|[|?|?] ?]
              end; cbn; rewrite ?Er; cbn);
        intros H; apply pair_equal_spec in H; destruct H as [<- <-];
        cbn; rewrite <- ?app_assoc; cbn;
        (split; [reflexivity|]);
        (split; [first [ left; reflexivity
                       | right; split; [reflexivity|]; eexists;
                         split; [reflexivity|];
                         repeat (first [left; reflexivity | right]) ]|]);
        first [ exists 3%nat; split; [lia|reflexivity]
              | exists 4%nat; split; [lia|reflexivity]
              | exists 5%nat; split; [lia|reflexivity]
              | exists 6%nat; split; [lia|reflexivity]
              | exists 7%nat; split; [lia|reflexivity]
              | exists 8%nat; split; [lia|reflexivity] ].
Qed.

Lemma validator_closes_only_at_its_end_witness :
  (fst (validate_all (mkDataValidator two_sales [] false [])) = Returns tt /\
   closed (snd (validate_all (mkDataValidator two_sales [] false []))) = true) /\
  (fst (validate_all (mkDataValidator two_sales [Done; Fails "timeout"] false []))
   = Raises (Driver (OperationalError "timeout")) /\
   closed (snd (validate_all (mkDataValidator two_sales [Done; Fails "timeout"] false [])))
   = false).
Proof.
  split.
  - assert (H : validate_all (mkDataValidator two_sales [] false [])
                = (Returns tt, snd (validate_all (mkDataValidator two_sales [] false []))))
      by (vm_compute; reflexivity).
    split; [vm_compute; reflexivity|].
    destruct (validator_closes_only_at_its_end _ _ _ H) as (_ & _ & Hc & _).
    exact Hc.
  - assert (H : validate_all (mkDataValidator two_sales [Done; Fails "timeout"] false [])
                = (Raises (Driver (OperationalError "timeout")),
                   snd (validate_all
                          (mkDataValidator two_sales [Done; Fails "timeout"] false []))))
      by (vm_compute; reflexivity).
    split; [vm_compute; reflexivity|].
    destruct (validator_closes_only_at_its_end _ _ _ H) as (_ & [Hc|(_ & msg & _ & Hin)] & _).
    + exact Hc.
    + cbn in Hin. destruct Hin as [F|[F|[]]]; discriminate F.
Defined.

(** X18.  On a database whose transactions carry no amount, in
    particular when the table is empty, the revenue is NULL and
    [validate_all] raises a type error at its revenue line, although
    every query was served: the report stops after the date range and
    the connection stays open. *)
Theorem validator_raises_without_amounts :
  forall v,
    closed v = false -> script v = [] ->
    Forall (fun t => total_amount t = None) (transactions (db v)) ->
    validate_all v
    = (Raises TypeError,
       mkDataValidator (db v) [] false
         (printed v ++ firstn 8 (report (db v) (0 # 1)%Q))).
Proof.
  intros [d sc cl pr] Ho Hs Hn. cbn in Ho, Hs, Hn. subst cl sc.
  apply revenue_of_nothing in Hn.
  unfold validate_all, vbind, print, query, format_revenue. cbn. rewrite Hn. cbn.
  now rewrite <- !app_assoc.
Qed.

Lemma validator_raises_without_amounts_witness :
  fst (validate_all (mkDataValidator no_sales [] false [])) = Raises TypeError.
Proof.
  rewrite (validator_raises_without_amounts (mkDataValidator no_sales [] false [])
             eq_refl eq_refl (Forall_nil _)).
  reflexivity.
Defined.

(** X19.  A validator reports once.  On a new validator, when every
    query is served and the revenue is not NULL, [validate_all] returns
    after the complete report and has closed the connection; called
    again on the same object it raises the driver's error for a closed
    connection after the three lines of the heading. *)
Theorem validator_reports_once :
  forall d q,
    revenue d = Some q ->
    exists v v',
      init (Some (d, [])) = Returns v /\
      validate_all v = (Returns tt, v') /\
      printed v' = report d q /\
      validate_all v'
      = (Raises (Driver InterfaceError),
         mkDataValidator d [] true (report d q ++ [Rule; Title; Rule])).
Proof.
  intros d q Hq. eexists. eexists. split; [reflexivity|]. split; [|split].
  - unfold validate_all, vbind, print, query, format_revenue, close_connection.
    cbn. rewrite Hq. cbn. reflexivity.
  - reflexivity.
  - unfold validate_all, vbind, print, query. cbn. reflexivity.
Qed.

Lemma validator_reports_once_witness :
  exists v v',
    init (Some (two_sales, [])) = Returns v /\
    validate_all v = (Returns tt, v') /\
    fst (validate_all v') = Raises (Driver InterfaceError).
Proof.
  destruct (validator_reports_once two_sales (Qsum [(75 # 10)%Q; (2034 # 100)%Q]) eq_refl)
    as (v & v' & H0 & H1 & _ & H2).
  exists v, v'. split; [exact H0|]. split; [exact H1|]. now rewrite H2.
Defined.

End ValidatorFacts.
